(** * acadz-transcription: the expo-audio-stream capture pipeline

    A shallow embedding of the two native implementations of the
    [ExpoAudioStream] module:

    - the Android module (Kotlin, [ExpoAudioStreamModule.kt]): the
      [startRecording] / [stopRecording] commands, the audio-focus listener,
      the capture loop, [calculateRMS] and [shortArrayToBase64];
    - the iOS module (Swift): the tap callback [processAudioBuffer] with its
      gain stage, [calculateRMS] and [audioBufferToBase64].

    Kotlin [Double] and Swift [Double] are IEEE 754 binary64, Kotlin [Float]
    and Swift [Float] are binary32; both are modelled with the executable
    specification of IEEE arithmetic of the standard library ([spec_float],
    precision 53 / 24), so that NaN, signed zeros and rounding are the ones
    the programs see. *)

From Stdlib Require Import String Ascii ZArith PArith List Bool Lia.
From Stdlib Require Import SpecFloat.
Import ListNotations.
Open Scope Z_scope.

(** ** Floating point numbers *)

Module Fp.

(** binary64: Kotlin / Swift [Double]. *)
Definition prec64 : Z := 53.
Definition emax64 : Z := 1024.
(** binary32: Kotlin / Swift [Float]. *)
Definition prec32 : Z := 24.
Definition emax32 : Z := 128.

Definition add64 := SFadd prec64 emax64.
Definition mul64 := SFmul prec64 emax64.
Definition div64 := SFdiv prec64 emax64.
Definition sqrt64 := SFsqrt prec64 emax64.
Definition mul32 := SFmul prec32 emax32.

(** Conversion of an integer to [Double] ([Int.toDouble], [Double(_)]). *)
Definition Z2D (z : Z) : spec_float := binary_normalize prec64 emax64 z 0 false.
(** Conversion of an integer to [Float]. *)
Definition Z2F (z : Z) : spec_float := binary_normalize prec32 emax32 z 0 false.

(** Narrowing of a [Double] to a [Float] ([Double.toFloat], [Float(_)]):
    round to nearest, ties to even; overflow gives an infinity. *)
Definition toFloat (x : spec_float) : spec_float :=
  match x with
  | S754_finite s m e => binary_round prec32 emax32 s m e
  | _ => x
  end.

(** The [Double] of sign [sx] and magnitude [n], an integer with
    [0 < n < 2^53], as it is stored: a mantissa of 53 bits and the
    exponent that goes with it. *)
Definition exact64 (sx : bool) (n : Z) : spec_float :=
  S754_finite sx (Z.to_pos (n * 2 ^ (52 - Z.log2 n))) (Z.log2 n - 52).

Definition pzero : spec_float := S754_zero false.
Definition one32 : spec_float := Z2F 1.
Definition mone32 : spec_float := Z2F (-1).
Definition half32 : spec_float := S754_finite false 8388608 (-24).
Definition two32 : spec_float := Z2F 2.

(** The comparison operators [<], [>] and [>=] of the two languages:
    all are false when an operand is NaN. *)
Definition flt (x y : spec_float) : bool := SFltb x y.
Definition fgt (x y : spec_float) : bool := SFltb y x.
Definition fge (x y : spec_float) : bool := SFleb y x.
Definition fle (x y : spec_float) : bool := SFleb x y.

(** [clamp(x, lo, hi)] as the spec uses it: values below [lo] become
    [lo], values above [hi] become [hi], anything else is kept. *)
Definition clamp (x lo hi : spec_float) : spec_float :=
  if flt x lo then lo else if fgt x hi then hi else x.

Definition is_nan (x : spec_float) : bool :=
  match x with S754_nan => true | _ => false end.

(** A number (not NaN) whose sign bit is clear. *)
Definition is_nonneg (x : spec_float) : bool :=
  match x with
  | S754_zero false | S754_infinity false | S754_finite false _ _ => true
  | _ => false
  end.

Definition is_finite (x : spec_float) : bool :=
  match x with
  | S754_zero _ | S754_finite _ _ _ => true
  | _ => false
  end.

End Fp.

(** ** Samples and bytes *)

(** A Kotlin [Short] / Swift [Int16] is kept as a [Z] in the signed 16 bit
    range. *)
Definition int16 (s : Z) : Prop := -32768 <= s <= 32767.

(** Kotlin [Int] arithmetic wraps around in 32 bits. *)
Definition wrap32 (z : Z) : Z := (z + 2147483648) mod 4294967296 - 2147483648.

(** A byte is a [Z] in [0, 256). *)
Definition byte_ok (b : Z) : Prop := 0 <= b < 256.

(** The two bytes [ByteBuffer.putShort] writes in little-endian order. *)
Definition putShort (s : Z) : list Z :=
  [Z.land s 255; Z.land (Z.shiftr s 8) 255].

(** ** The text encoding of the platform codecs *)

Module Base64.

(** Modelled from the spec: [android.util.Base64.encodeToString] with
    [NO_WRAP] and Foundation's [base64EncodedString] are platform codecs
    whose code is not part of the repository, and the repository has no
    decoder at all.  The spec names the encoding as standard base64
    without line wrapping; [encode] and [decode] follow that standard
    (three bytes to four characters of the 64 character alphabet, padded
    with [=]). *)
Definition alphabet : list ascii :=
  list_ascii_of_string
    "ABCDEFGHIJKLMNOPQRSTUVWXYZabcdefghijklmnopqrstuvwxyz0123456789+/".

Definition pad : ascii := "="%char.

Definition char_of_sextet (v : Z) : ascii := nth (Z.to_nat v) alphabet pad.

Definition sextet_of_char (c : ascii) : option Z :=
  let n := Z.of_N (N_of_ascii c) in
  if (65 <=? n) && (n <=? 90) then Some (n - 65)
  else if (97 <=? n) && (n <=? 122) then Some (n - 71)
  else if (48 <=? n) && (n <=? 57) then Some (n + 4)
  else if n =? 43 then Some 62
  else if n =? 47 then Some 63
  else None.

Definition is_pad (c : ascii) : bool := Ascii.eqb c pad.

Definition is_empty (s : string) : bool :=
  match s with EmptyString => true | _ => false end.

(** Modelled from the spec: the encoder half of the codec. *)
Fixpoint encode (bs : list Z) : string :=
  match bs with
  | [] => EmptyString
  | [a] =>
      String (char_of_sextet (a / 4))
        (String (char_of_sextet ((a mod 4) * 16))
           (String pad (String pad EmptyString)))
  | [a; b] =>
      String (char_of_sextet (a / 4))
        (String (char_of_sextet ((a mod 4) * 16 + b / 16))
           (String (char_of_sextet ((b mod 16) * 4))
              (String pad EmptyString)))
  | a :: b :: c :: rest =>
      String (char_of_sextet (a / 4))
        (String (char_of_sextet ((a mod 4) * 16 + b / 16))
           (String (char_of_sextet ((b mod 16) * 4 + c / 64))
              (String (char_of_sextet (c mod 64)) (encode rest))))
  end.

(** Modelled from the spec: the decoder half of the codec.  It rejects
    characters outside the alphabet, a length that is not a multiple of
    four, and padding anywhere but at the end. *)
Fixpoint decode (s : string) : option (list Z) :=
  match s with
  | EmptyString => Some []
  | String c1 (String c2 (String c3 (String c4 rest))) =>
      match sextet_of_char c1, sextet_of_char c2 with
      | Some v1, Some v2 =>
          if is_pad c3 then
            if is_pad c4 && is_empty rest then Some [v1 * 4 + v2 / 16]
            else None
          else
            match sextet_of_char c3 with
            | Some v3 =>
                if is_pad c4 then
                  if is_empty rest
                  then Some [v1 * 4 + v2 / 16; (v2 mod 16) * 16 + v3 / 4]
                  else None
                else
                  match sextet_of_char c4, decode rest with
                  | Some v4, Some tl =>
                      Some (v1 * 4 + v2 / 16
                            :: (v2 mod 16) * 16 + v3 / 4
                            :: (v3 mod 4) * 64 + v4 :: tl)
                  | _, _ => None
                  end
            | None => None
            end
      | _, _ => None
      end
  | _ => None
  end.

End Base64.

(** ** The Android module ([ExpoAudioStreamModule.kt]) *)

Module Android.

(** Result of an [AsyncFunction] body: the promise is resolved, rejected
    with a code, or the body is left by the [IllegalStateException] of a
    null React context. *)
Inductive Outcome :=
| Resolved
| Rejected (code : string)
| Threw.

(** Calls into the platform, recorded in the order they are made. *)
Inductive Call :=
| StartForegroundService
| StopService
| WakeLockAcquire
| WakeLockRelease
| RequestAudioFocus
| AbandonAudioFocus
| NewAudioRecord
| HwStartRecording
| HwStop
| HwRelease
| LaunchLoop (job : nat)
| CancelJob (job : nat)
| SendEvent (data : string) (amplitude : spec_float)
| UncaughtException.

(** [AudioManager] focus changes delivered to the listener. *)
Inductive FocusChange :=
| AUDIOFOCUS_GAIN
| AUDIOFOCUS_LOSS
| AUDIOFOCUS_LOSS_TRANSIENT
| AUDIOFOCUS_LOSS_TRANSIENT_CAN_DUCK.

(** An [AudioRecord] object; [initialized] is
    [state == AudioRecord.STATE_INITIALIZED]. *)
Record AudioRecord := { initialized : bool }.

(** A coroutine launched by [startRecordingLoop], with the [ShortArray]
    local to its body.  [isActive] is [negb cancelled]. *)
Record Job := { cancelled : bool; finished : bool; buffer : list Z }.

(** The fields of the module object, the coroutines of its scope, the
    state of the foreground service and the calls made so far.  The wake
    lock is [Some held]: it is acquired for ten minutes and [held] turns
    false when that time has passed ([wakeLockTimeout]). *)
Record State := {
  isRecording : bool;
  recordingJob : option nat;
  audioRecord : option AudioRecord;
  wakeLock : option bool;
  audioFocusRequest : bool;
  focusListener : bool;
  foregroundService : bool;
  jobs : list Job;
  trace : list Call
}.

(** What the platform answers during one command. *)
Record Env := {
  BUFFER_SIZE : Z;            (* AudioRecord.getMinBufferSize(...) *)
  sdkAtLeastO : bool;         (* Build.VERSION.SDK_INT >= O *)
  reactContext : bool;        (* appContext.reactContext != null *)
  permissionGranted : bool;   (* RECORD_AUDIO *)
  focusGranted : bool;        (* AUDIOFOCUS_REQUEST_GRANTED *)
  constructorThrows : bool;   (* AudioRecord(...) throws *)
  recordInitialized : bool    (* state of the new AudioRecord *)
}.

(** One [AudioRecord.read]: the value returned and the samples written
    to the front of the array. *)
Record HwRead := { readResult : Z; written : list Z }.

Definition initial : State :=
  {| isRecording := false; recordingJob := None; audioRecord := None;
     wakeLock := None; audioFocusRequest := false; focusListener := false;
     foregroundService := false; jobs := []; trace := [] |}.

Definition set_isRecording (b : bool) (s : State) : State :=
  {| isRecording := b; recordingJob := recordingJob s;
     audioRecord := audioRecord s; wakeLock := wakeLock s;
     audioFocusRequest := audioFocusRequest s;
     focusListener := focusListener s;
     foregroundService := foregroundService s;
     jobs := jobs s; trace := trace s |}.

Definition set_recordingJob (j : option nat) (s : State) : State :=
  {| isRecording := isRecording s; recordingJob := j;
     audioRecord := audioRecord s; wakeLock := wakeLock s;
     audioFocusRequest := audioFocusRequest s;
     focusListener := focusListener s;
     foregroundService := foregroundService s;
     jobs := jobs s; trace := trace s |}.

Definition set_audioRecord (r : option AudioRecord) (s : State) : State :=
  {| isRecording := isRecording s; recordingJob := recordingJob s;
     audioRecord := r; wakeLock := wakeLock s;
     audioFocusRequest := audioFocusRequest s;
     focusListener := focusListener s;
     foregroundService := foregroundService s;
     jobs := jobs s; trace := trace s |}.

Definition set_wakeLock (w : option bool) (s : State) : State :=
  {| isRecording := isRecording s; recordingJob := recordingJob s;
     audioRecord := audioRecord s; wakeLock := w;
     audioFocusRequest := audioFocusRequest s;
     focusListener := focusListener s;
     foregroundService := foregroundService s;
     jobs := jobs s; trace := trace s |}.

Definition set_focus (request listener : bool) (s : State) : State :=
  {| isRecording := isRecording s; recordingJob := recordingJob s;
     audioRecord := audioRecord s; wakeLock := wakeLock s;
     audioFocusRequest := request; focusListener := listener;
     foregroundService := foregroundService s;
     jobs := jobs s; trace := trace s |}.

Definition set_foregroundService (b : bool) (s : State) : State :=
  {| isRecording := isRecording s; recordingJob := recordingJob s;
     audioRecord := audioRecord s; wakeLock := wakeLock s;
     audioFocusRequest := audioFocusRequest s;
     focusListener := focusListener s;
     foregroundService := b;
     jobs := jobs s; trace := trace s |}.

Definition set_jobs (js : list Job) (s : State) : State :=
  {| isRecording := isRecording s; recordingJob := recordingJob s;
     audioRecord := audioRecord s; wakeLock := wakeLock s;
     audioFocusRequest := audioFocusRequest s;
     focusListener := focusListener s;
     foregroundService := foregroundService s;
     jobs := js; trace := trace s |}.

(** Records one platform call. *)
Definition call (c : Call) (s : State) : State :=
  {| isRecording := isRecording s; recordingJob := recordingJob s;
     audioRecord := audioRecord s; wakeLock := wakeLock s;
     audioFocusRequest := audioFocusRequest s;
     focusListener := focusListener s;
     foregroundService := foregroundService s;
     jobs := jobs s; trace := trace s ++ [c] |}.

(** Replaces the job at index [j]; out of range nothing changes. *)
Fixpoint replace_job (j : nat) (x : Job) (js : list Job) : list Job :=
  match js, j with
  | [], _ => []
  | _ :: tl, O => x :: tl
  | hd :: tl, S j' => hd :: replace_job j' x tl
  end.

(** *** Signal helpers *)

Section Loops.
Variable A : Type.
Variable buffer : list Z.
Variable body : A -> Z -> A.

(** [for (i in from until from + count) acc = body(acc, buffer[i])];
    [None] is the [ArrayIndexOutOfBoundsException] of [buffer[i]]. *)
Fixpoint for_until (from : nat) (count : nat) (acc : A) : option A :=
  match count with
  | O => Some acc
  | S c =>
      match nth_error buffer from with
      | Some sample => for_until (S from) c (body acc sample)
      | None => None
      end
  end.
End Loops.

Arguments for_until {A} buffer body from count acc.

(** [Float.coerceIn(minimumValue, maximumValue)]; [None] is the
    [IllegalArgumentException] of an empty range. *)
Definition coerceIn (x lo hi : spec_float) : option spec_float :=
  if Fp.fgt lo hi then None
  else if Fp.flt x lo then Some lo
  else if Fp.fgt x hi then Some hi
  else Some x.

(** [calculateRMS(buffer, readSize)]. *)
Definition calculateRMS (buffer : list Z) (readSize : Z)
  : option spec_float :=
  match for_until buffer
          (fun sum sample => Fp.add64 sum (Fp.Z2D (wrap32 (sample * sample))))
          0 (Z.to_nat readSize) Fp.pzero with
  | None => None
  | Some sum =>
      let mean := Fp.div64 sum (Fp.Z2D readSize) in
      let rms := Fp.sqrt64 mean in
      coerceIn (Fp.toFloat (Fp.div64 rms (Fp.Z2D 32767))) Fp.pzero Fp.one32
  end.

(** The bytes [shortArrayToBase64] hands to the codec; [None] is an
    exception ([ByteBuffer.allocate] of a negative capacity, or an index
    out of bounds). *)
Definition shortArrayBytes (buffer : list Z) (readSize : Z)
  : option (list Z) :=
  if wrap32 (readSize * 2) <? 0 then None
  else for_until buffer (fun bytes sample => bytes ++ putShort sample)
         0 (Z.to_nat readSize) [].

(** [shortArrayToBase64(buffer, readSize)]. *)
Definition shortArrayToBase64 (buffer : list Z) (readSize : Z)
  : option string :=
  option_map Base64.encode (shortArrayBytes buffer readSize).

(** *** Keep-alive and focus helpers *)

Definition startForegroundService (s : State) : State :=
  set_foregroundService true (call StartForegroundService s).

Definition stopForegroundService (env : Env) (s : State) : State :=
  if reactContext env
  then set_foregroundService false (call StopService s)
  else s.

(** [wakeLock?.acquire(10*60*1000L)]. *)
Definition acquireWakeLock (s : State) : State :=
  set_wakeLock (Some true) (call WakeLockAcquire s).

(** Ten minutes after [acquire] the platform releases the lock in the
    field for the module: the object stays, [isHeld] is false. *)
Definition wakeLockTimeout (s : State) : State :=
  match wakeLock s with
  | Some true => set_wakeLock (Some false) s
  | _ => s
  end.

Definition releaseWakeLock (s : State) : State :=
  set_wakeLock None
    match wakeLock s with
    | Some true => call WakeLockRelease s
    | _ => s
    end.

Definition abandonAudioFocus (env : Env) (s : State) : State :=
  if reactContext env then
    if sdkAtLeastO env && audioFocusRequest s
    then call AbandonAudioFocus s
    else s
  else s.

(** [startRecordingLoop()]: launches the coroutine and remembers it in
    [recordingJob]. *)
Definition startRecordingLoop (env : Env) (s : State) : State :=
  let j := length (jobs s) in
  let fresh :=
    {| cancelled := false; finished := false;
       buffer := repeat 0 (Z.to_nat (Z.quot (BUFFER_SIZE env) 2)) |} in
  set_recordingJob (Some j)
    (set_jobs (jobs s ++ [fresh]) (call (LaunchLoop j) s)).

(** [stopRecording()].  On an object that was never initialized the call
    of [AudioRecord.stop] is made and throws; the handler logs and
    [release] is skipped. *)
Definition stopRecording (env : Env) (s : State) : State :=
  let s := set_isRecording false s in
  let s :=
    match recordingJob s with
    | Some j =>
        match nth_error (jobs s) j with
        | Some job =>
            set_jobs
              (replace_job j {| cancelled := true; finished := finished job;
                                buffer := buffer job |} (jobs s))
              (call (CancelJob j) s)
        | None => call (CancelJob j) s
        end
    | None => s
    end in
  let s :=
    match audioRecord s with
    | Some r =>
        if initialized r then call HwRelease (call HwStop s)
        else call HwStop s
    | None => s
    end in
  let s := set_audioRecord None s in
  let s := releaseWakeLock s in
  let s := stopForegroundService env s in
  abandonAudioFocus env s.

(** The [OnAudioFocusChangeListener] built by [requestAudioFocus].  On an
    object that was never initialized the call of
    [AudioRecord.startRecording] is made and throws out of the listener. *)
Definition onAudioFocusChange (env : Env) (focusChange : FocusChange)
    (s : State) : State :=
  match focusChange with
  | AUDIOFOCUS_LOSS => stopRecording env s
  | AUDIOFOCUS_LOSS_TRANSIENT => set_isRecording false s
  | AUDIOFOCUS_GAIN =>
      match audioRecord s with
      | Some r =>
          if negb (isRecording s) then
            let s := set_isRecording true s in
            if initialized r
            then startRecordingLoop env (call HwStartRecording s)
            else call UncaughtException (call HwStartRecording s)
          else s
      | None => s
      end
  | AUDIOFOCUS_LOSS_TRANSIENT_CAN_DUCK => s
  end.

(** [requestAudioFocus(context)]: builds the listener, passes it to the
    platform with the request and returns whether the request was granted.
    A granted request leaves the listener registered. *)
Definition requestAudioFocus (env : Env) (s : State) : State * bool :=
  let s := call RequestAudioFocus s in
  (set_focus (sdkAtLeastO env || audioFocusRequest s)
     (focusGranted env || focusListener s) s,
   focusGranted env).

(** The platform delivers focus changes to a registered listener only. *)
Definition deliverFocusChange (env : Env) (focusChange : FocusChange)
    (s : State) : State :=
  if focusListener s then onAudioFocusChange env focusChange s else s.

(** *** The commands *)

(** [AsyncFunction("startRecording")]. *)
Definition startRecording (env : Env) (s : State) : State * Outcome :=
  if isRecording s then (s, Rejected "E_ALREADY_RECORDING")
  else if negb (reactContext env) then (s, Threw)
  else if negb (permissionGranted env) then (s, Rejected "E_NO_PERMISSION")
  else
    let s := startForegroundService s in
    let s := acquireWakeLock s in
    let '(s, granted) := requestAudioFocus env s in
    if negb granted then (s, Rejected "E_AUDIO_FOCUS")
    else if constructorThrows env then (s, Rejected "E_START_RECORDING")
    else
      let s :=
        set_audioRecord (Some {| initialized := recordInitialized env |})
          (call NewAudioRecord s) in
      if negb (recordInitialized env)
      then (s, Rejected "E_AUDIO_RECORD_INIT")
      else
        let s := call HwStartRecording s in
        let s := set_isRecording true s in
        let s := startRecordingLoop env s in
        (s, Resolved).

(** [AsyncFunction("stopRecording")]. *)
Definition stopRecordingCommand (env : Env) (s : State) : State * Outcome :=
  (stopRecording env s, Resolved).

(** *** The capture loop *)

(** The array after a read: the samples written replace the front. *)
Definition overwrite (buffer written : list Z) : list Z :=
  written ++ skipn (length written) buffer.

(** One turn of [while (isActive && isRecording)] in coroutine [j]: the
    test of the condition and, when it holds, one pass through the body,
    with nothing else happening in between ([loopTest], [loopRead] and
    [loopSend] below are the same turn step by step). *)
Definition loopIteration (hw : HwRead) (j : nat) (s : State) : State :=
  match nth_error (jobs s) j with
  | None => s
  | Some job =>
      if finished job then s
      else if negb (negb (cancelled job) && isRecording s) then
        set_jobs
          (replace_job j {| cancelled := cancelled job; finished := true;
                            buffer := buffer job |} (jobs s)) s
      else
        let '(result, buf) :=
          match audioRecord s with
          | Some _ => (readResult hw, overwrite (buffer job) (written hw))
          | None => (-1, buffer job)
          end in
        let s :=
          set_jobs
            (replace_job j {| cancelled := cancelled job; finished := false;
                              buffer := buf |} (jobs s)) s in
        if 0 <? result then
          match shortArrayToBase64 buf result, calculateRMS buf result with
          | Some base64Data, Some rms => call (SendEvent base64Data rms) s
          | _, _ =>
              set_jobs
                (replace_job j {| cancelled := cancelled job;
                                  finished := true; buffer := buf |}
                   (jobs s))
                (call UncaughtException s)
          end
        else s
  end.

(** The same turn in the three steps between which another thread can
    run: the test of the loop condition, the read, and the rest of the
    body.  [stopRecording] cancels the coroutine and does not wait for it. *)

(** [while (isActive && isRecording)]: whether the body is entered. *)
Definition loopTest (j : nat) (s : State) : State * bool :=
  match nth_error (jobs s) j with
  | None => (s, false)
  | Some job =>
      if finished job then (s, false)
      else if negb (negb (cancelled job) && isRecording s) then
        (set_jobs
           (replace_job j {| cancelled := cancelled job; finished := true;
                             buffer := buffer job |} (jobs s)) s,
         false)
      else (s, true)
  end.

(** [audioRecord?.read(buffer, 0, buffer.size) ?: -1]. *)
Definition loopRead (hw : HwRead) (j : nat) (s : State) : State * Z :=
  match nth_error (jobs s) j with
  | None => (s, -1)
  | Some job =>
      match audioRecord s with
      | Some _ =>
          (set_jobs
             (replace_job j {| cancelled := cancelled job;
                               finished := finished job;
                               buffer := overwrite (buffer job) (written hw) |}
                (jobs s)) s,
           readResult hw)
      | None => (s, -1)
      end
  end.

(** [if (readResult > 0) { ... sendEvent(...) }]. *)
Definition loopSend (j : nat) (result : Z) (s : State) : State :=
  match nth_error (jobs s) j with
  | None => s
  | Some job =>
      if 0 <? result then
        match shortArrayToBase64 (buffer job) result,
              calculateRMS (buffer job) result with
        | Some base64Data, Some rms => call (SendEvent base64Data rms) s
        | _, _ =>
            set_jobs
              (replace_job j {| cancelled := cancelled job;
                                finished := true; buffer := buffer job |}
                 (jobs s))
              (call UncaughtException s)
        end
      else s
  end.

(** *** Observations on a trace *)

Definition is_call (c d : Call) : bool :=
  match c, d with
  | StartForegroundService, StartForegroundService
  | StopService, StopService
  | WakeLockAcquire, WakeLockAcquire
  | WakeLockRelease, WakeLockRelease
  | RequestAudioFocus, RequestAudioFocus
  | AbandonAudioFocus, AbandonAudioFocus
  | NewAudioRecord, NewAudioRecord
  | HwStartRecording, HwStartRecording
  | HwStop, HwStop
  | HwRelease, HwRelease
  | UncaughtException, UncaughtException => true
  | _, _ => false
  end.

Definition count (c : Call) (t : list Call) : nat :=
  length (filter (is_call c) t).

Definition is_event (c : Call) : bool :=
  match c with SendEvent _ _ => true | _ => false end.

Definition events (t : list Call) : list Call := filter is_event t.

(** Coroutines that have been launched and have not left their loop. *)
Definition liveLoops (s : State) : nat :=
  length (filter (fun job => negb (finished job)) (jobs s)).

(** Coroutines whose next test of the loop condition succeeds. *)
Definition runningLoops (s : State) : nat :=
  if isRecording s
  then length (filter (fun job => negb (finished job) && negb (cancelled job))
                 (jobs s))
  else O.

(** Whether the next test of the loop condition in coroutine [j] holds. *)
Definition jobRunning (s : State) (j : nat) : bool :=
  match nth_error (jobs s) j with
  | Some job => negb (finished job) && negb (cancelled job) && isRecording s
  | None => false
  end.

(** Any interleaving of loop turns: each step names the coroutine that
    runs and what its read returns. *)
Definition runLoops (steps : list (HwRead * nat)) (s : State) : State :=
  fold_left (fun s step => loopIteration (fst step) (snd step) s) steps s.

(** A forced stop with a notification to the consumer: recording is off,
    the hardware handle is gone and the consumer has received something
    it had not received before. *)
Definition forcedStopNotified (before after : State) : Prop :=
  isRecording after = false /\
  audioRecord after = None /\
  (length (events (trace before)) < length (events (trace after)))%nat.

(** The keep-alive is held when the wake lock is held or the foreground
    service runs. *)
Definition keepAliveHeld (s : State) : bool :=
  match wakeLock s with Some true => true | _ => false end
  || foregroundService s.

End Android.

(** ** The iOS module (Swift) *)

Module Ios.

Inductive CommonFormat :=
| pcmFormatFloat32
| pcmFormatInt16
| pcmFormatOther.

(** [AVAudioFormat]; the sample rate is kept in Hz. *)
Record AVAudioFormat := {
  commonFormat : CommonFormat;
  sampleRate : Z;
  channelCount : Z;
  interleaved : bool
}.

(** The storage of the first channel of a buffer. *)
Inductive ChannelData :=
| FloatSamples (samples : list spec_float)
| Int16Samples (samples : list Z)
| OtherSamples.

(** [AVAudioPCMBuffer].  The storage holds [frameCapacity] samples, of
    which the first [frameLength] are valid. *)
Record AVAudioPCMBuffer := {
  format : AVAudioFormat;
  frameLength : nat;
  channelData : ChannelData
}.

Definition floatChannelData (b : AVAudioPCMBuffer)
  : option (list spec_float) :=
  match channelData b with FloatSamples l => Some l | _ => None end.

Definition int16ChannelData (b : AVAudioPCMBuffer) : option (list Z) :=
  match channelData b with Int16Samples l => Some l | _ => None end.

Definition SAMPLE_RATE : Z := 16000.
Definition CHANNEL_COUNT : Z := 1.

(** The format built twice in the source:
    [AVAudioFormat(commonFormat: .pcmFormatInt16, sampleRate: SAMPLE_RATE,
    channels: CHANNEL_COUNT, interleaved: true)]. *)
Definition targetFormat : AVAudioFormat :=
  {| commonFormat := pcmFormatInt16; sampleRate := SAMPLE_RATE;
     channelCount := CHANNEL_COUNT; interleaved := true |}.

Definition commonFormat_eqb (a b : CommonFormat) : bool :=
  match a, b with
  | pcmFormatFloat32, pcmFormatFloat32
  | pcmFormatInt16, pcmFormatInt16
  | pcmFormatOther, pcmFormatOther => true
  | _, _ => false
  end.

Definition format_eqb (a b : AVAudioFormat) : bool :=
  commonFormat_eqb (commonFormat a) (commonFormat b)
  && (sampleRate a =? sampleRate b)
  && (channelCount a =? channelCount b)
  && Bool.eqb (interleaved a) (interleaved b).

(** What happens inside [if buffer.format != targetFormat]: the converter
    cannot be built, the output buffer cannot be allocated, [convert]
    reports an error, or [convert] fills the output buffer. *)
Inductive Conversion :=
| NoConverter
| NoOutputBuffer
| ConvertError
| Converted (convertedBuffer : AVAudioPCMBuffer).

(** Result of an [AsyncFunction] body. *)
Inductive Outcome :=
| Resolved
| Rejected (code : string).

(** Calls into the platform, in the order they are made. *)
Inductive Call :=
| ConvertCall
| SendEvent (data : string) (amplitude : spec_float)
| SetActive
| AddObserver
| NewEngine
| InstallTap
| RemoveTap
| EngineStart
| EnginePause
| EngineStop.

(** Swift's generic [min] and [max] on [Comparable]. *)
Definition min (x y : spec_float) : spec_float :=
  if Fp.flt y x then y else x.
Definition max (x y : spec_float) : spec_float :=
  if Fp.fge y x then y else x.

(** [Float.clamped(to: lower...upper)]. *)
Definition clamped (x lower upper : spec_float) : spec_float :=
  min (max x lower) upper.

(** Step 0 of [processAudioBuffer] on one sample. *)
Definition gainSample (inputGain sample : spec_float) : spec_float :=
  let boosted := Fp.mul32 sample inputGain in
  max Fp.mone32 (min Fp.one32 boosted).

(** Step 0 of [processAudioBuffer]: the first [frameLength] samples of a
    float buffer are rewritten in place. *)
Definition applyGain (inputGain : spec_float) (b : AVAudioPCMBuffer)
  : AVAudioPCMBuffer :=
  match channelData b with
  | FloatSamples l =>
      {| format := format b; frameLength := frameLength b;
         channelData :=
           FloatSamples
             (map (gainSample inputGain) (firstn (frameLength b) l)
              ++ skipn (frameLength b) l) |}
  | _ => b
  end.

(** [calculateRMS(_:)]. *)
Definition calculateRMS (b : AVAudioPCMBuffer) : spec_float :=
  match int16ChannelData b with
  | None => Fp.pzero
  | Some l =>
      let sum :=
        fold_left
          (fun sum s =>
             let sample := Fp.Z2D s in Fp.add64 sum (Fp.mul64 sample sample))
          (firstn (frameLength b) l) Fp.pzero in
      let mean := Fp.div64 sum (Fp.Z2D (Z.of_nat (frameLength b))) in
      let rms := Fp.sqrt64 mean in
      clamped (Fp.toFloat (Fp.div64 rms (Fp.Z2D 32767))) Fp.pzero Fp.one32
  end.

(** The bytes [audioBufferToBase64] hands to the codec:
    [frameLength * 2] bytes of the little-endian [Int16] storage. *)
Definition audioBufferBytes (b : AVAudioPCMBuffer) : option (list Z) :=
  match int16ChannelData b with
  | None => None
  | Some l => Some (flat_map putShort (firstn (frameLength b) l))
  end.

(** [audioBufferToBase64(_:)]. *)
Definition audioBufferToBase64 (b : AVAudioPCMBuffer) : string :=
  match audioBufferBytes b with
  | None => EmptyString
  | Some bytes => Base64.encode bytes
  end.

Section Pipeline.

(** [AVAudioConverter] is a platform class: its outcome on the buffer
    it is given (and on the capacity computed from that buffer) is a
    parameter of the model. *)
Variable convert : AVAudioPCMBuffer -> Conversion.
(** Whether [AVAudioFormat(commonFormat:...)] returns a format. *)
Variable targetFormatAvailable : bool.

(** [processAudioBuffer(_:)]: the calls it makes for one block. *)
Definition processAudioBuffer (inputGain : spec_float)
    (buffer : AVAudioPCMBuffer) : list Call :=
  let buffer := applyGain inputGain buffer in
  if negb targetFormatAvailable then []
  else
    let '(finalBuffer, calls) :=
      if negb (format_eqb (format buffer) targetFormat) then
        match convert buffer with
        | NoConverter => (buffer, [])
        | NoOutputBuffer => (buffer, [])
        | ConvertError => (buffer, [ConvertCall])
        | Converted convertedBuffer => (convertedBuffer, [ConvertCall])
        end
      else (buffer, []) in
    let rms := calculateRMS finalBuffer in
    let base64Data := audioBufferToBase64 finalBuffer in
    calls ++ [SendEvent base64Data rms].

End Pipeline.

(** A block's conversion fails when the source format differs from the
    target and no converted buffer comes back. *)
Definition conversionFails (convert : AVAudioPCMBuffer -> Conversion)
    (buffer : AVAudioPCMBuffer) : bool :=
  negb (format_eqb (format buffer) targetFormat)
  && match convert buffer with Converted _ => false | _ => true end.

Definition is_event (c : Call) : bool :=
  match c with SendEvent _ _ => true | _ => false end.

Definition is_convert (c : Call) : bool :=
  match c with ConvertCall => true | _ => false end.

(** *** The commands *)

(** [audioEngine]: [Some running]. *)
Record State := {
  isRecording : bool;
  inputGain : spec_float;
  audioEngine : option bool;
  inputNode : bool;
  trace : list Call
}.

Record Env := {
  sessionThrows : bool;       (* setCategory / setActive throws *)
  formatAvailable : bool;     (* recordingFormat != nil *)
  engineStartThrows : bool    (* engine.start() throws *)
}.

Definition initial : State :=
  {| isRecording := false; inputGain := Fp.one32; audioEngine := None;
     inputNode := false; trace := [] |}.

Definition call (c : Call) (s : State) : State :=
  {| isRecording := isRecording s; inputGain := inputGain s;
     audioEngine := audioEngine s; inputNode := inputNode s;
     trace := trace s ++ [c] |}.

Definition set_isRecording (b : bool) (s : State) : State :=
  {| isRecording := b; inputGain := inputGain s;
     audioEngine := audioEngine s; inputNode := inputNode s;
     trace := trace s |}.

Definition set_engine (e : option bool) (node : bool) (s : State) : State :=
  {| isRecording := isRecording s; inputGain := inputGain s;
     audioEngine := e; inputNode := node; trace := trace s |}.

(** [Function("setInputGain")]. *)
Definition setInputGain (gain : spec_float) (s : State) : State :=
  {| isRecording := isRecording s; inputGain := gain;
     audioEngine := audioEngine s; inputNode := inputNode s;
     trace := trace s |}.

(** [configureAudioSession()]: [None] when it throws. *)
Definition configureAudioSession (env : Env) (s : State) : option State :=
  if sessionThrows env then None
  else Some (call AddObserver (call SetActive s)).

(** [startAudioEngine()]: the state it leaves and whether it threw. *)
Definition startAudioEngine (env : Env) (s : State) : State * bool :=
  let s := set_engine (Some false) true (call NewEngine s) in
  if negb (formatAvailable env) then (s, true)
  else
    let s := call InstallTap s in
    if engineStartThrows env then (s, true)
    else (set_engine (Some true) true (call EngineStart s), false).

(** [AsyncFunction("startRecording")]. *)
Definition startRecording (env : Env) (s : State) : State * Outcome :=
  if isRecording s then (s, Rejected "E_ALREADY_RECORDING")
  else
    match configureAudioSession env s with
    | None => (s, Rejected "E_START_RECORDING")
    | Some s =>
        let '(s, threw) := startAudioEngine env s in
        if threw then (s, Rejected "E_START_RECORDING")
        else (set_isRecording true s, Resolved)
    end.

(** [stopRecording()]. *)
Definition stopRecording (s : State) : State :=
  let s := set_isRecording false s in
  let s := match audioEngine s with
           | Some _ => call EngineStop s
           | None => s
           end in
  let s := if inputNode s then call RemoveTap s else s in
  set_engine None false s.

(** The interruption types [handleInterruption] tells apart: [.began],
    [.ended] with or without the [.shouldResume] option, and a
    notification it cannot read. *)
Inductive Interruption :=
| InterruptionBegan
| InterruptionEnded (shouldResume : bool)
| InterruptionUnreadable.

(** [handleInterruption(notification:)]; [restarts] is whether
    [try? audioEngine?.start()] succeeds. *)
Definition handleInterruption (restarts : bool) (i : Interruption)
    (s : State) : State :=
  match i, audioEngine s with
  | InterruptionBegan, Some _ =>
      set_engine (Some false) (inputNode s) (call EnginePause s)
  | InterruptionEnded true, Some running =>
      set_engine (Some (restarts || running)) (inputNode s)
        (call EngineStart s)
  | _, _ => s
  end.

Definition is_call (c d : Call) : bool :=
  match c, d with
  | ConvertCall, ConvertCall
  | SetActive, SetActive
  | AddObserver, AddObserver
  | NewEngine, NewEngine
  | InstallTap, InstallTap
  | RemoveTap, RemoveTap
  | EngineStart, EngineStart
  | EnginePause, EnginePause
  | EngineStop, EngineStop => true
  | _, _ => false
  end.

Definition count (c : Call) (t : list Call) : nat :=
  length (filter (is_call c) t).

End Ios.

(** ** The loudness in the words of the spec *)

Module Loudness.

Definition sumSquares (samples : list Z) : Z :=
  fold_right (fun sample acc => sample * sample + acc) 0 samples.

(** [clamp(sqrt(mean(sample_i^2)) / 32767, 0.0, 1.0)]: the sum of the
    squares is the exact integer; the mean, the square root and the
    quotient are the correctly rounded [Double] operations; the result is
    narrowed to [Float], the type of the amplitude. *)
Definition amplitude (samples : list Z) : spec_float :=
  let mean :=
    Fp.div64 (Fp.Z2D (sumSquares samples))
      (Fp.Z2D (Z.of_nat (length samples))) in
  Fp.clamp (Fp.toFloat (Fp.div64 (Fp.sqrt64 mean) (Fp.Z2D 32767)))
    Fp.pzero Fp.one32.

End Loudness.

(** ** Quantisation to the canonical format *)

Module GainStage.



End GainStage.

Module Converter.




End Converter.

(** ** Inputs used in examples *)

Module Examples.

(** A platform on which every step of [startRecording] succeeds. *)
Definition granted : Android.Env :=
  {| Android.BUFFER_SIZE := 1280; Android.sdkAtLeastO := true;
     Android.reactContext := true; Android.permissionGranted := true;
     Android.focusGranted := true; Android.constructorThrows := false;
     Android.recordInitialized := true |}.

(** The Android module after a first successful [startRecording]. *)
Definition recording : Android.State :=
  fst (Android.startRecording granted Android.initial).

(** The platform refuses audio focus. *)
Definition focusDenied : Android.Env :=
  {| Android.BUFFER_SIZE := 1280; Android.sdkAtLeastO := true;
     Android.reactContext := true; Android.permissionGranted := true;
     Android.focusGranted := false; Android.constructorThrows := false;
     Android.recordInitialized := true |}.

(** The new [AudioRecord] is not in [STATE_INITIALIZED]. *)
Definition initFails : Android.Env :=
  {| Android.BUFFER_SIZE := 1280; Android.sdkAtLeastO := true;
     Android.reactContext := true; Android.permissionGranted := true;
     Android.focusGranted := true; Android.constructorThrows := false;
     Android.recordInitialized := false |}.

(** A read that fails with [AudioRecord.ERROR]. *)
Definition failedRead : Android.HwRead :=
  {| Android.readResult := -1; Android.written := [] |}.


(** A converter whose [convert] call always reports an error. *)
Definition failingConverter (b : Ios.AVAudioPCMBuffer) : Ios.Conversion :=
  Ios.ConvertError.

(** A two-frame block in a hardware format: 48 kHz, mono, Float32. *)
Definition floatBlock : Ios.AVAudioPCMBuffer :=
  {| Ios.format :=
       {| Ios.commonFormat := Ios.pcmFormatFloat32; Ios.sampleRate := 48000;
          Ios.channelCount := 1; Ios.interleaved := false |};
     Ios.frameLength := 2;
     Ios.channelData := Ios.FloatSamples [Fp.half32; Fp.half32] |}.

(** A block of the canonical format with no frames in it. *)
Definition emptyBlock : Ios.AVAudioPCMBuffer :=
  {| Ios.format := Ios.targetFormat; Ios.frameLength := 0;
     Ios.channelData := Ios.Int16Samples [] |}.

Definition iosGranted : Ios.Env :=
  {| Ios.sessionThrows := false; Ios.formatAvailable := true;
     Ios.engineStartThrows := false |}.

Definition iosRecording : Ios.State :=
  fst (Ios.startRecording iosGranted Ios.initial).

End Examples.

(** ** Sessions of the Android module *)

Module AndroidSession.

(** What can happen to the module object: the two commands ([OnDestroy]
    runs [stopRecording] too), a focus change from the platform, and a
    turn of one of the capture loops. *)
Inductive Action :=
| Start (env : Android.Env)
| Stop (env : Android.Env)
| Focus (env : Android.Env) (focusChange : Android.FocusChange)
| Turn (hw : Android.HwRead) (job : nat).

Definition step (a : Action) (s : Android.State) : Android.State :=
  match a with
  | Start env => fst (Android.startRecording env s)
  | Stop env => fst (Android.stopRecordingCommand env s)
  | Focus env focusChange => Android.deliverFocusChange env focusChange s
  | Turn hw job => Android.loopIteration hw job s
  end.

Definition run (actions : list Action) (s : Android.State) : Android.State :=
  fold_left (fun s a => step a s) actions s.


Definition heldCount (s : Android.State) : nat :=
  match Android.wakeLock s with Some true => 1 | _ => 0 end.

(** The handles in the field: one or none. *)
Definition handleCount (s : Android.State) : nat :=
  match Android.audioRecord s with Some _ => 1 | None => 0 end.

(** No resource is given back more often than it was taken. *)
Definition accounted (s : Android.State) : Prop :=
  let t := Android.trace s in
  (Android.count Android.WakeLockRelease t + heldCount s
   <= Android.count Android.WakeLockAcquire t)%nat /\
  (Android.count Android.HwRelease t <= Android.count Android.HwStop t)%nat /\
  (Android.count Android.HwStop t + handleCount s
   <= Android.count Android.NewAudioRecord t)%nat.

(** Idle: not recording, no hardware handle, no wake lock. *)
Definition idle (s : Android.State) : Prop :=
  Android.isRecording s = false /\
  Android.audioRecord s = None /\
  Android.wakeLock s = None.

End AndroidSession.

(** ** Sessions with the capture loops taken step by step *)

Module AndroidLoop.

(** Where a capture loop stands: before the test of its condition, past
    the test and before the read, or past the read with its result. *)
Inductive Phase :=
| AtTest
| AtRead
| AtSend (readResult : Z).

(** The module object and where each coroutine stands (the first entry
    for a coroutine counts; a coroutine without entry is at its test). *)
Record Fine := {
  android : Android.State;
  phases : list (nat * Phase)
}.

Fixpoint phaseOf (j : nat) (ps : list (nat * Phase)) : Phase :=
  match ps with
  | [] => AtTest
  | (k, p) :: rest => if Nat.eqb k j then p else phaseOf j rest
  end.



Definition initial : Fine := {| android := Android.initial; phases := [] |}.

(** What can happen: the two commands, a focus change, the end of the
    wake lock's ten minutes, and the next step of one capture loop
    ([hw] is what its read returns, should the step be the read). *)
Inductive Action :=
| Start (env : Android.Env)
| Stop (env : Android.Env)
| Focus (env : Android.Env) (focusChange : Android.FocusChange)
| Timeout
| Step (hw : Android.HwRead) (job : nat).

Definition on (g : Android.State -> Android.State) (f : Fine) : Fine :=
  {| android := g (android f); phases := phases f |}.

(** The next step of coroutine [j]. *)
Definition advance (hw : Android.HwRead) (j : nat) (f : Fine) : Fine :=
  match phaseOf j (phases f) with
  | AtTest =>
      let '(s, entered) := Android.loopTest j (android f) in
      {| android := s;
         phases := if entered then (j, AtRead) :: phases f else phases f |}
  | AtRead =>
      let '(s, readResult) := Android.loopRead hw j (android f) in
      {| android := s; phases := (j, AtSend readResult) :: phases f |}
  | AtSend readResult =>
      {| android := Android.loopSend j readResult (android f);
         phases := (j, AtTest) :: phases f |}
  end.

Definition step (a : Action) (f : Fine) : Fine :=
  match a with
  | Start env => on (fun s => fst (Android.startRecording env s)) f
  | Stop env => on (fun s => fst (Android.stopRecordingCommand env s)) f
  | Focus env focusChange =>
      on (Android.deliverFocusChange env focusChange) f
  | Timeout => on Android.wakeLockTimeout f
  | Step hw job => advance hw job f
  end.

Definition run (actions : list Action) (f : Fine) : Fine :=
  fold_left (fun f a => step a f) actions f.


Definition isTimeout (a : Action) : bool :=
  match a with Timeout => true | _ => false end.

Definition isLoopOrTimeout (a : Action) : bool :=
  match a with Timeout | Step _ _ => true | _ => false end.



Definition timedOut (actions : list Action) : bool :=
  existsb isTimeout actions.

Definition onlyLoops (actions : list Action) : bool :=
  forallb isLoopOrTimeout actions.

(** Recording needs a handle in the field, an initialised one as long as
    no exception has escaped; a handle in the field has a wake lock
    object beside it and the foreground service started. *)
Definition kept (s : Android.State) : Prop :=
  (Android.isRecording s = true -> Android.audioRecord s <> None) /\
  (Android.audioRecord s <> None ->
   Android.wakeLock s <> None /\ Android.foregroundService s = true) /\
  (Android.isRecording s = true ->
   Android.count Android.UncaughtException (Android.trace s) = O ->
   Android.audioRecord s = Some {| Android.initialized := true |}).

(** A handle in the field has a wake lock beside it that is held. *)
Definition held (s : Android.State) : Prop :=
  Android.audioRecord s <> None -> Android.wakeLock s = Some true.




(** What a step of a loop may add to the trace. *)
Definition loopCalls (extra : list Android.Call) : Prop :=
  extra = [] \/ (exists d a, extra = [Android.SendEvent d a]) \/
  extra = [Android.UncaughtException].

(** What a step of a loop leaves alone: every field but the coroutine
    table, whose size it keeps, and the trace, which it may extend. *)
Definition loopFrame (s s' : Android.State) : Prop :=
  Android.isRecording s' = Android.isRecording s /\
  Android.recordingJob s' = Android.recordingJob s /\
  Android.audioRecord s' = Android.audioRecord s /\
  Android.wakeLock s' = Android.wakeLock s /\
  Android.audioFocusRequest s' = Android.audioFocusRequest s /\
  Android.focusListener s' = Android.focusListener s /\
  Android.foregroundService s' = Android.foregroundService s /\
  length (Android.jobs s') = length (Android.jobs s) /\
  exists extra,
    Android.trace s' = Android.trace s ++ extra /\ loopCalls extra.

End AndroidLoop.

(** ** Sessions of the iOS module *)

Module IosSession.

(** [requestPermissions]: the answer for each value of
    [session.recordPermission]; for [.undetermined] the user is asked. *)
Inductive RecordPermission :=
| granted
| denied
| undetermined (userGrants : bool)
| unknownPermission.

Definition requestPermissions (p : RecordPermission) : string :=
  match p with
  | granted => "GRANTED"
  | denied => "DENIED"
  | undetermined userGrants => if userGrants then "GRANTED" else "DENIED"
  | unknownPermission => "DENIED"
  end.

Inductive Action :=
| Start (env : Ios.Env)
| Stop
| Interrupt (restarts : bool) (i : Ios.Interruption)
| SetInputGain (gain : spec_float).

Definition step (a : Action) (s : Ios.State) : Ios.State :=
  match a with
  | Start env => fst (Ios.startRecording env s)
  | Stop => Ios.stopRecording s
  | Interrupt restarts i => Ios.handleInterruption restarts i s
  | SetInputGain gain => Ios.setInputGain gain s
  end.

Definition run (actions : list Action) (s : Ios.State) : Ios.State :=
  fold_left (fun s a => step a s) actions s.

(** The engines the module keeps: one or none. *)
Definition engineCount (s : Ios.State) : nat :=
  match Ios.audioEngine s with Some _ => 1 | None => 0 end.

(** While recording there is an engine; the input node is kept exactly
    when there is an engine; no engine is stopped that was not created. *)
Definition kept (s : Ios.State) : Prop :=
  (Ios.isRecording s = true -> Ios.audioEngine s <> None) /\
  (Ios.inputNode s = true <-> Ios.audioEngine s <> None) /\
  (Ios.count Ios.EngineStop (Ios.trace s) + engineCount s
   <= Ios.count Ios.NewEngine (Ios.trace s))%nat.

End IosSession.

(** ** The application (the screen with the gain controls) *)

Module App.

Definition MAX_SAMPLES : nat := 50.

(** Number literals of the screen, as [Double]s. *)
Definition lit_0_1 : spec_float := S754_finite false 7205759403792794 (-56).
Definition lit_0_5 : spec_float := S754_finite false 4503599627370496 (-53).
Definition lit_1 : spec_float := Fp.Z2D 1.
Definition lit_10 : spec_float := Fp.Z2D 10.

Definition is_negative_zero (x : spec_float) : bool :=
  match x with S754_zero true => true | _ => false end.

(** [Math.max] and [Math.min] on two numbers: NaN if either is NaN,
    and [+0] counts as larger than [-0]. *)
Definition Math_max (a b : spec_float) : spec_float :=
  if Fp.is_nan a || Fp.is_nan b then S754_nan
  else if Fp.flt a b then b
  else if Fp.flt b a then a
  else if is_negative_zero a then b else a.

Definition Math_min (a b : spec_float) : spec_float :=
  if Fp.is_nan a || Fp.is_nan b then S754_nan
  else if Fp.flt a b then a
  else if Fp.flt b a then b
  else if is_negative_zero a then a else b.

(** A [Float] amplitude seen as a JavaScript number. *)
Definition toDouble (x : spec_float) : spec_float :=
  match x with
  | S754_finite s m e => binary_round Fp.prec64 Fp.emax64 s m e
  | _ => x
  end.

(** [newData = [...data]; newData.shift(); newData.push(amplitude)]. *)
Definition pushAmplitude {A : Type} (data : list A) (amplitude : A) : list A :=
  tl data ++ [amplitude].

(** The state of [App]: its [useState] and [useSharedValue] cells, the
    alerts shown, and the native module it drives.  A rejected promise is
    kept in [error] by its code. *)
Record State := {
  isRecording : bool;
  error : option string;
  gain : spec_float;
  currentAmplitude : spec_float;
  visualizerData : list spec_float;
  alerts : nat;
  native : Ios.State
}.

Definition initial : State :=
  {| isRecording := false; error := None; gain := lit_1;
     currentAmplitude := Fp.pzero;
     visualizerData := repeat Fp.pzero MAX_SAMPLES;
     alerts := O; native := Ios.initial |}.

(** The listener registered with [addAudioListener]. *)
Definition listener (amplitude : spec_float) (app : State) : State :=
  {| isRecording := isRecording app; error := error app; gain := gain app;
     currentAmplitude := amplitude;
     visualizerData := pushAmplitude (visualizerData app) amplitude;
     alerts := alerts app; native := native app |}.

(** [adjustGain(delta)]. *)
Definition adjustGain (delta : spec_float) (app : State) : State :=
  let newGain :=
    Math_max lit_0_1 (Math_min lit_10 (Fp.add64 (gain app) delta)) in
  {| isRecording := isRecording app; error := error app; gain := newGain;
     currentAmplitude := currentAmplitude app;
     visualizerData := visualizerData app;
     alerts := alerts app;
     native := Ios.setInputGain (Fp.toFloat newGain) (native app) |}.

(** [handleToggleRecording()], read as one step: a press whose handler
    runs to its end before anything else happens ([Presses] below takes
    the handler await by await). *)
Definition handleToggleRecording (permission : IosSession.RecordPermission)
    (env : Ios.Env) (app : State) : State :=
  if isRecording app then
    {| isRecording := false; error := None; gain := gain app;
       currentAmplitude := Fp.pzero;
       visualizerData := repeat Fp.pzero MAX_SAMPLES;
       alerts := alerts app; native := Ios.stopRecording (native app) |}
  else
    let status := IosSession.requestPermissions permission in
    if String.eqb status "DENIED" then
      {| isRecording := false; error := None; gain := gain app;
         currentAmplitude := currentAmplitude app;
         visualizerData := visualizerData app;
         alerts := S (alerts app); native := native app |}
    else if String.eqb status "REQUESTED" then
      {| isRecording := false; error := None; gain := gain app;
         currentAmplitude := currentAmplitude app;
         visualizerData := visualizerData app;
         alerts := alerts app; native := native app |}
    else
      match Ios.startRecording env (native app) with
      | (native', Ios.Resolved) =>
          {| isRecording := true; error := None; gain := gain app;
             currentAmplitude := currentAmplitude app;
             visualizerData := visualizerData app;
             alerts := alerts app; native := native' |}
      | (native', Ios.Rejected code) =>
          {| isRecording := false; error := Some code; gain := gain app;
             currentAmplitude := currentAmplitude app;
             visualizerData := visualizerData app;
             alerts := alerts app; native := native' |}
      end.

Section Blocks.

Variable convert : Ios.AVAudioPCMBuffer -> Ios.Conversion.

(** A block arrives at the tap of a running engine: [processAudioBuffer]
    runs with the current gain and each event it sends reaches the
    listener. *)
Definition tapBlock (buffer : Ios.AVAudioPCMBuffer) (app : State) : State :=
  match Ios.audioEngine (native app) with
  | Some true =>
      fold_left
        (fun app c =>
           match c with
           | Ios.SendEvent data amplitude => listener (toDouble amplitude) app
           | _ => app
           end)
        (Ios.processAudioBuffer convert true (Ios.inputGain (native app))
           buffer)
        app
  | _ => app
  end.

Inductive Action :=
| Toggle (permission : IosSession.RecordPermission) (env : Ios.Env)
| AdjustGain (increase : bool)
| Block (buffer : Ios.AVAudioPCMBuffer)
| Interrupt (restarts : bool) (i : Ios.Interruption).

Definition set_native (n : Ios.State) (app : State) : State :=
  {| isRecording := isRecording app; error := error app; gain := gain app;
     currentAmplitude := currentAmplitude app;
     visualizerData := visualizerData app;
     alerts := alerts app; native := n |}.

(** The two gain buttons call [adjustGain(0.5)] and [adjustGain(-0.5)]. *)
Definition step (a : Action) (app : State) : State :=
  match a with
  | Toggle permission env => handleToggleRecording permission env app
  | AdjustGain increase =>
      adjustGain (if increase then lit_0_5 else SFopp lit_0_5) app
  | Block buffer => tapBlock buffer app
  | Interrupt restarts i =>
      set_native (Ios.handleInterruption restarts i (native app)) app
  end.

Definition run (actions : list Action) (app : State) : State :=
  fold_left (fun app a => step a app) actions app.

End Blocks.

(** The gain the screen allows: from [0.1] to [10.0]. *)
Definition gainInRange (g : spec_float) : Prop :=
  Fp.fle lit_0_1 g = true /\ Fp.fle g lit_10 = true.

(** What the screen keeps true: its recording flag is the module's, the
    history has [MAX_SAMPLES] entries, and the gain is in range and is the
    one the module uses. *)
Definition consistent (app : State) : Prop :=
  isRecording app = Ios.isRecording (native app) /\
  length (visualizerData app) = MAX_SAMPLES /\
  gainInRange (gain app) /\
  Ios.inputGain (native app) = Fp.toFloat (gain app).

End App.

(** ** The record button, await by await *)

Module Presses.

(** Where one call of [handleToggleRecording] stands.  The handler is
    asynchronous: it reads the [isRecording] of the render it was made
    in, taken here to be the state when the button is pressed, and gives
    way at each [await] until the module has answered. *)
Inductive Handler :=
| StopRequested                     (* [stopRecordingAsync()] is on its way *)
| StopAnswered                      (* its promise has resolved *)
| PermissionRequested               (* [requestPermissionsAsync()] is on its way *)
| PermissionAnswered (status : string)
| StartRequested                    (* [startRecordingAsync()] is on its way *)
| StartAnswered (outcome : Ios.Outcome)
| Finished.

(** The screen and the calls of the handler made so far, oldest first. *)
Record Screen := {
  app : App.State;
  handlers : list Handler
}.

Definition initial : Screen := {| app := App.initial; handlers := [] |}.

Definition isFinished (h : Handler) : bool :=
  match h with Finished => true | _ => false end.

Definition allFinished (hs : list Handler) : bool := forallb isFinished hs.

(** Replaces the handler at index [k]; out of range nothing changes. *)
Fixpoint replaceAt (k : nat) (h : Handler) (hs : list Handler)
  : list Handler :=
  match hs, k with
  | [] , _ => []
  | _ :: tl, O => h :: tl
  | hd :: tl, S k' => hd :: replaceAt k' h tl
  end.

Definition set_error (e : option string) (a : App.State) : App.State :=
  {| App.isRecording := App.isRecording a; App.error := e;
     App.gain := App.gain a; App.currentAmplitude := App.currentAmplitude a;
     App.visualizerData := App.visualizerData a;
     App.alerts := App.alerts a; App.native := App.native a |}.

Definition set_isRecording (b : bool) (a : App.State) : App.State :=
  {| App.isRecording := b; App.error := App.error a;
     App.gain := App.gain a; App.currentAmplitude := App.currentAmplitude a;
     App.visualizerData := App.visualizerData a;
     App.alerts := App.alerts a; App.native := App.native a |}.

Definition alert (a : App.State) : App.State :=
  {| App.isRecording := App.isRecording a; App.error := App.error a;
     App.gain := App.gain a; App.currentAmplitude := App.currentAmplitude a;
     App.visualizerData := App.visualizerData a;
     App.alerts := S (App.alerts a); App.native := App.native a |}.

(** [currentAmplitude.value = withTiming(0);
    visualizerData.value = new Array(MAX_SAMPLES).fill(0)]. *)
Definition resetMeter (a : App.State) : App.State :=
  {| App.isRecording := App.isRecording a; App.error := App.error a;
     App.gain := App.gain a; App.currentAmplitude := Fp.pzero;
     App.visualizerData := repeat Fp.pzero App.MAX_SAMPLES;
     App.alerts := App.alerts a; App.native := App.native a |}.

(** The button is pressed: [setError(null)], the test of [isRecording]
    and the first call into the module. *)
Definition press (scr : Screen) : Screen :=
  {| app := set_error None (app scr);
     handlers :=
       handlers scr
       ++ [if App.isRecording (app scr) then StopRequested
           else PermissionRequested] |}.

(** The module runs the call that handler [k] is waiting for;
    [permission] and [env] are what the platform answers. *)
Definition answer (k : nat) (permission : IosSession.RecordPermission)
    (env : Ios.Env) (scr : Screen) : Screen :=
  match nth_error (handlers scr) k with
  | Some StopRequested =>
      {| app := App.set_native (Ios.stopRecording (App.native (app scr)))
                  (app scr);
         handlers := replaceAt k StopAnswered (handlers scr) |}
  | Some PermissionRequested =>
      {| app := app scr;
         handlers :=
           replaceAt k
             (PermissionAnswered (IosSession.requestPermissions permission))
             (handlers scr) |}
  | Some StartRequested =>
      let '(native', outcome) :=
        Ios.startRecording env (App.native (app scr)) in
      {| app := App.set_native native' (app scr);
         handlers := replaceAt k (StartAnswered outcome) (handlers scr) |}
  | _ => scr
  end.

(** Handler [k] goes on after its [await], up to its next [await] or to
    its end; a rejected promise goes on in the [catch] block. *)
Definition resume (k : nat) (scr : Screen) : Screen :=
  match nth_error (handlers scr) k with
  | Some StopAnswered =>
      {| app := resetMeter (set_isRecording false (app scr));
         handlers := replaceAt k Finished (handlers scr) |}
  | Some (PermissionAnswered status) =>
      if String.eqb status "DENIED" then
        {| app := alert (app scr);
           handlers := replaceAt k Finished (handlers scr) |}
      else if String.eqb status "REQUESTED" then
        {| app := app scr; handlers := replaceAt k Finished (handlers scr) |}
      else
        {| app := app scr;
           handlers := replaceAt k StartRequested (handlers scr) |}
  | Some (StartAnswered Ios.Resolved) =>
      {| app := set_isRecording true (app scr);
         handlers := replaceAt k Finished (handlers scr) |}
  | Some (StartAnswered (Ios.Rejected code)) =>
      {| app := set_isRecording false (set_error (Some code) (app scr));
         handlers := replaceAt k Finished (handlers scr) |}
  | _ => scr
  end.

Section Blocks.

Variable convert : Ios.AVAudioPCMBuffer -> Ios.Conversion.

Inductive Action :=
| Press
| Answer (handler : nat) (permission : IosSession.RecordPermission)
    (env : Ios.Env)
| Resume (handler : nat)
| AdjustGain (increase : bool)
| Block (buffer : Ios.AVAudioPCMBuffer)
| Interrupt (restarts : bool) (i : Ios.Interruption).

Definition onApp (g : App.State -> App.State) (scr : Screen) : Screen :=
  {| app := g (app scr); handlers := handlers scr |}.

Definition step (a : Action) (scr : Screen) : Screen :=
  match a with
  | Press => press scr
  | Answer k permission env => answer k permission env scr
  | Resume k => resume k scr
  | AdjustGain increase =>
      onApp (App.step convert (App.AdjustGain increase)) scr
  | Block buffer => onApp (App.step convert (App.Block buffer)) scr
  | Interrupt restarts i =>
      onApp (App.step convert (App.Interrupt restarts i)) scr
  end.

Definition run (actions : list Action) (scr : Screen) : Screen :=
  fold_left (fun scr a => step a scr) actions scr.

(** No press while a handler is still under way. *)
Fixpoint orderly (actions : list Action) (scr : Screen) : bool :=
  match actions with
  | [] => true
  | a :: rest =>
      match a with
      | Press => allFinished (handlers scr)
      | _ => true
      end && orderly rest (step a scr)
  end.

(** One press taken to its end before anything else happens. *)
Definition wholePress (k : nat) (permission : IosSession.RecordPermission)
    (env : Ios.Env) : list Action :=
  [Press; Answer k permission env; Resume k; Answer k permission env;
   Resume k].

(** Two presses, the second made before the first handler has gone on
    after its first [await]. *)
Definition twoPresses (k : nat)
    (permission1 permission2 : IosSession.RecordPermission)
    (env1 env2 : Ios.Env) : list Action :=
  [Press; Press;
   Answer k permission1 env1; Answer (S k) permission2 env2;
   Resume k; Resume (S k);
   Answer k permission1 env1; Answer (S k) permission2 env2;
   Resume k; Resume (S k)].

End Blocks.

(** What the flag of the screen and the flag of the module are to each
    other while a handler stands at [h]. *)
Definition agrees (h : Handler) (screen module : bool) : bool :=
  match h with
  | StopRequested => screen && module
  | StopAnswered => negb module
  | PermissionRequested | PermissionAnswered _ | StartRequested =>
      negb screen && negb module
  | StartAnswered Ios.Resolved => module
  | StartAnswered (Ios.Rejected _) => negb module
  | Finished => Bool.eqb screen module
  end.

(** At most the newest handler is under way, and the two flags are to
    each other what its place says. *)
Definition inStep (scr : Screen) : Prop :=
  let screen := App.isRecording (app scr) in
  let module := Ios.isRecording (App.native (app scr)) in
  (handlers scr = [] /\ screen = module) \/
  (exists earlier h,
      handlers scr = earlier ++ [h] /\
      allFinished earlier = true /\
      agrees h screen module = true).

End Presses.

(** ** The transcript of the live screen *)

Module Transcript.

(** [setTranscription(prev => prev + (prev ? " " : "") + e.data)]. *)
Definition onmessage (prev data : string) : string :=
  (prev ++ (if String.eqb prev "" then "" else " ") ++ data)%string.

Definition is_empty (s : string) : bool := String.eqb s "".

(** The messages after the leading empty ones. *)
Fixpoint dropEmpty (messages : list string) : list string :=
  match messages with
  | [] => []
  | m :: rest => if is_empty m then dropEmpty rest else messages
  end.

End Transcript.

(** * Properties *)

(** ** The model at work *)

(** The platform calls of a session that starts, reads two samples and is
    stopped. *)
Example session_trace :
  Android.trace
    (Android.stopRecording Examples.granted
       (Android.loopIteration
          {| Android.readResult := 2; Android.written := [1; -2] |} 0
          Examples.recording))
  = [Android.StartForegroundService; Android.WakeLockAcquire;
     Android.RequestAudioFocus; Android.NewAudioRecord;
     Android.HwStartRecording; Android.LaunchLoop 0;
     Android.SendEvent "AQD+/w==" (S754_finite false 13263959 (-38));
     Android.CancelJob 0; Android.HwStop; Android.HwRelease;
     Android.WakeLockRelease; Android.StopService;
     Android.AbandonAudioFocus].
Proof. vm_compute. reflexivity. Qed.

(** The codec on the test vectors of RFC 4648. *)
Example base64_vectors :
  Base64.encode [102] = "Zg=="%string /\
  Base64.encode [102; 111] = "Zm8="%string /\
  Base64.encode [102; 111; 111] = "Zm9v"%string /\
  Base64.encode [102; 111; 111; 98; 97; 114] = "Zm9vYmFy"%string /\
  Base64.decode "Zm9vYmE=" = Some [102; 111; 111; 98; 97] /\
  Base64.decode "Zm9=YmE=" = None.
Proof. vm_compute. repeat split; reflexivity. Qed.

(** A negative sample in little-endian two's complement. *)
Example putShort_negative : putShort (-2) = [254; 255].
Proof. reflexivity. Qed.

(** One tenth as [Double] and as [Float]: the bit patterns
    [0x3FB999999999999A] and [0x3DCCCCCD]. *)
Example one_tenth :
  Fp.div64 (Fp.Z2D 1) (Fp.Z2D 10)
  = S754_finite false 7205759403792794 (-56) /\
  Fp.toFloat (Fp.div64 (Fp.Z2D 1) (Fp.Z2D 10))
  = S754_finite false 13421773 (-27).
Proof. vm_compute. split; reflexivity. Qed.

(** ** Commands of the Android module *)

Section AndroidCommands.

Import Android.

Lemma count_app (c : Call) (t u : list Call) :
  count c (t ++ u) = (count c t + count c u)%nat.
Proof.
  unfold count. now rewrite filter_app, length_app.
Qed.

Lemma startRecording_rejects_when_recording (env : Env) (s : State) :
  isRecording s = true ->
  startRecording env s = (s, Rejected "E_ALREADY_RECORDING").
Proof.
  intros H. unfold startRecording. now rewrite H.
Qed.

Lemma startRecording_resolved_recording (env : Env) (s s' : State) :
  startRecording env s = (s', Resolved) -> isRecording s' = true.
Proof.
  unfold startRecording.
  destruct (isRecording s); [discriminate|].
  destruct (reactContext env); [|discriminate].
  destruct (permissionGranted env); [|discriminate].
  cbn [negb requestAudioFocus].
  destruct (focusGranted env); [|discriminate].
  destruct (constructorThrows env); [discriminate|].
  destruct (recordInitialized env); [|discriminate].
  cbn. intros H. inversion H. reflexivity.
Qed.

(** The state a resolved [startRecording] returns. *)
Lemma startRecording_resolved_state (env : Env) (s s' : State) :
  startRecording env s = (s', Resolved) ->
  (isRecording s = false /\ reactContext env = true /\
   permissionGranted env = true /\ focusGranted env = true /\
   constructorThrows env = false /\ recordInitialized env = true) /\
  s' = startRecordingLoop env
         (set_isRecording true
            (call HwStartRecording
               (set_audioRecord (Some {| initialized := true |})
                  (call NewAudioRecord
                     (fst (requestAudioFocus env
                             (acquireWakeLock
                                (startForegroundService s)))))))).
Proof.
  unfold startRecording.
  destruct (isRecording s); [discriminate|].
  destruct (reactContext env); [|discriminate].
  destruct (permissionGranted env); [|discriminate].
  cbn [negb]. unfold requestAudioFocus.
  destruct (focusGranted env); [|discriminate].
  destruct (constructorThrows env); [discriminate|].
  destruct (recordInitialized env); [|discriminate].
  cbn [negb fst]. intros H. inversion H. auto 10.
Qed.

End AndroidCommands.

Lemma ios_startRecording_rejects_when_recording
    (env : Ios.Env) (s : Ios.State) :
  Ios.isRecording s = true ->
  Ios.startRecording env s = (s, Ios.Rejected "E_ALREADY_RECORDING").
Proof.
  intros H. unfold Ios.startRecording. now rewrite H.
Qed.

Lemma ios_startRecording_resolved_recording
    (env : Ios.Env) (s s' : Ios.State) :
  Ios.startRecording env s = (s', Ios.Resolved) -> Ios.isRecording s' = true.
Proof.
  unfold Ios.startRecording.
  destruct (Ios.isRecording s); [discriminate|].
  destruct (Ios.configureAudioSession env s) as [s1|]; [|discriminate].
  destruct (Ios.startAudioEngine env s1) as [s2 threw].
  destruct threw; [discriminate|].
  intros H. inversion H. reflexivity.
Qed.

(** A second [startRecording] on the state a resolved one returned is
    rejected with the already-recording code and returns that state
    exactly as it found it, in the Android module and in the iOS module. *)
Lemma start_again_while_recording :
  (forall (env1 env2 : Android.Env) (s s1 : Android.State),
      Android.startRecording env1 s = (s1, Android.Resolved) ->
      Android.isRecording s1 = true /\
      Android.startRecording env2 s1
      = (s1, Android.Rejected "E_ALREADY_RECORDING")) /\
  (forall (env1 env2 : Ios.Env) (s s1 : Ios.State),
      Ios.startRecording env1 s = (s1, Ios.Resolved) ->
      Ios.isRecording s1 = true /\
      Ios.startRecording env2 s1 = (s1, Ios.Rejected "E_ALREADY_RECORDING")).
Proof.
  split; intros env1 env2 s s1 H.
  - pose proof (startRecording_resolved_recording _ _ _ H) as R.
    split; [exact R|]. now apply startRecording_rejects_when_recording.
  - pose proof (ios_startRecording_resolved_recording _ _ _ H) as R.
    split; [exact R|]. now apply ios_startRecording_rejects_when_recording.
Qed.

(** ** Keep-alive on the failure paths of [startRecording] *)

(** [stopRecording] gives the keep-alive back: afterwards the wake lock is
    not held, the foreground service is stopped, the module is not
    recording and has no hardware handle. *)
Lemma stopRecording_releases (env : Android.Env) (s : Android.State) :
  Android.reactContext env = true ->
  let s' := Android.stopRecording env s in
  Android.keepAliveHeld s' = false /\
  Android.isRecording s' = false /\
  Android.audioRecord s' = None.
Proof.
  intros C. destruct s as [rec job ar wl req lis fgs js tr].
  unfold Android.stopRecording, Android.abandonAudioFocus,
    Android.stopForegroundService, Android.keepAliveHeld,
    Android.releaseWakeLock.
  rewrite C. cbn.
  destruct job as [j|]; [destruct (nth_error js j)|];
    destruct ar as [[[]]|]; destruct wl as [[]|];
    destruct (Android.sdkAtLeastO env); destruct req; cbn; auto.
Qed.

(** From any idle state, a refused focus request ends [startRecording]
    with the keep-alive acquired and nothing released. *)
Lemma focus_denied_leaves_keepalive (env : Android.Env) (s : Android.State) :
  Android.isRecording s = false ->
  Android.reactContext env = true ->
  Android.permissionGranted env = true ->
  Android.focusGranted env = false ->
  let '(s', outcome) := Android.startRecording env s in
  outcome = Android.Rejected "E_AUDIO_FOCUS" /\
  Android.isRecording s' = false /\
  Android.keepAliveHeld s' = true /\
  Android.count Android.WakeLockRelease (Android.trace s')
  = Android.count Android.WakeLockRelease (Android.trace s) /\
  Android.count Android.StopService (Android.trace s')
  = Android.count Android.StopService (Android.trace s).
Proof.
  intros R C P F. unfold Android.startRecording.
  rewrite R, C, P. cbn [negb]. unfold Android.requestAudioFocus.
  rewrite F. cbn -[Android.count].
  rewrite !count_app. cbn. rewrite !Nat.add_0_r. auto.
Qed.

(** C1. The code does not release the keep-alive on the error paths of
    [startRecording]: when audio focus is refused the promise is rejected
    with the wake lock still held and the foreground service still
    running, and neither has been released or stopped; the same happens
    when the [AudioRecord] fails to initialise, where the unusable handle
    also stays in the field.  The module is then not recording, so the
    keep-alive outlives the session it was acquired for, until some later
    [stopRecording] releases it. *)
Theorem failed_start_keeps_keepalive :
  (let '(s, outcome) :=
     Android.startRecording Examples.focusDenied Android.initial in
   outcome = Android.Rejected "E_AUDIO_FOCUS" /\
   Android.isRecording s = false /\
   Android.wakeLock s = Some true /\
   Android.foregroundService s = true /\
   Android.keepAliveHeld s = true /\
   Android.count Android.WakeLockAcquire (Android.trace s) = 1%nat /\
   Android.count Android.WakeLockRelease (Android.trace s) = 0%nat /\
   Android.count Android.StopService (Android.trace s) = 0%nat /\
   Android.keepAliveHeld (Android.stopRecording Examples.focusDenied s)
   = false) /\
  (let '(s, outcome) :=
     Android.startRecording Examples.initFails Android.initial in
   outcome = Android.Rejected "E_AUDIO_RECORD_INIT" /\
   Android.isRecording s = false /\
   Android.audioRecord s = Some {| Android.initialized := false |} /\
   Android.keepAliveHeld s = true /\
   Android.count Android.WakeLockAcquire (Android.trace s) = 1%nat /\
   Android.count Android.WakeLockRelease (Android.trace s) = 0%nat /\
   Android.count Android.StopService (Android.trace s) = 0%nat /\
   Android.keepAliveHeld (Android.stopRecording Examples.initFails s)
   = false).
Proof.
  split; vm_compute; repeat split; reflexivity.
Qed.

(** ** The capture loop *)

Section CaptureLoop.

Import Android.

Lemma nth_error_replace_job (js : list Job) (j : nat) (x y : Job) :
  nth_error js j = Some y -> nth_error (replace_job j x js) j = Some x.
Proof.
  revert j. induction js as [|hd tl IH]; intros [|j] H; cbn in *;
    try discriminate; auto.
Qed.

Lemma length_replace_job (js : list Job) (j : nat) (x : Job) :
  length (replace_job j x js) = length js.
Proof.
  revert j. induction js as [|hd tl IH]; intros [|j]; cbn; auto.
Qed.

(** A turn of the loop touches the coroutine table and may add an event
    or an uncaught exception to the trace, and nothing else. *)
Lemma loopIteration_frame (hw : HwRead) (j : nat) (s : State) :
  let s' := loopIteration hw j s in
  isRecording s' = isRecording s /\
  audioRecord s' = audioRecord s /\
  recordingJob s' = recordingJob s /\
  wakeLock s' = wakeLock s /\
  foregroundService s' = foregroundService s /\
  focusListener s' = focusListener s /\
  length (jobs s') = length (jobs s) /\
  count HwStartRecording (trace s') = count HwStartRecording (trace s) /\
  count HwStop (trace s') = count HwStop (trace s).
Proof.
  unfold loopIteration.
  destruct (nth_error (jobs s) j) as [job|]; [|cbn; tauto].
  destruct (finished job); [cbn; tauto|].
  destruct (negb (negb (cancelled job) && isRecording s)).
  { cbn. rewrite length_replace_job. tauto. }
  destruct (audioRecord s) as [r|] eqn:E.
  - destruct (0 <? readResult hw).
    + match goal with
      | |- context [shortArrayToBase64 ?b ?n] =>
          destruct (shortArrayToBase64 b n); [destruct (calculateRMS b n)|]
      end; cbn -[count]; rewrite ?count_app, ?length_replace_job, ?E;
        cbn; rewrite ?Nat.add_0_r; tauto.
    + cbn. rewrite length_replace_job, E. tauto.
  - cbn. rewrite length_replace_job, E. tauto.
Qed.

Lemma runLoops_frame (steps : list (HwRead * nat)) (s : State) :
  let s' := runLoops steps s in
  isRecording s' = isRecording s /\
  audioRecord s' = audioRecord s /\
  focusListener s' = focusListener s /\
  count HwStartRecording (trace s') = count HwStartRecording (trace s) /\
  count HwStop (trace s') = count HwStop (trace s).
Proof.
  revert s. induction steps as [|[hw j] tl IH]; intros s; cbn.
  - tauto.
  - destruct (IH (loopIteration hw j s)) as (A & B & C & D & E).
    destruct (loopIteration_frame hw j s) as (A' & B' & _ & _ & _ & C' & _ & D' & E').
    cbn in *. unfold runLoops in *.
    rewrite A, B, C, D, E. tauto.
Qed.

End CaptureLoop.

(** A turn of the loop whose read returns nothing or fails leaves the
    module as it was, emits nothing, and the loop goes on. *)
Lemma loopIteration_nonpositive
    (hw : Android.HwRead) (j : nat) (s : Android.State) :
  Android.jobRunning s j = true ->
  Android.readResult hw <= 0 ->
  let s' := Android.loopIteration hw j s in
  Android.trace s' = Android.trace s /\
  Android.isRecording s' = true /\
  Android.audioRecord s' = Android.audioRecord s /\
  Android.wakeLock s' = Android.wakeLock s /\
  Android.foregroundService s' = Android.foregroundService s /\
  Android.jobRunning s' j = true.
Proof.
  unfold Android.jobRunning, Android.loopIteration.
  destruct (nth_error (Android.jobs s) j) as [job|] eqn:J; [|discriminate].
  destruct (Android.finished job) eqn:F; [discriminate|].
  destruct (Android.cancelled job) eqn:C; [discriminate|].
  cbn [negb andb]. intros R L. rewrite R. cbn [negb andb].
  assert (N : forall buf,
             nth_error
               (Android.replace_job j
                  {| Android.cancelled := false; Android.finished := false;
                     Android.buffer := buf |} (Android.jobs s)) j
             = Some {| Android.cancelled := false; Android.finished := false;
                       Android.buffer := buf |}).
  { intros buf. eapply nth_error_replace_job; eauto. }
  destruct (Android.audioRecord s) as [r|] eqn:A.
  - destruct (0 <? Android.readResult hw) eqn:P.
    { apply Z.ltb_lt in P. lia. }
    cbn. rewrite N, A, R. cbn. tauto.
  - cbn. rewrite N, A, R. cbn. tauto.
Qed.

(** C2. A read that returns a non-positive result while the loop is
    running is skipped in silence: the turn of the loop emits nothing
    (the trace of platform calls is unchanged, so no notification of any
    kind reaches the consumer), the recording flag, the hardware handle
    and the keep-alive are left as they were, and the coroutine's next
    test of the loop condition succeeds again. *)
Theorem failed_read_is_skipped
    (hw : Android.HwRead) (j : nat) (s : Android.State) :
  Android.jobRunning s j = true ->
  Android.readResult hw <= 0 ->
  let s' := Android.loopIteration hw j s in
  Android.trace s' = Android.trace s /\
  Android.isRecording s' = true /\
  Android.audioRecord s' = Android.audioRecord s /\
  Android.wakeLock s' = Android.wakeLock s /\
  Android.foregroundService s' = Android.foregroundService s /\
  Android.jobRunning s' j = true.
Proof.
  exact (loopIteration_nonpositive hw j s).
Qed.

Lemma failed_read_is_skipped_witness :
  let s' := Android.loopIteration Examples.failedRead 0 Examples.recording in
  Android.trace s' = Android.trace Examples.recording /\
  Android.isRecording s' = true /\
  Android.audioRecord s' = Android.audioRecord Examples.recording /\
  Android.wakeLock s' = Android.wakeLock Examples.recording /\
  Android.foregroundService s'
  = Android.foregroundService Examples.recording /\
  Android.jobRunning s' 0 = true.
Proof.
  apply (failed_read_is_skipped Examples.failedRead 0 Examples.recording).
  - reflexivity.
  - cbn. lia.
Defined.

(** A failing read is not escalated: after a successful start, a read
    that returns [-1] is followed by no forced stop and no notification;
    the module keeps recording, nothing has been emitted and the loop is
    still running. *)
Lemma failed_read_not_escalated :
  let after :=
    Android.loopIteration Examples.failedRead 0 Examples.recording in
  ~ Android.forcedStopNotified Examples.recording after /\
  Android.isRecording after = true /\
  Android.trace after = Android.trace Examples.recording /\
  Android.jobRunning after 0 = true.
Proof.
  cbv zeta. split; [|split; [|split]]; try (vm_compute; reflexivity).
  intros (H & _). vm_compute in H. discriminate.
Qed.

(** ** Transient loss of audio focus *)

Section FocusChanges.

Import Android.

Lemma transient_loss_effect (env : Env) (s : State) :
  focusListener s = true ->
  deliverFocusChange env AUDIOFOCUS_LOSS_TRANSIENT s = set_isRecording false s.
Proof.
  intros H. unfold deliverFocusChange. now rewrite H.
Qed.

Lemma gain_effect (env : Env) (s : State) :
  focusListener s = true ->
  isRecording s = false ->
  audioRecord s = Some {| initialized := true |} ->
  deliverFocusChange env AUDIOFOCUS_GAIN s
  = startRecordingLoop env (call HwStartRecording (set_isRecording true s)).
Proof.
  intros L R A. unfold deliverFocusChange, onAudioFocusChange.
  now rewrite L, A, R.
Qed.

End FocusChanges.

(** C5. After a successful start, a transient loss of audio focus and a
    regain of focus, the module is recording again, but the hardware
    stream has been started twice and never stopped: the transient loss
    only clears the recording flag, and the regain calls
    [AudioRecord.startRecording] and launches a second capture loop.  This
    holds whatever turns the capture loops take in between.  When the
    first loop takes no turn between the loss and the regain, it never
    sees the cleared flag, and two capture loops run side by side on the
    same [AudioRecord]. *)
Theorem transient_loss_then_gain_starts_twice
    (steps1 steps2 steps3 : list (Android.HwRead * nat)) :
  let env := Examples.granted in
  let s1 := Android.runLoops steps1 Examples.recording in
  let s2 :=
    Android.runLoops steps2
      (Android.deliverFocusChange env Android.AUDIOFOCUS_LOSS_TRANSIENT s1) in
  let s3 := Android.deliverFocusChange env Android.AUDIOFOCUS_GAIN s2 in
  let s4 := Android.runLoops steps3 s3 in
  let direct :=
    Android.deliverFocusChange env Android.AUDIOFOCUS_GAIN
      (Android.deliverFocusChange env Android.AUDIOFOCUS_LOSS_TRANSIENT
         Examples.recording) in
  (Android.isRecording s4 = true /\
   Android.count Android.HwStartRecording (Android.trace s4) = 2%nat /\
   Android.count Android.HwStop (Android.trace s4) = 0%nat) /\
  (Android.jobRunning direct 0 = true /\
   Android.jobRunning direct 1 = true /\
   Android.runningLoops direct = 2%nat).
Proof.
  intros env s1 s2 s3 s4 direct. split; [|cbn; auto].
  destruct (runLoops_frame steps1 Examples.recording)
    as (R1 & A1 & L1 & C1 & D1).
  fold s1 in R1, A1, L1, C1, D1.
  set (t := Android.deliverFocusChange env Android.AUDIOFOCUS_LOSS_TRANSIENT s1)
    in *.
  assert (T : t = Android.set_isRecording false s1).
  { apply transient_loss_effect. rewrite L1. reflexivity. }
  destruct (runLoops_frame steps2 t) as (R2 & A2 & L2 & C2 & D2).
  fold s2 in R2, A2, L2, C2, D2.
  rewrite T in R2, A2, L2, C2, D2.
  cbn -[Android.count] in R2, A2, L2, C2, D2.
  assert (G : s3 = Android.startRecordingLoop env
                     (Android.call Android.HwStartRecording
                        (Android.set_isRecording true s2))).
  { apply gain_effect.
    - rewrite L2, L1. reflexivity.
    - exact R2.
    - rewrite A2, A1. reflexivity. }
  destruct (runLoops_frame steps3 s3) as (R3 & _ & _ & C3 & D3).
  fold s4 in R3, C3, D3.
  rewrite R3, C3, D3, G. cbn -[Android.count].
  rewrite !count_app, C2, D2, C1, D1. cbn. auto.
Qed.

(** C6. A second [startRecording] with no [stopRecording] in between is
    not always rejected by the Android module.  After a start that
    resolved and a transient loss of audio focus, which only clears the
    recording flag, the [AudioRecord], the wake lock and the foreground
    service of the first session are still there and nothing has been
    stopped; a second start on a platform that grants everything then
    resolves: it makes all six platform calls again, creates a second
    [AudioRecord] over the first and launches one more capture loop, so
    that at least two loops can pass their test.  The iOS module keeps
    its recording flag through an interruption and rejects the second
    start, leaving its state as it was. *)
Theorem second_start_after_transient_loss
    (env0 lossEnv env : Android.Env) (s0 s : Android.State) :
  Android.startRecording env0 s0 = (s, Android.Resolved) ->
  Android.reactContext env = true ->
  Android.permissionGranted env = true ->
  Android.focusGranted env = true ->
  Android.constructorThrows env = false ->
  Android.recordInitialized env = true ->
  let paused :=
    Android.deliverFocusChange lossEnv Android.AUDIOFOCUS_LOSS_TRANSIENT s in
  let second := Android.startRecording env paused in
  (Android.trace paused = Android.trace s /\
   Android.audioRecord paused = Some {| Android.initialized := true |} /\
   Android.wakeLock paused = Some true /\
   Android.foregroundService paused = true) /\
  snd second = Android.Resolved /\
  Android.trace (fst second)
  = Android.trace s
    ++ [Android.StartForegroundService; Android.WakeLockAcquire;
        Android.RequestAudioFocus; Android.NewAudioRecord;
        Android.HwStartRecording;
        Android.LaunchLoop (length (Android.jobs s))] /\
  Android.runningLoops (fst second) = S (Android.runningLoops s) /\
  (2 <= Android.runningLoops (fst second))%nat /\
  (forall (ienv : Ios.Env) (restarts : bool) (i : Ios.State),
      Ios.isRecording i = true ->
      let interrupted :=
        Ios.handleInterruption restarts Ios.InterruptionBegan i in
      Ios.startRecording ienv interrupted
      = (interrupted, Ios.Rejected "E_ALREADY_RECORDING")).
Proof.
  intros H C P G K I paused second.
  destruct (startRecording_resolved_state env0 s0 s H)
    as ((_ & _ & _ & G0 & _ & _) & E).
  assert (L : Android.focusListener s = true).
  { rewrite E. unfold Android.requestAudioFocus. rewrite G0. reflexivity. }
  assert (T : paused = Android.set_isRecording false s)
    by now apply transient_loss_effect.
  assert (R : second
              = Android.startRecording env (Android.set_isRecording false s))
    by (unfold second; now rewrite T).
  rewrite R, T. clear R T paused second L.
  unfold Android.startRecording at 1 2 3 4.
  cbn [Android.isRecording Android.set_isRecording].
  rewrite C, P. cbn [negb]. unfold Android.requestAudioFocus.
  rewrite G, K, I. cbn [negb fst snd].
  rewrite E. destruct s0 as [rec job ar wl req lis fgs js tr].
  unfold Android.runningLoops. cbn.
  rewrite <- !app_assoc, !filter_app, !length_app. cbn.
  repeat split; auto; try lia.
  intros ienv restarts i Ri.
  apply ios_startRecording_rejects_when_recording.
  destruct i as [rec' g [] node]; exact Ri.
Qed.

Lemma second_start_after_transient_loss_witness :
  snd (Android.startRecording Examples.granted
         (Android.deliverFocusChange Examples.granted
            Android.AUDIOFOCUS_LOSS_TRANSIENT Examples.recording))
  = Android.Resolved.
Proof.
  apply (second_start_after_transient_loss Examples.granted Examples.granted
           Examples.granted Android.initial Examples.recording);
    reflexivity.
Defined.

(** The iOS module handles the same sequence in balance: the interruption
    pauses the engine, the end of the interruption starts it again, and
    the single tap stays in place. *)
Lemma ios_interruption_resumes_once :
  let s :=
    Ios.handleInterruption true (Ios.InterruptionEnded true)
      (Ios.handleInterruption true Ios.InterruptionBegan
         Examples.iosRecording) in
  Ios.isRecording s = true /\
  Ios.audioEngine s = Some true /\
  Ios.count Ios.EngineStart (Ios.trace s) = 2%nat /\
  Ios.count Ios.EnginePause (Ios.trace s) = 1%nat /\
  Ios.count Ios.InstallTap (Ios.trace s) = 1%nat.
Proof.
  vm_compute. repeat split; reflexivity.
Qed.

(** ** The text encoding *)

Section TextEncoding.

Import Base64.

Lemma sextet_round_trip (v : Z) :
  0 <= v < 64 ->
  sextet_of_char (char_of_sextet v) = Some v /\
  is_pad (char_of_sextet v) = false.
Proof.
  intros H.
  assert (A : forallb
                (fun v =>
                   match sextet_of_char (char_of_sextet v) with
                   | Some w => w =? v
                   | None => false
                   end && negb (is_pad (char_of_sextet v)))
                (map Z.of_nat (seq 0 64)) = true) by (vm_compute; reflexivity).
  rewrite forallb_forall in A. specialize (A v).
  assert (I : In v (map Z.of_nat (seq 0 64))).
  { apply in_map_iff. exists (Z.to_nat v). split; [lia|]. apply in_seq. lia. }
  apply A in I. apply andb_true_iff in I. destruct I as [I1 I2].
  destruct (sextet_of_char (char_of_sextet v)); [|discriminate].
  apply Z.eqb_eq in I1. subst. split; [reflexivity|].
  now apply negb_true_iff.
Qed.

Ltac sextet v :=
  let E := fresh "E" in
  let P := fresh "P" in
  destruct (sextet_round_trip v) as [E P];
  [unfold byte_ok in *; Z.div_mod_to_equations; lia
  | rewrite ?E, ?P; clear E P].

Lemma decode_encode_below (n : nat) :
  forall bs : list Z,
    (length bs < n)%nat -> Forall byte_ok bs -> decode (encode bs) = Some bs.
Proof.
  induction n as [|n IH]; intros bs L F; [lia|].
  destruct bs as [|a [|b [|c rest]]].
  - reflexivity.
  - inversion F as [|? ? Ha _]; subst.
    cbn [encode decode].
    sextet (a / 4). sextet (a mod 4 * 16).
    cbn. f_equal. f_equal.
    unfold byte_ok in *; Z.div_mod_to_equations; lia.
  - inversion F as [|? ? Ha F1]; subst. inversion F1 as [|? ? Hb _]; subst.
    cbn [encode decode].
    sextet (a / 4). sextet (a mod 4 * 16 + b / 16). sextet (b mod 16 * 4).
    cbn. f_equal.
    f_equal; [|f_equal]; unfold byte_ok in *; Z.div_mod_to_equations; lia.
  - inversion F as [|? ? Ha F1]; subst. inversion F1 as [|? ? Hb F2]; subst.
    inversion F2 as [|? ? Hc F3]; subst.
    cbn [encode decode].
    sextet (a / 4). sextet (a mod 4 * 16 + b / 16).
    sextet (b mod 16 * 4 + c / 64). sextet (c mod 64).
    rewrite (IH rest); [|cbn in L; lia|exact F3].
    f_equal.
    f_equal; [|f_equal; [|f_equal]];
      unfold byte_ok in *; Z.div_mod_to_equations; lia.
Qed.

Lemma putShort_bytes (s : Z) : Forall byte_ok (putShort s).
Proof.
  unfold putShort, byte_ok.
  change 255 with (Z.ones 8). rewrite !Z.land_ones by lia.
  repeat constructor; apply Z.mod_pos_bound; lia.
Qed.

Lemma flat_map_putShort_bytes (l : list Z) :
  Forall byte_ok (flat_map putShort l).
Proof.
  induction l as [|s l IH]; cbn -[putShort]; [constructor|].
  apply Forall_app. split; [apply putShort_bytes|exact IH].
Qed.

End TextEncoding.

(** ** Index loops over the sample array *)

Section IndexLoops.

Import Android.

Lemma skipn_nth_error {A : Type} (l : list A) (n : nat) (x : A) :
  nth_error l n = Some x -> skipn n l = x :: skipn (S n) l.
Proof.
  revert n. induction l as [|hd tl IH]; intros [|n] H; cbn in *;
    try discriminate.
  - now inversion H.
  - now apply IH.
Qed.

(** In range, the loop is a left fold over the slice it walks. *)
Lemma for_until_fold {A : Type} (buf : list Z) (body : A -> Z -> A) :
  forall (n from : nat) (acc : A),
    (from + n <= length buf)%nat ->
    for_until buf body from n acc
    = Some (fold_left body (firstn n (skipn from buf)) acc).
Proof.
  induction n as [|n IH]; intros from acc H; cbn [for_until].
  - reflexivity.
  - destruct (nth_error buf from) as [x|] eqn:E.
    + rewrite (skipn_nth_error _ _ _ E). cbn [firstn fold_left].
      apply IH. lia.
    + apply nth_error_None in E. lia.
Qed.

Lemma fold_putShort (l : list Z) (acc : list Z) :
  fold_left (fun bytes sample => bytes ++ putShort sample) l acc
  = acc ++ flat_map putShort l.
Proof.
  revert acc. induction l as [|s l IH]; intros acc; cbn -[putShort].
  - now rewrite app_nil_r.
  - rewrite IH. now rewrite <- app_assoc.
Qed.

Lemma length_flat_map_putShort (l : list Z) :
  length (flat_map putShort l) = (2 * length l)%nat.
Proof.
  induction l as [|s l IH]; cbn; [reflexivity|]. rewrite IH. lia.
Qed.

End IndexLoops.

Section FrameEncoder.

Import Android.

Lemma for_until_invariant {A : Type} (P : A -> Prop)
    (buf : list Z) (body : A -> Z -> A) :
  (forall acc sample, P acc -> P (body acc sample)) ->
  forall (n from : nat) (acc r : A),
    P acc -> for_until buf body from n acc = Some r -> P r.
Proof.
  intros B. induction n as [|n IH]; intros from acc r H E; cbn in E.
  - now inversion E; subst.
  - destruct (nth_error buf from) as [x|]; [|discriminate].
    eapply IH; [|exact E]. now apply B.
Qed.

Lemma shortArrayBytes_bytes (buffer : list Z) (readSize : Z) (bytes : list Z) :
  shortArrayBytes buffer readSize = Some bytes -> Forall byte_ok bytes.
Proof.
  unfold shortArrayBytes.
  destruct (wrap32 (readSize * 2) <? 0); [discriminate|].
  apply for_until_invariant; [|constructor].
  intros acc sample H. apply Forall_app. split; [exact H|].
  apply putShort_bytes.
Qed.

Lemma shortArrayBytes_prefix (buffer : list Z) (readSize : Z) :
  0 <= readSize <= Z.of_nat (length buffer) ->
  readSize < 2 ^ 30 ->
  shortArrayBytes buffer readSize
  = Some (flat_map putShort (firstn (Z.to_nat readSize) buffer)).
Proof.
  intros R B. unfold shortArrayBytes.
  assert (W : wrap32 (readSize * 2) = readSize * 2).
  { unfold wrap32. rewrite Z.mod_small; lia. }
  rewrite W. destruct (readSize * 2 <? 0) eqn:N; [apply Z.ltb_lt in N; lia|].
  rewrite for_until_fold by (cbn; lia).
  now rewrite fold_putShort.
Qed.

Lemma coerceIn_unit (x : spec_float) :
  coerceIn x Fp.pzero Fp.one32
  = Some (if Fp.flt x Fp.pzero then Fp.pzero
          else if Fp.fgt x Fp.one32 then Fp.one32 else x).
Proof.
  unfold coerceIn. change (Fp.fgt Fp.pzero Fp.one32) with false. cbn iota.
  destruct (Fp.flt x Fp.pzero); [reflexivity|].
  destruct (Fp.fgt x Fp.one32); reflexivity.
Qed.

(** The value [calculateRMS] returns for the samples it sums. *)
Lemma calculateRMS_prefix (buffer : list Z) (readSize : Z) :
  0 <= readSize <= Z.of_nat (length buffer) ->
  calculateRMS buffer readSize
  = coerceIn
      (Fp.toFloat
         (Fp.div64
            (Fp.sqrt64
               (Fp.div64
                  (fold_left
                     (fun sum sample =>
                        Fp.add64 sum (Fp.Z2D (wrap32 (sample * sample))))
                     (firstn (Z.to_nat readSize) buffer) Fp.pzero)
                  (Fp.Z2D readSize)))
            (Fp.Z2D 32767)))
      Fp.pzero Fp.one32.
Proof.
  intros R. unfold calculateRMS.
  now rewrite for_until_fold by (cbn; lia).
Qed.

End FrameEncoder.

(** C9. Decoding the text form of a byte sequence gives the bytes back,
    for every sequence of bytes including the empty one; in particular the
    text the Android module emits decodes to the bytes of the samples it
    read, and the text the iOS module emits decodes to the bytes of its
    block. *)
Theorem text_encoding_round_trip :
  (forall bytes : list Z,
      Forall byte_ok bytes ->
      Base64.decode (Base64.encode bytes) = Some bytes) /\
  (forall (buffer : list Z) (readSize : Z) (text : string),
      Android.shortArrayToBase64 buffer readSize = Some text ->
      exists bytes,
        Android.shortArrayBytes buffer readSize = Some bytes /\
        Base64.decode text = Some bytes) /\
  (forall (b : Ios.AVAudioPCMBuffer) (bytes : list Z),
      Ios.audioBufferBytes b = Some bytes ->
      Base64.decode (Ios.audioBufferToBase64 b) = Some bytes).
Proof.
  assert (RT : forall bytes : list Z,
             Forall byte_ok bytes ->
             Base64.decode (Base64.encode bytes) = Some bytes).
  { intros bytes F.
    apply (decode_encode_below (S (length bytes))); [lia|exact F]. }
  split; [exact RT|]. split.
  - intros buffer readSize text H. unfold Android.shortArrayToBase64 in H.
    destruct (Android.shortArrayBytes buffer readSize) as [bytes|] eqn:E;
      [|discriminate].
    cbn in H. inversion H; subst. exists bytes. split; [reflexivity|].
    apply RT. eapply shortArrayBytes_bytes; eauto.
  - intros b bytes H. unfold Ios.audioBufferToBase64. rewrite H.
    apply RT. unfold Ios.audioBufferBytes in H.
    destruct (Ios.int16ChannelData b); [|discriminate].
    inversion H; subst. apply flat_map_putShort_bytes.
Qed.

Lemma text_encoding_round_trip_witness :
  Base64.decode (Base64.encode [0; 255; 16; 77]) = Some [0; 255; 16; 77].
Proof.
  apply (proj1 text_encoding_round_trip [0; 255; 16; 77]).
  repeat constructor; unfold byte_ok; lia.
Defined.

(** C10. A read that fills only the front of the array is reported from
    that front alone: the data is the text encoding of exactly
    [2 * readResult] bytes, the little-endian bytes of the first
    [readResult] samples; the loudness is computed from the sum of the
    squares of those [readResult] samples; whatever stale samples sit
    behind them, the two values are the same; and the turn of the capture
    loop that made the read emits exactly this pair. *)
Theorem partial_read_uses_prefix (buffer : list Z) (readResult : Z) :
  0 < readResult < Z.of_nat (length buffer) ->
  Z.of_nat (length buffer) < 2 ^ 30 ->
  let front := firstn (Z.to_nat readResult) buffer in
  Android.shortArrayToBase64 buffer readResult
  = Some (Base64.encode (flat_map putShort front)) /\
  Z.of_nat (length (flat_map putShort front)) = 2 * readResult /\
  Android.calculateRMS buffer readResult
  = Android.coerceIn
      (Fp.toFloat
         (Fp.div64
            (Fp.sqrt64
               (Fp.div64
                  (fold_left
                     (fun sum sample =>
                        Fp.add64 sum (Fp.Z2D (wrap32 (sample * sample))))
                     front Fp.pzero)
                  (Fp.Z2D readResult)))
            (Fp.Z2D 32767)))
      Fp.pzero Fp.one32 /\
  Z.of_nat (length front) = readResult /\
  (forall stale : list Z,
      Android.shortArrayToBase64 (front ++ stale) readResult
      = Android.shortArrayToBase64 buffer readResult /\
      Android.calculateRMS (front ++ stale) readResult
      = Android.calculateRMS buffer readResult) /\
  (forall (hw : Android.HwRead) (j : nat) (s : Android.State)
          (job : Android.Job),
      nth_error (Android.jobs s) j = Some job ->
      Android.jobRunning s j = true ->
      Android.audioRecord s <> None ->
      Android.readResult hw = readResult ->
      Android.overwrite (Android.buffer job) (Android.written hw) = buffer ->
      exists rms,
        Android.calculateRMS front readResult = Some rms /\
        Android.trace (Android.loopIteration hw j s)
        = Android.trace s
          ++ [Android.SendEvent (Base64.encode (flat_map putShort front)) rms]).
Proof.
  intros R B front.
  assert (LF : length front = Z.to_nat readResult).
  { unfold front. rewrite length_firstn. lia. }
  assert (B64 : Android.shortArrayToBase64 buffer readResult
                = Some (Base64.encode (flat_map putShort front))).
  { unfold Android.shortArrayToBase64.
    rewrite shortArrayBytes_prefix by lia. reflexivity. }
  assert (prefix : forall stale,
             firstn (Z.to_nat readResult) (front ++ stale) = front).
  { intros stale. rewrite <- LF. rewrite firstn_app, Nat.sub_diag.
    rewrite firstn_all. cbn. now rewrite app_nil_r. }
  assert (RMS : forall stale,
             Android.calculateRMS (front ++ stale) readResult
             = Android.calculateRMS buffer readResult).
  { intros stale. rewrite !calculateRMS_prefix.
    - now rewrite prefix.
    - lia.
    - rewrite length_app. lia. }
  split; [exact B64|]. split.
  { rewrite length_flat_map_putShort. lia. }
  split; [apply calculateRMS_prefix; lia|]. split; [lia|]. split.
  - intros stale. split; [|apply RMS].
    rewrite B64. unfold Android.shortArrayToBase64.
    rewrite shortArrayBytes_prefix by (rewrite ?length_app; lia).
    now rewrite prefix.
  - intros hw j s job J Run A RR O.
    pose proof (RMS []) as RMS0. rewrite app_nil_r in RMS0.
    rewrite calculateRMS_prefix in RMS0 by lia.
    rewrite (calculateRMS_prefix buffer) in RMS0 by lia.
    assert (exists rms, Android.calculateRMS buffer readResult = Some rms)
      as [rms Hrms].
    { rewrite calculateRMS_prefix by lia. rewrite coerceIn_unit. eauto. }
    exists rms. split.
    { rewrite <- Hrms. rewrite <- (app_nil_r front) at 1. apply RMS. }
    unfold Android.jobRunning in Run. rewrite J in Run.
    unfold Android.loopIteration. rewrite J.
    destruct (Android.finished job); [discriminate|].
    destruct (Android.cancelled job); [discriminate|].
    cbn in Run. rewrite Run. cbn [negb andb].
    destruct (Android.audioRecord s) as [r|]; [|congruence].
    rewrite RR, O.
    destruct (0 <? readResult) eqn:P; [|apply Z.ltb_ge in P; lia].
    rewrite B64, Hrms. reflexivity.
Qed.

Lemma partial_read_uses_prefix_witness :
  (0 < 2 < Z.of_nat (length [7; -2; 300; 5]) /\
   Z.of_nat (length [7; -2; 300; 5]) < 2 ^ 30) /\
  Android.shortArrayToBase64 [7; -2; 300; 5] 2
  = Some (Base64.encode (flat_map putShort [7; -2])) /\
  Z.of_nat (length (flat_map putShort [7; -2])) = 2 * 2 /\
  (forall stale : list Z,
      Android.shortArrayToBase64 ([7; -2] ++ stale) 2
      = Android.shortArrayToBase64 [7; -2; 300; 5] 2 /\
      Android.calculateRMS ([7; -2] ++ stale) 2
      = Android.calculateRMS [7; -2; 300; 5] 2).
Proof.
  assert (H1 : 0 < 2 < Z.of_nat (length [7; -2; 300; 5])) by (cbn; lia).
  assert (H2 : Z.of_nat (length [7; -2; 300; 5]) < 2 ^ 30) by (cbn; lia).
  split; [split; assumption|].
  destruct (partial_read_uses_prefix [7; -2; 300; 5] 2 H1 H2)
    as (A & B & _ & _ & C & _).
  split; [exact A|]. split; [exact B|exact C].
Defined.

(** ** Blocks whose conversion fails *)

(** C4. When the conversion of a block fails, the converter is not tried
    again, but the block is not dropped either: [processAudioBuffer] goes
    on with the unconverted buffer (after the gain stage) and hands
    exactly one event to the sink, whose data and amplitude are computed
    from that buffer.  For a buffer without 16 bit integer storage this is
    the empty string and amplitude zero. *)
Theorem failed_conversion_still_emits
    (convert : Ios.AVAudioPCMBuffer -> Ios.Conversion)
    (inputGain : spec_float) (buffer : Ios.AVAudioPCMBuffer) :
  let unconverted := Ios.applyGain inputGain buffer in
  Ios.conversionFails convert unconverted = true ->
  let calls := Ios.processAudioBuffer convert true inputGain buffer in
  filter Ios.is_event calls
  = [Ios.SendEvent (Ios.audioBufferToBase64 unconverted)
       (Ios.calculateRMS unconverted)] /\
  (length (filter Ios.is_convert calls) <= 1)%nat /\
  (Ios.int16ChannelData unconverted = None ->
   filter Ios.is_event calls = [Ios.SendEvent EmptyString Fp.pzero]).
Proof.
  intros unconverted F calls.
  assert (E : filter Ios.is_event calls
              = [Ios.SendEvent (Ios.audioBufferToBase64 unconverted)
                   (Ios.calculateRMS unconverted)]
              /\ (length (filter Ios.is_convert calls) <= 1)%nat).
  { unfold calls, Ios.processAudioBuffer. fold unconverted. cbn [negb].
    unfold Ios.conversionFails in F. apply andb_true_iff in F.
    destruct F as [F1 F2]. rewrite F1.
    destruct (convert unconverted); try discriminate; cbn; auto. }
  destruct E as [E1 E2]. split; [exact E1|]. split; [exact E2|].
  intros N. rewrite E1.
  unfold Ios.audioBufferToBase64, Ios.audioBufferBytes, Ios.calculateRMS.
  now rewrite N.
Qed.

Lemma failed_conversion_still_emits_witness :
  let unconverted := Ios.applyGain Fp.two32 Examples.floatBlock in
  let calls :=
    Ios.processAudioBuffer Examples.failingConverter true Fp.two32
      Examples.floatBlock in
  filter Ios.is_event calls
  = [Ios.SendEvent (Ios.audioBufferToBase64 unconverted)
       (Ios.calculateRMS unconverted)] /\
  (length (filter Ios.is_convert calls) <= 1)%nat /\
  (Ios.int16ChannelData unconverted = None ->
   filter Ios.is_event calls = [Ios.SendEvent EmptyString Fp.pzero]).
Proof.
  apply (failed_conversion_still_emits Examples.failingConverter Fp.two32
           Examples.floatBlock).
  reflexivity.
Defined.

(** A block that fails conversion is not dropped: a Float32 block whose
    conversion reports an error still reaches the event sink. *)
Lemma failed_conversion_not_dropped :
  Ios.conversionFails Examples.failingConverter
    (Ios.applyGain Fp.one32 Examples.floatBlock) = true /\
  filter Ios.is_event
    (Ios.processAudioBuffer Examples.failingConverter true Fp.one32
       Examples.floatBlock)
  <> [].
Proof.
  split; [reflexivity|]. cbn. discriminate.
Qed.

(** ** Blocks without frames *)

(** The loudness of an [Int16] buffer without frames: the sum of no
    squares divided by zero frames. *)
Lemma zero_frames_rms (b : Ios.AVAudioPCMBuffer) (samples : list Z) :
  Ios.int16ChannelData b = Some samples ->
  Ios.frameLength b = O ->
  Ios.calculateRMS b = S754_nan /\ Ios.audioBufferToBase64 b = ""%string.
Proof.
  intros D L. unfold Ios.calculateRMS, Ios.audioBufferToBase64,
    Ios.audioBufferBytes.
  rewrite D, L. split; reflexivity.
Qed.

(** The capture loop of the Android module sends nothing for a read that
    returns no samples. *)
Lemma loopIteration_no_samples
    (hw : Android.HwRead) (j : nat) (s : Android.State) :
  Android.readResult hw <= 0 ->
  Android.trace (Android.loopIteration hw j s) = Android.trace s.
Proof.
  intros H. unfold Android.loopIteration.
  destruct (nth_error (Android.jobs s) j) as [job|]; [|reflexivity].
  destruct (Android.finished job); [reflexivity|].
  destruct (negb _); [reflexivity|].
  destruct (Android.audioRecord s).
  - replace (0 <? Android.readResult hw) with false
      by (symmetry; apply Z.ltb_ge; lia).
    reflexivity.
  - reflexivity.
Qed.

(** C3. A block of 16 bit samples with no frames in it, handed to the iOS
    [processAudioBuffer], is reported to the consumer with an amplitude
    that is not a number: [calculateRMS] has no guard for the empty
    block, divides zero by zero, and the clamp to [0.0 ... 1.0] lets the
    result through.  This holds for a block that arrives in the target
    format and for one that the converter returns without frames.  The
    Android capture loop, given a read without samples, sends nothing. *)
Theorem zero_frame_block_reports_nan
    (convert : Ios.AVAudioPCMBuffer -> Ios.Conversion) (gain : spec_float)
    (b : Ios.AVAudioPCMBuffer) (samples : list Z) :
  Ios.int16ChannelData b = Some samples ->
  Ios.frameLength b = O ->
  Ios.calculateRMS b = S754_nan /\
  Ios.calculateRMS b <> Fp.pzero /\
  (Ios.format_eqb (Ios.format b) Ios.targetFormat = true ->
   Ios.processAudioBuffer convert true gain b
   = [Ios.SendEvent "" S754_nan]) /\
  (forall raw : Ios.AVAudioPCMBuffer,
      Ios.format_eqb (Ios.format (Ios.applyGain gain raw)) Ios.targetFormat
      = false ->
      convert (Ios.applyGain gain raw) = Ios.Converted b ->
      Ios.processAudioBuffer convert true gain raw
      = [Ios.ConvertCall; Ios.SendEvent "" S754_nan]) /\
  (forall (hw : Android.HwRead) (j : nat) (s : Android.State),
      Android.readResult hw = 0 ->
      Android.trace (Android.loopIteration hw j s) = Android.trace s).
Proof.
  intros D L. destruct (zero_frames_rms b samples D L) as [R B].
  split; [exact R|]. split; [rewrite R; discriminate|]. split; [|split].
  - intros F. unfold Ios.processAudioBuffer.
    assert (G : Ios.applyGain gain b = b).
    { unfold Ios.applyGain. unfold Ios.int16ChannelData in D.
      destruct (Ios.channelData b); [discriminate|reflexivity|reflexivity]. }
    rewrite G, F. cbn [negb]. now rewrite R, B.
  - intros raw F C. unfold Ios.processAudioBuffer.
    rewrite F, C. cbn [negb app]. now rewrite R, B.
  - intros hw j s Z. apply loopIteration_no_samples. lia.
Qed.

Lemma zero_frame_block_reports_nan_witness :
  Ios.processAudioBuffer Examples.failingConverter true Fp.one32
    Examples.emptyBlock
  = [Ios.SendEvent "" S754_nan].
Proof.
  apply (zero_frame_block_reports_nan Examples.failingConverter Fp.one32
           Examples.emptyBlock []); reflexivity.
Defined.

(** ** Facts about the IEEE rounding of the floating point model *)

Section Rounding.

Variables prec emax : Z.

Lemma iter_pos_invariant {A : Type} (P : A -> Prop) (f : A -> A) :
  (forall x, P x -> P (f x)) ->
  forall (p : positive) (x : A), P x -> P (iter_pos f p x).
Proof.
  intros F. induction p as [p IH|p IH|]; intros x H; cbn; auto.
Qed.

Lemma shr_1_nonneg (mrs : shr_record) :
  0 <= shr_m mrs -> 0 <= shr_m (shr_1 mrs).
Proof.
  destruct mrs as [m r s]. cbn.
  destruct m as [|[p|p|]|p]; cbn; lia.
Qed.

Lemma shr_nonneg (mrs : shr_record) (e n : Z) :
  0 <= shr_m mrs -> 0 <= shr_m (fst (shr mrs e n)).
Proof.
  intros H. unfold shr. destruct n as [|p|p]; cbn [fst]; auto.
  apply iter_pos_invariant; auto using shr_1_nonneg.
Qed.

Lemma shr_m_of_loc (m : Z) (l : location) :
  shr_m (shr_record_of_loc m l) = m.
Proof.
  destruct l as [|[| |]]; reflexivity.
Qed.

Lemma shr_fexp_nonneg (m e : Z) (l : location) :
  0 <= m -> 0 <= shr_m (fst (shr_fexp prec emax m e l)).
Proof.
  intros H. unfold shr_fexp. apply shr_nonneg. now rewrite shr_m_of_loc.
Qed.

Lemma round_nearest_even_nonneg (m : Z) (l : location) :
  0 <= m -> 0 <= round_nearest_even m l.
Proof.
  intros H. unfold round_nearest_even.
  destruct l as [|[| |]]; try destruct (Z.even m); lia.
Qed.

(** Whether a number carries sign [sx]; NaN carries none. *)
Lemma binary_round_aux_sign (sx : bool) (m e : Z) (l : location) :
  0 <= m ->
  match binary_round_aux prec emax sx m e l with
  | S754_zero s | S754_infinity s | S754_finite s _ _ => s = sx
  | S754_nan => False
  end.
Proof.
  intros H. unfold binary_round_aux.
  pose proof (shr_fexp_nonneg m e l H) as H1.
  destruct (shr_fexp prec emax m e l) as [mrs' e'].
  cbn [fst] in H1.
  pose proof (shr_fexp_nonneg
                (round_nearest_even (shr_m mrs') (loc_of_shr_record mrs'))
                e' loc_Exact
                (round_nearest_even_nonneg _ _ H1)) as H2.
  destruct (shr_fexp prec emax
              (round_nearest_even (shr_m mrs') (loc_of_shr_record mrs'))
              e' loc_Exact) as [mrs'' e''].
  cbn [fst] in H2.
  destruct (shr_m mrs'') as [|p|p]; [reflexivity| |lia].
  destruct (e'' <=? emax - prec); reflexivity.
Qed.

Lemma digits2_pos_size (p : positive) : digits2_pos p = Pos.size p.
Proof.
  induction p as [p IH|p IH|]; cbn; now rewrite ?IH.
Qed.

Lemma Zdigits2_log2 (n : Z) : 0 < n -> Zdigits2 n = Z.log2 n + 1.
Proof.
  destruct n as [|p|p]; try lia. intros _.
  unfold Zdigits2. rewrite digits2_pos_size.
  destruct p as [p|p|]; cbn [Pos.size Z.log2]; lia.
Qed.

Lemma Zdigits2_mul_pow2 (n k : Z) :
  0 < n -> 0 <= k -> Zdigits2 (n * 2 ^ k) = Zdigits2 n + k.
Proof.
  intros N K.
  assert (0 < 2 ^ k) by (apply Z.pow_pos_nonneg; lia).
  rewrite !Zdigits2_log2 by nia.
  rewrite Z.log2_mul_pow2 by lia. lia.
Qed.

Lemma shr_1_double (x : Z) :
  0 < x ->
  shr_1 {| shr_m := 2 * x; shr_r := false; shr_s := false |}
  = {| shr_m := x; shr_r := false; shr_s := false |}.
Proof.
  destruct x as [|p|p]; try lia. reflexivity.
Qed.

Lemma pow2_xO (p : positive) : 2 ^ Zpos p~0 = 2 ^ Zpos p * 2 ^ Zpos p.
Proof.
  rewrite <- Z.pow_add_r by lia. f_equal. lia.
Qed.

Lemma pow2_xI (p : positive) : 2 ^ Zpos p~1 = 2 * (2 ^ Zpos p * 2 ^ Zpos p).
Proof.
  rewrite <- Z.pow_add_r, <- Z.pow_succ_r by lia. f_equal. lia.
Qed.

(** Shifting out [p] zero bits loses nothing. *)
Lemma iter_shr_1_exact (p : positive) :
  forall x : Z,
    0 < x ->
    iter_pos shr_1 p
      {| shr_m := x * 2 ^ Zpos p; shr_r := false; shr_s := false |}
    = {| shr_m := x; shr_r := false; shr_s := false |}.
Proof.
  induction p as [p IH|p IH|]; intros x X; cbn [iter_pos].
  - assert (0 < 2 ^ Zpos p) by (apply Z.pow_pos_nonneg; lia).
    replace (x * 2 ^ Zpos p~1) with (2 * ((x * 2 ^ Zpos p) * 2 ^ Zpos p))
      by (rewrite pow2_xI; ring).
    rewrite shr_1_double by nia. rewrite IH by nia. now apply IH.
  - assert (0 < 2 ^ Zpos p) by (apply Z.pow_pos_nonneg; lia).
    replace (x * 2 ^ Zpos p~0) with ((x * 2 ^ Zpos p) * 2 ^ Zpos p)
      by (rewrite pow2_xO; ring).
    rewrite IH by nia. now apply IH.
  - rewrite Z.pow_1_r, Z.mul_comm. now apply shr_1_double.
Qed.

(** A mantissa that ends in as many zero bits as the rounding drops is
    rounded to itself without them. *)
Lemma binary_round_aux_exact (sx : bool) (m x e k : Z) :
  m = x * 2 ^ k ->
  0 < x -> 0 <= k ->
  fexp prec emax (Zdigits2 m + e) = e + k ->
  e + k <= emax - prec ->
  binary_round_aux prec emax sx m e loc_Exact
  = S754_finite sx (Z.to_pos x) (e + k).
Proof.
  intros -> X K F B. unfold binary_round_aux, shr_fexp at 1.
  rewrite F. replace (e + k - e) with k by lia.
  cbn [shr_record_of_loc].
  assert (S1 : shr {| shr_m := x * 2 ^ k; shr_r := false; shr_s := false |} e k
               = ({| shr_m := x; shr_r := false; shr_s := false |}, e + k)).
  { unfold shr. destruct k as [|p|p]; try lia.
    - now rewrite Z.pow_0_r, Z.mul_1_r, Z.add_0_r.
    - now rewrite iter_shr_1_exact. }
  rewrite S1. cbn [shr_m loc_of_shr_record round_nearest_even].
  unfold shr_fexp.
  rewrite Zdigits2_mul_pow2 in F by lia.
  replace (Zdigits2 x + (e + k)) with (Zdigits2 x + k + e) by lia.
  rewrite F, Z.sub_diag. cbn [shr_record_of_loc shr shr_m].
  destruct x as [|p|p]; try lia.
  apply Z.leb_le in B. rewrite B. reflexivity.
Qed.

Lemma pos_iter_xO (p d : positive) :
  Zpos (Pos.iter xO p d) = Zpos p * 2 ^ Zpos d.
Proof.
  induction d as [|d IH] using Pos.peano_ind.
  - cbn. lia.
  - rewrite Pos.iter_succ, Pos2Z.inj_xO, IH, Pos2Z.inj_succ, Z.pow_succ_r by lia.
    ring.
Qed.

Lemma shl_align_fst (m : positive) (e e' : Z) :
  e' <= e -> Zpos (fst (shl_align m e e')) = Zpos m * 2 ^ (e - e').
Proof.
  intros H. unfold shl_align.
  destruct (e' - e) as [|d|d] eqn:D; cbn [fst]; try lia.
  - replace (e - e') with 0 by lia. lia.
  - rewrite pos_iter_xO. f_equal. f_equal. lia.
Qed.

(** [binary_round] when the mantissa has to be shifted left. *)
Lemma binary_round_shl (sx : bool) (p : positive) (e E : Z) :
  fexp prec emax (Zdigits2 (Zpos p) + e) = E ->
  E <= e -> E <= emax - prec ->
  binary_round prec emax sx p e
  = S754_finite sx (Z.to_pos (Zpos p * 2 ^ (e - E))) E.
Proof.
  intros F L B. unfold binary_round.
  change (Zpos (digits2_pos p)) with (Zdigits2 (Zpos p)). rewrite F.
  assert (P : 0 < 2 ^ (e - E)) by (apply Z.pow_pos_nonneg; lia).
  destruct (shl_align p e E) as [mz ez] eqn:S.
  assert (M : Zpos mz = Zpos p * 2 ^ (e - E)).
  { rewrite <- (shl_align_fst p e E L), S. reflexivity. }
  assert (Ez : ez = E).
  { unfold shl_align in S. destruct (E - e) eqn:D; inversion S; lia. }
  subst ez. rewrite M.
  rewrite (binary_round_aux_exact sx _ (Zpos p * 2 ^ (e - E)) E 0); try lia.
  - now rewrite Z.add_0_r.
  - rewrite Z.add_0_r, Zdigits2_mul_pow2 by lia.
    rewrite <- F. f_equal. lia.
Qed.

(** [binary_round] when zero bits have to be shifted out. *)
Lemma binary_round_shr (sx : bool) (p : positive) (e E x : Z) :
  fexp prec emax (Zdigits2 (Zpos p) + e) = E ->
  e <= E -> E <= emax - prec ->
  Zpos p = x * 2 ^ (E - e) -> 0 < x ->
  binary_round prec emax sx p e = S754_finite sx (Z.to_pos x) E.
Proof.
  intros F L B M X. unfold binary_round.
  change (Zpos (digits2_pos p)) with (Zdigits2 (Zpos p)). rewrite F.
  assert (S : shl_align p e E = (p, e)).
  { unfold shl_align. destruct (E - e) eqn:D; try reflexivity. lia. }
  rewrite S.
  rewrite (binary_round_aux_exact sx _ x e (E - e)) by lia.
  f_equal. lia.
Qed.

End Rounding.

(** ** Exact [Double] arithmetic on integers below [2^53] *)

Section Binary64.

Lemma log2_below_53 (n : Z) : 0 < n < 2 ^ 53 -> 0 <= Z.log2 n <= 52.
Proof.
  intros [P B]. split; [apply Z.log2_nonneg|].
  apply Z.log2_lt_pow2 in B; lia.
Qed.

Lemma fexp64 (d : Z) : fexp 53 1024 d = Z.max (d - 53) (-1074).
Proof. reflexivity. Qed.

Lemma pow2_pos (k : Z) : 0 <= k -> 0 < 2 ^ k.
Proof. intros. apply Z.pow_pos_nonneg; lia. Qed.

Lemma pow2_add (n a b : Z) :
  0 <= a -> 0 <= b -> n * 2 ^ a * 2 ^ b = n * 2 ^ (a + b).
Proof.
  intros. rewrite Z.pow_add_r by lia. ring.
Qed.

Lemma mantissa64_pos (n : Z) :
  0 < n < 2 ^ 53 -> 0 < n * 2 ^ (52 - Z.log2 n).
Proof.
  intros H. pose proof (log2_below_53 n H).
  pose proof (pow2_pos (52 - Z.log2 n)). nia.
Qed.

Lemma mantissa64_digits (n : Z) :
  0 < n < 2 ^ 53 -> Zdigits2 (n * 2 ^ (52 - Z.log2 n)) = 53.
Proof.
  intros H. pose proof (log2_below_53 n H).
  rewrite Zdigits2_mul_pow2, Zdigits2_log2 by lia. lia.
Qed.

(** Rounding a mantissa and exponent whose value is the integer [n]. *)
Lemma round_aux64_int (sx : bool) (m e n : Z) :
  0 < n < 2 ^ 53 -> e <= Z.log2 n - 52 -> m = n * 2 ^ (- e) ->
  binary_round_aux 53 1024 sx m e loc_Exact = Fp.exact64 sx n.
Proof.
  intros N L M. pose proof (log2_below_53 n N) as B.
  pose proof (mantissa64_pos n N) as P.
  rewrite (binary_round_aux_exact 53 1024 sx m
             (n * 2 ^ (52 - Z.log2 n)) e (Z.log2 n - 52 - e)); try lia.
  - unfold Fp.exact64. f_equal. lia.
  - rewrite M, pow2_add by lia. f_equal. f_equal. lia.
  - rewrite M, Zdigits2_mul_pow2, Zdigits2_log2, fexp64 by lia. lia.
Qed.

Lemma round64_int (sx : bool) (p : positive) (e n : Z) :
  0 < n < 2 ^ 53 -> e <= 0 -> Zpos p = n * 2 ^ (- e) ->
  binary_round 53 1024 sx p e = Fp.exact64 sx n.
Proof.
  intros N L M. pose proof (log2_below_53 n N) as B.
  assert (F : fexp 53 1024 (Zdigits2 (Zpos p) + e) = Z.log2 n - 52).
  { rewrite M, Zdigits2_mul_pow2, Zdigits2_log2, fexp64 by lia. lia. }
  destruct (Z_le_gt_dec (Z.log2 n - 52) e) as [C|C].
  - rewrite (binary_round_shl 53 1024 sx p e _ F C) by lia.
    unfold Fp.exact64. f_equal. f_equal.
    rewrite M, pow2_add by lia. f_equal. f_equal. lia.
  - rewrite (binary_round_shr 53 1024 sx p e _ (n * 2 ^ (52 - Z.log2 n)) F);
      [reflexivity|lia|lia| |now apply mantissa64_pos].
    rewrite M, pow2_add by lia. f_equal. f_equal. lia.
Qed.

Lemma Z2D_pos (n : Z) : 0 < n < 2 ^ 53 -> Fp.Z2D n = Fp.exact64 false n.
Proof.
  intros N. destruct n as [|p|p]; try lia.
  unfold Fp.Z2D, binary_normalize.
  apply round64_int; [exact N|lia|]. cbn. lia.
Qed.

Lemma Z2D_neg (n : Z) : 0 < n < 2 ^ 53 -> Fp.Z2D (- n) = Fp.exact64 true n.
Proof.
  intros N. destruct n as [|p|p]; try lia.
  unfold Fp.Z2D, binary_normalize. cbn [Z.opp].
  apply round64_int; [exact N|lia|]. cbn. lia.
Qed.

Lemma Z2D_zero : Fp.Z2D 0 = Fp.pzero.
Proof. reflexivity. Qed.

(** Adding two integers in [Double] is exact below [2^53]. *)
Lemma add64_exact (a b : Z) :
  0 <= a -> 0 <= b -> a + b < 2 ^ 53 ->
  Fp.add64 (Fp.Z2D a) (Fp.Z2D b) = Fp.Z2D (a + b).
Proof.
  intros A B S.
  destruct (Z.eq_dec a 0) as [->|A0].
  { cbn [Z.add]. rewrite Z2D_zero.
    destruct (Z.eq_dec b 0) as [->|B0]; [reflexivity|].
    rewrite Z2D_pos by lia. reflexivity. }
  destruct (Z.eq_dec b 0) as [->|B0].
  { rewrite Z.add_0_r, Z2D_zero, Z2D_pos by lia. reflexivity. }
  rewrite !Z2D_pos by lia.
  assert (Na : 0 < a < 2 ^ 53) by lia.
  assert (Nb : 0 < b < 2 ^ 53) by lia.
  pose proof (log2_below_53 a Na) as La.
  pose proof (log2_below_53 b Nb) as Lb.
  pose proof (mantissa64_pos a Na) as Pa.
  pose proof (mantissa64_pos b Nb) as Pb.
  unfold Fp.exact64 at 1 2. unfold Fp.add64, SFadd. cbn [cond_Zopp].
  set (ez := Z.min (Z.log2 a - 52) (Z.log2 b - 52)).
  rewrite !shl_align_fst by lia.
  rewrite !Z2Pos.id by lia.
  rewrite !pow2_add by lia.
  replace (52 - Z.log2 a + (Z.log2 a - 52 - ez)) with (- ez) by lia.
  replace (52 - Z.log2 b + (Z.log2 b - 52 - ez)) with (- ez) by lia.
  rewrite <- Z.mul_add_distr_r.
  pose proof (pow2_pos (- ez)) as Pz.
  destruct ((a + b) * 2 ^ (- ez)) as [|q|q] eqn:Q; try nia.
  unfold binary_normalize.
  apply round64_int; lia.
Qed.

End Binary64.

Section Binary64Ops.

(** Multiplying two integers in [Double] is exact below [2^53]. *)
Lemma mul64_exact (sx sy : bool) (a b : Z) :
  0 < a -> 0 < b -> a * b < 2 ^ 53 ->
  Fp.mul64 (Fp.exact64 sx a) (Fp.exact64 sy b) = Fp.exact64 (xorb sx sy) (a * b).
Proof.
  intros A B S.
  assert (Na : 0 < a < 2 ^ 53) by nia.
  assert (Nb : 0 < b < 2 ^ 53) by nia.
  pose proof (log2_below_53 a Na) as La.
  pose proof (log2_below_53 b Nb) as Lb.
  pose proof (mantissa64_pos a Na) as Pa.
  pose proof (mantissa64_pos b Nb) as Pb.
  pose proof (Z.log2_mul_below a b A B) as LM.
  unfold Fp.exact64 at 1 2. unfold Fp.mul64, SFmul.
  apply round_aux64_int; [nia|lia|].
  rewrite Pos2Z.inj_mul, !Z2Pos.id by lia.
  replace (- (Z.log2 a - 52 + (Z.log2 b - 52)))
    with ((52 - Z.log2 a) + (52 - Z.log2 b)) by lia.
  rewrite Z.pow_add_r by lia. ring.
Qed.

Lemma new_location_zero (n : Z) : new_location n 0 = loc_Exact.
Proof.
  unfold new_location, new_location_even, new_location_odd.
  now destruct (Z.even n).
Qed.

(** Dividing a multiple of [n] by [n] in [Double] is exact below [2^53]. *)
Lemma div64_exact (n q : Z) :
  0 < n -> 0 < q -> n * q < 2 ^ 53 ->
  Fp.div64 (Fp.Z2D (n * q)) (Fp.Z2D n) = Fp.Z2D q.
Proof.
  intros N Q S.
  assert (Nn : 0 < n < 2 ^ 53) by nia.
  assert (Nq : 0 < q < 2 ^ 53) by nia.
  assert (Nnq : 0 < n * q < 2 ^ 53) by nia.
  rewrite !Z2D_pos by lia.
  pose proof (log2_below_53 n Nn) as Ln.
  pose proof (log2_below_53 q Nq) as Lq.
  pose proof (log2_below_53 _ Nnq) as Lnq.
  pose proof (mantissa64_pos n Nn) as Pn.
  pose proof (mantissa64_pos _ Nnq) as Pnq.
  pose proof (Z.log2_mul_above n q ltac:(lia) ltac:(lia)) as LA.
  assert (LB : Z.log2 n <= Z.log2 (n * q)) by (apply Z.log2_le_mono; nia).
  unfold Fp.exact64 at 1 2. unfold Fp.div64, SFdiv, SFdiv_core_binary.
  rewrite !Z2Pos.id by lia.
  rewrite !mantissa64_digits by lia.
  rewrite fexp64.
  set (e1 := Z.log2 (n * q) - 52). set (e2 := Z.log2 n - 52).
  replace (Z.min (Z.max (53 + e1 - (53 + e2) - 53) (-1074)) (e1 - e2))
    with (e1 - e2 - 53) by lia.
  replace (e1 - e2 - (e1 - e2 - 53)) with 53 by lia.
  cbv iota. rewrite Z.shiftl_mul_pow2 by lia.
  set (d := Z.log2 (n * q) - Z.log2 n).
  assert (D : 0 <= d <= 52) by (unfold d; lia).
  assert (E : n * q * 2 ^ (52 - Z.log2 (n * q)) * 2 ^ 53
              = (q * 2 ^ (53 - d)) * (n * 2 ^ (52 - Z.log2 n))).
  { replace (n * q * 2 ^ (52 - Z.log2 (n * q)) * 2 ^ 53)
      with (n * q * (2 ^ (52 - Z.log2 (n * q)) * 2 ^ 53)) by ring.
    rewrite <- Z.pow_add_r by lia.
    replace ((q * 2 ^ (53 - d)) * (n * 2 ^ (52 - Z.log2 n)))
      with (n * q * (2 ^ (53 - d) * 2 ^ (52 - Z.log2 n))) by ring.
    rewrite <- Z.pow_add_r by lia. f_equal. f_equal. unfold d. lia. }
  rewrite E.
  pose proof (Z.div_eucl_eq (q * 2 ^ (53 - d) * (n * 2 ^ (52 - Z.log2 n)))
                (n * 2 ^ (52 - Z.log2 n)) ltac:(lia)) as DE.
  pose proof (Z.mod_mul (q * 2 ^ (53 - d)) (n * 2 ^ (52 - Z.log2 n))
                ltac:(lia)) as MM.
  pose proof (Z.div_mul (q * 2 ^ (53 - d)) (n * 2 ^ (52 - Z.log2 n))
                ltac:(lia)) as DM.
  unfold Z.modulo in MM. unfold Z.div in DM.
  destruct (Z.div_eucl (q * 2 ^ (53 - d) * (n * 2 ^ (52 - Z.log2 n)))
              (n * 2 ^ (52 - Z.log2 n))) as [quo rem].
  cbn [fst snd] in MM, DM. subst quo rem.
  rewrite new_location_zero. cbn [xorb].
  apply round_aux64_int; [lia| |].
  - unfold e1, e2. lia.
  - f_equal. f_equal. unfold e1, e2, d. lia.
Qed.

Lemma div64_zero (n : Z) :
  0 < n < 2 ^ 53 -> Fp.div64 Fp.pzero (Fp.Z2D n) = Fp.pzero.
Proof.
  intros N. rewrite Z2D_pos by lia. reflexivity.
Qed.

End Binary64Ops.

(** ** Signs through the [Double] operations *)

Section Signs.

Lemma binary_round_aux_nonneg (prec emax m e : Z) (l : location) :
  0 <= m -> Fp.is_nonneg (binary_round_aux prec emax false m e l) = true.
Proof.
  intros H. pose proof (binary_round_aux_sign prec emax false m e l H) as S.
  destruct (binary_round_aux prec emax false m e l) as [s|s| |s p x];
    try (subst s; reflexivity). contradiction.
Qed.

Lemma div64_nonneg (x : spec_float) (my : positive) (ey : Z) :
  Fp.is_nonneg x = true ->
  Fp.is_nonneg (Fp.div64 x (S754_finite false my ey)) = true.
Proof.
  destruct x as [[]|[]| |[] mx ex]; try discriminate; try reflexivity.
  intros _. unfold Fp.div64, SFdiv.
  destruct (SFdiv_core_binary Fp.prec64 Fp.emax64 (Zpos mx) ex (Zpos my) ey)
    as [[mz ez] lz] eqn:C.
  apply binary_round_aux_nonneg.
  unfold SFdiv_core_binary in C.
  match type of C with
  | (let '(q, r) := Z.div_eucl ?a ?b in _) = _ =>
      assert (A : 0 <= a);
      [|pose proof (Z.div_pos a b A ltac:(lia)) as Q; unfold Z.div in Q;
        destruct (Z.div_eucl a b) as [q r]; cbn [fst] in Q;
        inversion C; subst; exact Q]
  end.
  match goal with
  | |- 0 <= match ?s with _ => _ end =>
      destruct s; [lia|apply Z.shiftl_nonneg; lia|lia]
  end.
Qed.

Lemma sqrt64_nonneg (x : spec_float) :
  Fp.is_nonneg x = true -> Fp.is_nonneg (Fp.sqrt64 x) = true.
Proof.
  destruct x as [[]|[]| |[] mx ex]; try discriminate; try reflexivity.
  intros _. unfold Fp.sqrt64, SFsqrt.
  destruct (SFsqrt_core_binary Fp.prec64 Fp.emax64 (Zpos mx) ex)
    as [[mz ez] lz] eqn:C.
  apply binary_round_aux_nonneg.
  unfold SFsqrt_core_binary in C.
  match type of C with
  | (let (q, r) := Z.sqrtrem ?a in _) = _ =>
      pose proof (Z.sqrtrem_sqrt a) as Q;
      pose proof (Z.sqrt_nonneg a) as P;
      destruct (Z.sqrtrem a) as [q r]; cbn [fst] in Q;
      inversion C; subst; lia
  end.
Qed.

Lemma toFloat_nonneg (x : spec_float) :
  Fp.is_nonneg x = true -> Fp.is_nonneg (Fp.toFloat x) = true.
Proof.
  destruct x as [[]|[]| |[] mx ex]; try discriminate; try reflexivity.
  intros _. unfold Fp.toFloat, binary_round.
  destruct (shl_align mx ex _) as [mz ez].
  apply binary_round_aux_nonneg. lia.
Qed.

(** On a number with a clear sign bit the clamp of the Swift code and the
    clamp of the spec agree. *)
Lemma clamped_nonneg (x : spec_float) :
  Fp.is_nonneg x = true ->
  Ios.clamped x Fp.pzero Fp.one32 = Fp.clamp x Fp.pzero Fp.one32.
Proof.
  destruct x as [[]|[]| |[] mx ex]; try discriminate; reflexivity.
Qed.

End Signs.

(** ** The loudness meter *)

Section LoudnessMeter.

Lemma square_int16 (s : Z) : int16 s -> 0 <= s * s <= 2 ^ 30.
Proof. unfold int16. intros H. change (2 ^ 30) with 1073741824. nia. Qed.

Lemma wrap32_square (s : Z) : int16 s -> wrap32 (s * s) = s * s.
Proof.
  intros H. pose proof (square_int16 s H) as B.
  change (2 ^ 30) with 1073741824 in B.
  unfold wrap32. rewrite Z.mod_small; lia.
Qed.

Lemma sumSquares_bounds (samples : list Z) :
  Forall int16 samples ->
  0 <= Loudness.sumSquares samples <= Z.of_nat (length samples) * 2 ^ 30.
Proof.
  induction 1 as [|s l H F IH]; cbn [Loudness.sumSquares fold_right length].
  - lia.
  - fold (Loudness.sumSquares l). pose proof (square_int16 s H). lia.
Qed.

Lemma sumSquares_below_53 (samples : list Z) :
  Forall int16 samples ->
  Z.of_nat (length samples) < 2 ^ 23 ->
  0 <= Loudness.sumSquares samples < 2 ^ 53.
Proof.
  intros F L. pose proof (sumSquares_bounds samples F) as B.
  change (2 ^ 53) with (2 ^ 23 * 2 ^ 30).
  assert (0 < 2 ^ 30) by reflexivity. nia.
Qed.

(** The [Double] square of a sample is its exact square. *)
Lemma mul64_sample (s : Z) :
  int16 s -> Fp.mul64 (Fp.Z2D s) (Fp.Z2D s) = Fp.Z2D (s * s).
Proof.
  intros H. pose proof (square_int16 s H) as B.
  assert (2 ^ 30 < 2 ^ 53) by reflexivity.
  destruct (Z.lt_trichotomy s 0) as [N|[->|P]].
  - replace s with (- - s) at 1 2 by lia.
    rewrite Z2D_neg by (unfold int16 in H; lia).
    rewrite mul64_exact by nia.
    replace (- s * - s) with (s * s) by ring.
    symmetry. apply Z2D_pos. nia.
  - reflexivity.
  - rewrite Z2D_pos by (unfold int16 in H; lia).
    rewrite mul64_exact by nia.
    symmetry. apply Z2D_pos. nia.
Qed.

(** The sum the Kotlin loop accumulates is the exact sum of squares. *)
Lemma kotlin_sum_exact (samples : list Z) :
  Forall int16 samples ->
  forall acc : Z,
    0 <= acc -> acc + Loudness.sumSquares samples < 2 ^ 53 ->
    fold_left
      (fun sum sample => Fp.add64 sum (Fp.Z2D (wrap32 (sample * sample))))
      samples (Fp.Z2D acc)
    = Fp.Z2D (acc + Loudness.sumSquares samples).
Proof.
  induction 1 as [|s l H F IH]; intros acc A B;
    cbn [Loudness.sumSquares fold_right fold_left] in *.
  - now rewrite Z.add_0_r.
  - fold (Loudness.sumSquares l) in *.
    pose proof (square_int16 s H) as Q.
    pose proof (sumSquares_bounds l F) as R.
    rewrite wrap32_square by exact H.
    rewrite add64_exact by lia.
    rewrite IH by lia. f_equal. lia.
Qed.

(** So is the sum the Swift loop accumulates. *)
Lemma swift_sum_exact (samples : list Z) :
  Forall int16 samples ->
  forall acc : Z,
    0 <= acc -> acc + Loudness.sumSquares samples < 2 ^ 53 ->
    fold_left
      (fun sum s =>
         let sample := Fp.Z2D s in Fp.add64 sum (Fp.mul64 sample sample))
      samples (Fp.Z2D acc)
    = Fp.Z2D (acc + Loudness.sumSquares samples).
Proof.
  induction 1 as [|s l H F IH]; intros acc A B;
    cbn [Loudness.sumSquares fold_right fold_left] in *.
  - now rewrite Z.add_0_r.
  - fold (Loudness.sumSquares l) in *.
    pose proof (square_int16 s H) as Q.
    pose proof (sumSquares_bounds l F) as R.
    cbv zeta. rewrite mul64_sample by exact H.
    rewrite add64_exact by lia.
    rewrite IH by lia. f_equal. lia.
Qed.

Lemma sumSquares_constant (v : Z) (samples : list Z) :
  (forall s, In s samples -> s = v) ->
  Loudness.sumSquares samples = Z.of_nat (length samples) * (v * v).
Proof.
  induction samples as [|s l IH]; intros H;
    cbn [Loudness.sumSquares fold_right length].
  - reflexivity.
  - fold (Loudness.sumSquares l).
    rewrite IH by (intros x X; apply H; now right).
    rewrite (H s) by now left. lia.
Qed.

Lemma Z2D_nonneg (n : Z) :
  0 <= n < 2 ^ 53 -> Fp.is_nonneg (Fp.Z2D n) = true.
Proof.
  intros H. destruct (Z.eq_dec n 0) as [->|N]; [reflexivity|].
  rewrite Z2D_pos by lia. reflexivity.
Qed.

(** The value under the clamp is a number with a clear sign bit. *)
Lemma amplitude_argument_nonneg (samples : list Z) :
  Forall int16 samples ->
  0 < Z.of_nat (length samples) < 2 ^ 23 ->
  Fp.is_nonneg
    (Fp.toFloat
       (Fp.div64
          (Fp.sqrt64
             (Fp.div64 (Fp.Z2D (Loudness.sumSquares samples))
                (Fp.Z2D (Z.of_nat (length samples)))))
          (Fp.Z2D 32767))) = true.
Proof.
  intros F L. pose proof (sumSquares_below_53 samples F ltac:(lia)) as B.
  assert (2 ^ 23 < 2 ^ 53) by reflexivity.
  apply toFloat_nonneg.
  change (Fp.Z2D 32767) with (Fp.exact64 false 32767).
  unfold Fp.exact64 at 1. apply div64_nonneg. apply sqrt64_nonneg.
  rewrite (Z2D_pos (Z.of_nat (length samples))) by lia.
  unfold Fp.exact64 at 1. apply div64_nonneg. now apply Z2D_nonneg.
Qed.

End LoudnessMeter.

Lemma firstn_length_app {A : Type} (l tail : list A) :
  firstn (length l) (l ++ tail) = l.
Proof.
  rewrite firstn_app, Nat.sub_diag, firstn_all. cbn. apply app_nil_r.
Qed.

(** C7. For every non-empty block of 16 bit samples (of fewer than [2^23]
    samples, far above any buffer the hardware hands over) the amplitude
    both implementations report is [clamp(sqrt(mean(sample_i^2)) / 32767,
    0.0, 1.0)]: the sum they accumulate in [Double] is the exact sum of
    the squares, and the mean, the square root, the quotient and the
    narrowing to [Float] are each correctly rounded.  Samples behind the
    block do not matter.  A block of zeros gives exactly [0.0]; a block
    whose samples are all [32767], or all [-32768], gives exactly [1.0]. *)
Theorem amplitude_is_clamped_rms
    (samples stale : list Z) (fmt : Ios.AVAudioFormat) :
  samples <> [] ->
  Forall int16 samples ->
  Z.of_nat (length samples) < 2 ^ 23 ->
  Android.calculateRMS (samples ++ stale) (Z.of_nat (length samples))
  = Some (Loudness.amplitude samples) /\
  Ios.calculateRMS
    {| Ios.format := fmt; Ios.frameLength := length samples;
       Ios.channelData := Ios.Int16Samples (samples ++ stale) |}
  = Loudness.amplitude samples /\
  ((forall s, In s samples -> s = 0) ->
   Loudness.amplitude samples = Fp.pzero) /\
  ((forall s, In s samples -> s = 32767) ->
   Loudness.amplitude samples = Fp.one32) /\
  ((forall s, In s samples -> s = -32768) ->
   Loudness.amplitude samples = Fp.one32).
Proof.
  intros NE F L.
  assert (P : 0 < Z.of_nat (length samples)).
  { destruct samples; [congruence|cbn; lia]. }
  pose proof (sumSquares_below_53 samples F L) as B.
  assert (T : 2 ^ 23 < 2 ^ 53) by reflexivity.
  split; [|split; [|split; [|split]]].
  - rewrite calculateRMS_prefix by (rewrite length_app; lia).
    rewrite Nat2Z.id, firstn_length_app.
    change Fp.pzero with (Fp.Z2D 0) at 1.
    rewrite kotlin_sum_exact by (try exact F; lia).
    rewrite coerceIn_unit. reflexivity.
  - unfold Ios.calculateRMS.
    cbn [Ios.int16ChannelData Ios.channelData Ios.frameLength].
    rewrite firstn_length_app.
    change Fp.pzero with (Fp.Z2D 0) at 1.
    rewrite swift_sum_exact by (try exact F; lia).
    cbn [Z.add]. rewrite clamped_nonneg; [reflexivity|].
    now apply amplitude_argument_nonneg.
  - intros Z. unfold Loudness.amplitude.
    rewrite (sumSquares_constant 0) by exact Z.
    rewrite Z.mul_0_r, Z2D_zero, div64_zero by lia. reflexivity.
  - intros M. unfold Loudness.amplitude.
    rewrite (sumSquares_constant 32767) in * by exact M.
    rewrite div64_exact by lia. vm_compute. reflexivity.
  - intros M. unfold Loudness.amplitude.
    rewrite (sumSquares_constant (-32768)) in * by exact M.
    rewrite div64_exact by lia. vm_compute. reflexivity.
Qed.

Lemma amplitude_is_clamped_rms_witness :
  Android.calculateRMS ([3; -4; 0] ++ [99]) 3
  = Some (Loudness.amplitude [3; -4; 0]) /\
  Ios.calculateRMS
    {| Ios.format := Ios.targetFormat; Ios.frameLength := 3;
       Ios.channelData := Ios.Int16Samples ([3; -4; 0] ++ [99]) |}
  = Loudness.amplitude [3; -4; 0] /\
  ((forall s, In s [3; -4; 0] -> s = 0) ->
   Loudness.amplitude [3; -4; 0] = Fp.pzero) /\
  ((forall s, In s [3; -4; 0] -> s = 32767) ->
   Loudness.amplitude [3; -4; 0] = Fp.one32) /\
  ((forall s, In s [3; -4; 0] -> s = -32768) ->
   Loudness.amplitude [3; -4; 0] = Fp.one32).
Proof.
  apply (amplitude_is_clamped_rms [3; -4; 0] [99] Ios.targetFormat).
  - discriminate.
  - repeat constructor; unfold int16; lia.
  - cbn. lia.
Defined.

(** ** The gain stage *)

Section GainStage.

Lemma one32_eq : Fp.one32 = S754_finite false 8388608 (-23).
Proof. reflexivity. Qed.

Lemma mone32_eq : Fp.mone32 = S754_finite true 8388608 (-23).
Proof. reflexivity. Qed.

Lemma compare_cont_flip (p q : positive) :
  Pos.compare_cont Eq q p = CompOpp (Pos.compare_cont Eq p q).
Proof. exact (Pos.compare_antisym p q). Qed.

(** Decides the comparisons of a finite number with one and minus one
    from the comparison of its exponent with [-23] and of its mantissa
    with [2^23]. *)
Ltac compare_with_one e m E M :=
  repeat (cbn [CompOpp SFcompare SFabs];
          rewrite ?(Z.compare_antisym e (-23)),
                  ?(compare_cont_flip m 8388608), ?E, ?M).


(** The clamp of the Swift code and the clamp of the spec agree on every
    number. *)
Lemma gain_clamp_agrees (b : spec_float) :
  Fp.is_nan b = false ->
  Ios.max Fp.mone32 (Ios.min Fp.one32 b) = Fp.clamp b Fp.mone32 Fp.one32.
Proof.
  rewrite one32_eq, mone32_eq.
  unfold Ios.max, Ios.min, Fp.clamp, Fp.flt, Fp.fge, Fp.fgt, SFltb, SFleb.
  destruct b as [[]|[]| |[] m e]; cbn [SFcompare Fp.is_nan];
    try discriminate; try reflexivity; intros _;
    destruct (e ?= -23) eqn:E;
    destruct (Pos.compare_cont Eq m 8388608) eqn:M;
    compare_with_one e m E M; try reflexivity.
  apply Z.compare_eq in E. apply Pos.compare_eq in M. now subst.
Qed.


(** A product that is not a number leaves the gain stage as one. *)
Remark gainSample_nan (g : spec_float) :
  Ios.gainSample g S754_nan = Fp.one32.
Proof. reflexivity. Qed.


End GainStage.

Section GainBlocks.

Variable A : Type.
Variable f : A -> A.


End GainBlocks.



(** * Further properties *)

(** ** Sessions of the Android module *)

Ltac count_calls :=
  unfold Android.count in *; cbn in *;
  repeat rewrite ?filter_app, ?length_app in *; cbn in *; try lia.

Section AndroidSteps.

Import Android.

Lemma replace_job_same (js : list Job) (j : nat) (x : Job) :
  nth_error js j = Some x -> replace_job j x js = js.
Proof.
  revert j. induction js as [|hd tl IH]; intros [|j] H; cbn in *;
    try discriminate; [congruence|].
  now rewrite IH.
Qed.

Lemma replace_job_twice (js : list Job) (j : nat) (x y : Job) :
  replace_job j y (replace_job j x js) = replace_job j y js.
Proof.
  revert j. induction js as [|hd tl IH]; intros [|j]; cbn; auto.
  now rewrite IH.
Qed.

Lemma set_jobs_same (s : State) : set_jobs (jobs s) s = s.
Proof. now destruct s. Qed.

(** A turn of the loop is its three steps taken without interruption. *)
Lemma loopIteration_in_steps (hw : HwRead) (j : nat) (s : State) :
  loopIteration hw j s
  = let '(s1, entered) := loopTest j s in
    if entered then
      let '(s2, result) := loopRead hw j s1 in loopSend j result s2
    else s1.
Proof.
  unfold loopIteration, loopTest.
  destruct (nth_error (jobs s) j) as [job|] eqn:J; [|reflexivity].
  destruct (finished job) eqn:F; [reflexivity|].
  destruct (negb (negb (cancelled job) && isRecording s)); [reflexivity|].
  unfold loopRead. rewrite J, F.
  destruct (audioRecord s) as [r|] eqn:A.
  - unfold loopSend. cbn [jobs set_jobs].
    rewrite (nth_error_replace_job _ _ _ _ J). cbn [buffer cancelled].
    destruct (0 <? readResult hw); [|reflexivity].
    match goal with
    | |- context [shortArrayToBase64 ?b ?n] =>
        destruct (shortArrayToBase64 b n); [destruct (calculateRMS b n)|]
    end; cbn; rewrite ?replace_job_twice; reflexivity.
  - assert (E : {| cancelled := cancelled job; finished := false;
                   buffer := buffer job |} = job)
      by (destruct job; cbn in *; congruence).
    rewrite E, (replace_job_same _ _ _ J), set_jobs_same.
    unfold loopSend. rewrite J. reflexivity.
Qed.

Lemma loopFrame_refl (s : State) : AndroidLoop.loopFrame s s.
Proof.
  repeat split; auto. exists []. rewrite app_nil_r. split; [auto|now left].
Qed.

Lemma loopTest_frame (j : nat) (s : State) :
  AndroidLoop.loopFrame s (fst (loopTest j s)).
Proof.
  unfold loopTest.
  destruct (nth_error (jobs s) j) as [job|]; [|apply loopFrame_refl].
  destruct (finished job); [apply loopFrame_refl|].
  destruct (negb _); [|apply loopFrame_refl].
  repeat split; cbn; auto using length_replace_job.
  exists []. rewrite app_nil_r. split; [auto|now left].
Qed.

Lemma loopRead_frame (hw : HwRead) (j : nat) (s : State) :
  AndroidLoop.loopFrame s (fst (loopRead hw j s)).
Proof.
  unfold loopRead.
  destruct (nth_error (jobs s) j) as [job|]; [|apply loopFrame_refl].
  destruct (audioRecord s); [|apply loopFrame_refl].
  repeat split; cbn; auto using length_replace_job.
  exists []. rewrite app_nil_r. split; [auto|now left].
Qed.

Lemma loopSend_frame (j : nat) (result : Z) (s : State) :
  AndroidLoop.loopFrame s (loopSend j result s).
Proof.
  unfold loopSend.
  destruct (nth_error (jobs s) j) as [job|]; [|apply loopFrame_refl].
  destruct (0 <? result); [|apply loopFrame_refl].
  destruct (shortArrayToBase64 (buffer job) result) as [d|];
    [destruct (calculateRMS (buffer job) result) as [a|]|];
    repeat split; cbn; auto using length_replace_job;
    eexists; (split; [reflexivity|]); unfold AndroidLoop.loopCalls; eauto.
Qed.

Lemma advance_frame (hw : HwRead) (j : nat) (f : AndroidLoop.Fine) :
  AndroidLoop.loopFrame (AndroidLoop.android f)
    (AndroidLoop.android (AndroidLoop.advance hw j f)).
Proof.
  unfold AndroidLoop.advance.
  destruct (AndroidLoop.phaseOf j (AndroidLoop.phases f)) as [| |r].
  - pose proof (loopTest_frame j (AndroidLoop.android f)) as H.
    destruct (loopTest j (AndroidLoop.android f)); exact H.
  - pose proof (loopRead_frame hw j (AndroidLoop.android f)) as H.
    destruct (loopRead hw j (AndroidLoop.android f)); exact H.
  - apply loopSend_frame.
Qed.

Lemma loopCalls_count (c : Call) (extra : list Call) :
  AndroidLoop.loopCalls extra ->
  c <> UncaughtException -> count c extra = O.
Proof.
  intros [->|[(d & a & ->)| ->]] N; destruct c; try reflexivity; congruence.
Qed.



(** *** What each operation keeps *)

Lemma stopRecording_idle (env : Env) (s : State) :
  AndroidSession.idle (stopRecording env s).
Proof.
  destruct s as [rec job ar wl req lis fgs js tr].
  unfold AndroidSession.idle, stopRecording, abandonAudioFocus,
    stopForegroundService, releaseWakeLock.
  cbn.
  destruct job as [j|]; [destruct (nth_error js j)|];
    destruct ar as [[[]]|]; destruct wl as [[]|];
    destruct (reactContext env); destruct (sdkAtLeastO env); destruct req;
    cbn; auto.
Qed.









Lemma startRecording_accounted (env : Env) (s : State) :
  AndroidSession.accounted s ->
  AndroidSession.accounted (fst (startRecording env s)).
Proof.
  destruct s as [rec job ar wl req lis fgs js tr].
  unfold AndroidSession.accounted, startRecording, requestAudioFocus,
    AndroidSession.heldCount, AndroidSession.handleCount.
  cbn.
  destruct rec; [auto|].
  destruct (reactContext env); [|auto].
  destruct (permissionGranted env); [|auto]. cbn.
  intros (A & B & C).
  destruct wl as [[]|]; destruct ar as [[[]]|];
    destruct (focusGranted env); cbn;
    try (destruct (constructorThrows env); cbn;
         try (destruct (recordInitialized env); cbn));
    count_calls.
Qed.

Lemma stopRecording_accounted (env : Env) (s : State) :
  AndroidSession.accounted s ->
  AndroidSession.accounted (stopRecording env s).
Proof.
  destruct s as [rec job ar wl req lis fgs js tr].
  unfold AndroidSession.accounted, stopRecording, abandonAudioFocus,
    stopForegroundService, releaseWakeLock, AndroidSession.heldCount,
    AndroidSession.handleCount.
  cbn. intros (A & B & C).
  destruct job as [j|]; [destruct (nth_error js j)|];
    destruct ar as [[[]]|]; destruct wl as [[]|];
    destruct (reactContext env); destruct (sdkAtLeastO env); destruct req;
    cbn; count_calls.
Qed.

Lemma deliverFocusChange_accounted (env : Env) (c : FocusChange) (s : State) :
  AndroidSession.accounted s ->
  AndroidSession.accounted (deliverFocusChange env c s).
Proof.
  intros W. unfold deliverFocusChange.
  destruct (focusListener s); [|exact W].
  destruct c; cbn [onAudioFocusChange].
  - destruct s as [rec job ar wl req lis fgs js tr].
    unfold AndroidSession.accounted, AndroidSession.heldCount,
      AndroidSession.handleCount in *. cbn in *.
    destruct W as (A & B & C).
    destruct ar as [[[]]|]; destruct rec; destruct wl as [[]|]; cbn;
      count_calls.
  - now apply stopRecording_accounted.
  - destruct s as [rec job ar wl req lis fgs js tr]. exact W.
  - exact W.
Qed.


Lemma loopFrame_accounted (s s' : State) :
  AndroidLoop.loopFrame s s' ->
  AndroidSession.accounted s -> AndroidSession.accounted s'.
Proof.
  intros (_ & _ & A & W & _ & _ & _ & _ & extra & T & L).
  unfold AndroidSession.accounted, AndroidSession.heldCount,
    AndroidSession.handleCount. cbv zeta.
  rewrite A, W, T, !count_app, !(loopCalls_count _ extra L) by discriminate.
  rewrite !Nat.add_0_r. auto.
Qed.

Lemma loopIteration_accounted (hw : HwRead) (j : nat) (s : State) :
  AndroidSession.accounted s -> AndroidSession.accounted (loopIteration hw j s).
Proof.
  rewrite loopIteration_in_steps.
  pose proof (loopTest_frame j s) as T.
  destruct (loopTest j s) as [s1 entered]. cbn [fst] in T.
  intros A. apply (loopFrame_accounted _ _ T) in A.
  destruct entered; [|exact A].
  pose proof (loopRead_frame hw j s1) as R.
  destruct (loopRead hw j s1) as [s2 result]. cbn [fst] in R.
  apply (loopFrame_accounted _ _ (loopSend_frame j result s2)).
  now apply (loopFrame_accounted _ _ R).
Qed.

End AndroidSteps.

Section AndroidRuns.

Import Android AndroidLoop.






End AndroidRuns.




Section CoarseRuns.

Import Android AndroidSession.

(** The same accounting over whole turns of the loops. *)
Lemma resources_accounted_aux (actions : list Action) :
  accounted (run actions initial).
Proof.
  assert (H : forall actions s, accounted s -> accounted (run actions s)).
  { clear. induction actions as [|a tl IH]; intros s A; [exact A|].
    apply IH. destruct a as [env|env|env c|hw j]; cbn [step].
    - now apply startRecording_accounted.
    - now apply stopRecording_accounted.
    - now apply deliverFocusChange_accounted.
    - now apply loopIteration_accounted. }
  apply H. unfold accounted. cbn. lia.
Qed.

End CoarseRuns.

Section AfterStop.

Import Android AndroidLoop.













End AfterStop.



Section StartAndLoss.

Import Android.

(** X4. [startRecording] resolves exactly when the module is not already
    recording, the React context exists, the permission and the audio
    focus are granted and the [AudioRecord] is built and initialised.
    When the module is already recording, or has no context or no
    permission, it is left untouched.  A call that resolves makes exactly
    six platform calls, in this order, and leaves one fresh capture loop
    running on an array of [BUFFER_SIZE / 2] zeros.  A call that does not
    resolve never changes the recording flag. *)
Theorem startRecording_outcomes (env : Env) (s : State) :
  let s' := fst (startRecording env s) in
  let outcome := snd (startRecording env s) in
  (outcome = Resolved <->
   isRecording s = false /\ reactContext env = true /\
   permissionGranted env = true /\ focusGranted env = true /\
   constructorThrows env = false /\ recordInitialized env = true) /\
  (isRecording s = true \/ reactContext env = false \/
   permissionGranted env = false -> s' = s) /\
  (outcome = Resolved ->
   trace s'
   = trace s ++ [StartForegroundService; WakeLockAcquire; RequestAudioFocus;
                 NewAudioRecord; HwStartRecording;
                 LaunchLoop (length (jobs s))] /\
   recordingJob s' = Some (length (jobs s)) /\
   jobs s'
   = jobs s ++ [{| cancelled := false; finished := false;
                   buffer := repeat 0 (Z.to_nat (Z.quot (BUFFER_SIZE env) 2))
                |}] /\
   jobRunning s' (length (jobs s)) = true) /\
  (outcome <> Resolved -> isRecording s' = isRecording s).
Proof.
  intros s' outcome.
  assert (R : outcome = Resolved ->
              startRecording env s = (s', Resolved)).
  { unfold outcome, s'. destruct (startRecording env s) as [x o]. cbn.
    now intros ->. }
  split; [split|split; [|split]].
  - intros O. now apply (startRecording_resolved_state env s s'), R.
  - intros (A & B & C & D & E & F). unfold outcome, startRecording.
    rewrite A, B, C. cbn [negb]. unfold requestAudioFocus.
    rewrite D, E, F. reflexivity.
  - unfold s', startRecording.
    destruct (isRecording s); [reflexivity|].
    destruct (reactContext env); [|reflexivity].
    destruct (permissionGranted env); [|reflexivity].
    intros [H|[H|H]]; discriminate.
  - intros O. destruct (startRecording_resolved_state env s s' (R O))
      as (_ & E).
    rewrite E. destruct s as [rec job ar wl req lis fgs js tr].
    unfold jobRunning. cbn. rewrite <- !app_assoc. cbn.
    repeat split; auto.
    rewrite nth_error_app2, Nat.sub_diag by lia. reflexivity.
  - unfold outcome, s', startRecording.
    destruct (isRecording s) eqn:A; [auto|].
    destruct (reactContext env); [|auto].
    destruct (permissionGranted env); [|auto].
    cbn [negb]. unfold requestAudioFocus.
    destruct (focusGranted env); [|cbn; auto].
    destruct (constructorThrows env); [cbn; auto|].
    destruct (recordInitialized env); [|cbn; auto].
    cbn. congruence.
Qed.

Lemma startRecording_outcomes_witness :
  snd (startRecording Examples.granted initial) = Resolved /\
  fst (startRecording Examples.focusDenied Examples.recording)
  = Examples.recording /\
  jobRunning (fst (startRecording Examples.granted initial)) 0 = true /\
  isRecording (fst (startRecording Examples.focusDenied initial)) = false.
Proof.
  destruct (startRecording_outcomes Examples.granted initial)
    as (A & _ & C & _).
  destruct (startRecording_outcomes Examples.focusDenied Examples.recording)
    as (_ & B & _).
  destruct (startRecording_outcomes Examples.focusDenied initial)
    as (_ & _ & _ & D).
  assert (O : snd (startRecording Examples.granted initial) = Resolved).
  { apply A. repeat split; reflexivity. }
  split; [exact O|]. split; [apply B; left; reflexivity|].
  split; [apply (C O)|]. apply D. discriminate.
Defined.

(** What [stopRecording] adds to the trace when it finds an initialised
    handle and a held wake lock. *)
Lemma stopRecording_counts (env : Env) (s : State) :
  audioRecord s = Some {| initialized := true |} ->
  wakeLock s = Some true ->
  reactContext env = true ->
  let s' := stopRecording env s in
  count HwStop (trace s') = S (count HwStop (trace s)) /\
  count HwRelease (trace s') = S (count HwRelease (trace s)) /\
  count WakeLockRelease (trace s') = S (count WakeLockRelease (trace s)) /\
  count StopService (trace s') = S (count StopService (trace s)) /\
  count NewAudioRecord (trace s') = count NewAudioRecord (trace s).
Proof.
  destruct s as [rec job ar wl req lis fgs js tr]. cbn.
  intros -> -> C.
  unfold stopRecording, abandonAudioFocus, stopForegroundService,
    releaseWakeLock.
  cbn. rewrite C.
  destruct job as [j|]; [destruct (nth_error js j)|];
    destruct (sdkAtLeastO env); destruct req; cbn; count_calls.
Qed.

(** What [stopRecording] adds to the trace when it finds an initialised
    handle, whatever has become of the wake lock and of the context. *)
Lemma stopRecording_counts_any (env : Env) (s : State) (held : bool) :
  audioRecord s = Some {| initialized := true |} ->
  wakeLock s = Some held ->
  let s' := stopRecording env s in
  isRecording s' = false /\
  audioRecord s' = None /\
  wakeLock s' = None /\
  foregroundService s' = (negb (reactContext env) && foregroundService s) /\
  count HwStop (trace s') = S (count HwStop (trace s)) /\
  count HwRelease (trace s') = S (count HwRelease (trace s)) /\
  count WakeLockRelease (trace s')
  = ((if held then 1 else 0) + count WakeLockRelease (trace s))%nat /\
  count StopService (trace s')
  = ((if reactContext env then 1 else 0) + count StopService (trace s))%nat.
Proof.
  destruct s as [rec job ar wl req lis fgs js tr]. cbn.
  intros -> ->.
  unfold stopRecording, abandonAudioFocus, stopForegroundService,
    releaseWakeLock.
  cbn.
  destruct job as [j|]; [destruct (nth_error js j)|];
    destruct held; destruct (reactContext env);
    destruct (sdkAtLeastO env); destruct req; cbn;
    repeat split; count_calls.
Qed.

Lemma wakeLockTimeout_set (s : State) (held : bool) :
  wakeLock s = Some held -> wakeLockTimeout s = set_wakeLock (Some false) s.
Proof.
  destruct s as [rec job ar wl req lis fgs js tr]. cbn. intros ->.
  now destruct held.
Qed.

(** Steps of the loops and the timeout, from a state whose wake lock is
    held. *)
Lemma onlyLoops_run (actions : list AndroidLoop.Action) :
  forall (f : AndroidLoop.Fine) (held : bool),
    AndroidLoop.onlyLoops actions = true ->
    wakeLock (AndroidLoop.android f) = Some held ->
    let s := AndroidLoop.android f in
    let s' := AndroidLoop.android (AndroidLoop.run actions f) in
    isRecording s' = isRecording s /\
    audioRecord s' = audioRecord s /\
    focusListener s' = focusListener s /\
    foregroundService s' = foregroundService s /\
    wakeLock s' = Some (held && negb (AndroidLoop.timedOut actions)) /\
    (forall c, c <> UncaughtException ->
               count c (trace s') = count c (trace s)).
Proof.
  induction actions as [|a tl IH]; intros f held O W; cbn zeta.
  - cbn. rewrite andb_true_r. repeat split; auto.
  - cbn in O. apply andb_true_iff in O. destruct O as [Oa Otl].
    change (AndroidLoop.run (a :: tl) f)
      with (AndroidLoop.run tl (AndroidLoop.step a f)).
    destruct a as [env|env|env c| |hw j]; try discriminate.
    + change (AndroidLoop.android (AndroidLoop.step AndroidLoop.Timeout f))
        with (wakeLockTimeout (AndroidLoop.android f)) in *.
      assert (T : wakeLockTimeout (AndroidLoop.android f)
                  = set_wakeLock (Some false) (AndroidLoop.android f)).
      { now apply (wakeLockTimeout_set _ held). }
      assert (W1 : wakeLock (wakeLockTimeout (AndroidLoop.android f))
                   = Some false) by (rewrite T; reflexivity).
      destruct (IH (AndroidLoop.step AndroidLoop.Timeout f) false Otl W1)
        as (A & B & C & D & E & F).
      cbn zeta in *.
      change (AndroidLoop.android (AndroidLoop.step AndroidLoop.Timeout f))
        with (wakeLockTimeout (AndroidLoop.android f)) in *.
      rewrite A, B, C, D, E, T.
      cbn [AndroidLoop.timedOut existsb AndroidLoop.isTimeout orb negb andb].
      rewrite andb_false_r.
      repeat split; auto. intros c N. rewrite (F c N), T. reflexivity.
    + pose proof (advance_frame hw j f)
        as (R1 & _ & A1 & W1 & _ & L1 & F1 & _ & extra & T1 & X1).
      assert (W2 : wakeLock (AndroidLoop.android
                               (AndroidLoop.step (AndroidLoop.Step hw j) f))
                   = Some held) by (cbn [AndroidLoop.step]; congruence).
      destruct (IH _ held Otl W2) as (A & B & C & D & E & F).
      cbn zeta in *. cbn [AndroidLoop.step] in *.
      rewrite A, B, C, D, E, R1, A1, L1, F1.
      repeat split; auto.
      intros c N. rewrite (F c N), T1, count_app.
      rewrite (loopCalls_count c extra X1 N). lia.
Qed.

(** X5. When audio focus is lost for good during a session, whatever
    steps the capture loops have taken since the start and whether or not
    the wake lock's ten minutes have passed, the listener ends the
    session: the module is not recording and no capture loop can pass its
    test, the [AudioRecord] is stopped and released once and the wake
    lock field is cleared.  The wake lock is released once if its ten
    minutes had not passed, and not at all otherwise.  The foreground
    service is stopped if the React context still exists; if it does not,
    [stopService] is not called and the service keeps running. *)
Theorem permanent_loss_ends_session
    (env0 env : Env) (s0 s : State) (standing : list (nat * AndroidLoop.Phase))
    (actions : list AndroidLoop.Action) :
  startRecording env0 s0 = (s, Resolved) ->
  AndroidLoop.onlyLoops actions = true ->
  let f :=
    AndroidLoop.run actions
      {| AndroidLoop.android := s; AndroidLoop.phases := standing |} in
  let s' := deliverFocusChange env AUDIOFOCUS_LOSS (AndroidLoop.android f) in
  isRecording s' = false /\
  runningLoops s' = O /\
  audioRecord s' = None /\
  wakeLock s' = None /\
  foregroundService s' = negb (reactContext env) /\
  count HwStop (trace s') = S (count HwStop (trace s0)) /\
  count HwRelease (trace s') = S (count HwRelease (trace s0)) /\
  count WakeLockRelease (trace s')
  = ((if AndroidLoop.timedOut actions then 0 else 1)
     + count WakeLockRelease (trace s0))%nat /\
  count StopService (trace s')
  = ((if reactContext env then 1 else 0)
     + count StopService (trace s0))%nat.
Proof.
  intros H O f s'.
  destruct (startRecording_resolved_state env0 s0 s H)
    as ((_ & _ & _ & G & _ & _) & E).
  assert (Ls : focusListener s = true).
  { rewrite E. unfold requestAudioFocus. rewrite G. reflexivity. }
  assert (As : audioRecord s = Some {| initialized := true |})
    by (rewrite E; reflexivity).
  assert (Ws : wakeLock s = Some true) by (rewrite E; reflexivity).
  assert (Fs : foregroundService s = true) by (rewrite E; reflexivity).
  destruct (onlyLoops_run actions
              {| AndroidLoop.android := s; AndroidLoop.phases := standing |}
              true O Ws) as (_ & A & L & F & W & K).
  fold f in A, L, F, W, K. cbn [AndroidLoop.android andb] in A, L, F, W, K.
  set (t := AndroidLoop.android f) in *.
  assert (S' : s' = stopRecording env t).
  { unfold s', deliverFocusChange. fold t. rewrite L, Ls. reflexivity. }
  destruct (stopRecording_counts_any env t _ (eq_trans A As) W)
    as (k1 & k2 & k3 & k4 & c1 & c2 & c3 & c4).
  rewrite S'. cbn zeta in *.
  rewrite k1, k2, k3, k4, c1, c2, c3, c4, F, Fs, andb_true_r,
    !K by discriminate.
  assert (T : forall c, count c (trace s)
                        = (count c (trace s0)
                           + count c [StartForegroundService; WakeLockAcquire;
                                      RequestAudioFocus; NewAudioRecord;
                                      HwStartRecording;
                                      LaunchLoop (length (jobs s0))])%nat).
  { intros c. rewrite <- count_app. f_equal.
    rewrite E. destruct s0; cbn. rewrite <- !app_assoc. reflexivity. }
  rewrite !T. cbn.
  repeat split; auto; try lia.
  - unfold runningLoops. now rewrite k1.
  - destruct (AndroidLoop.timedOut actions); cbn; lia.
Qed.

Lemma permanent_loss_ends_session_witness :
  let late :=
    deliverFocusChange Examples.granted AUDIOFOCUS_LOSS
      (AndroidLoop.android
         (AndroidLoop.run
            [AndroidLoop.Step Examples.failedRead 0; AndroidLoop.Timeout]
            {| AndroidLoop.android := Examples.recording;
               AndroidLoop.phases := [] |})) in
  audioRecord late = None /\
  count HwRelease (trace late) = 1%nat /\
  count WakeLockRelease (trace late) = O /\
  count StopService (trace late) = 1%nat.
Proof.
  destruct (permanent_loss_ends_session Examples.granted Examples.granted
              initial Examples.recording []
              [AndroidLoop.Step Examples.failedRead 0; AndroidLoop.Timeout]
              eq_refl eq_refl)
    as (_ & _ & A & _ & _ & _ & B & C & D).
  intros late. split; [exact A|]. split; [exact B|].
  split; [exact C|exact D].
Defined.

End StartAndLoss.

Section Restart.

Import Android AndroidSession.

(** X6. [startRecording] never stops or releases a handle it finds in
    the field.  When it resolves in a reachable state that still holds an
    initialised [AudioRecord] (after a transient loss of focus), it
    creates a second one and only overwrites the field; after the next
    [stopRecording] the module is idle and one more [AudioRecord] has
    been created than released. *)
Theorem restart_abandons_handle (actions : list Action) (env env' : Env) :
  let s := run actions initial in
  let s1 := fst (startRecording env s) in
  let s2 := stopRecording env' s1 in
  audioRecord s = Some {| initialized := true |} ->
  snd (startRecording env s) = Resolved ->
  reactContext env' = true ->
  count NewAudioRecord (trace s1) = S (count NewAudioRecord (trace s)) /\
  count HwStop (trace s1) = count HwStop (trace s) /\
  count HwRelease (trace s1) = count HwRelease (trace s) /\
  idle s2 /\
  (count HwRelease (trace s2) < count NewAudioRecord (trace s2))%nat.
Proof.
  intros s s1 s2 A O C.
  destruct (resources_accounted_aux actions) as (_ & B1 & B2).
  fold s in B1, B2. unfold handleCount in B2. rewrite A in B2. cbn in B2.
  assert (R : startRecording env s = (s1, Resolved)).
  { unfold s1. destruct (startRecording env s) as [x o]. cbn in *.
    now subst. }
  destruct (startRecording_resolved_state env s s1 R) as (_ & E).
  assert (T : forall c, count c (trace s1)
                        = (count c (trace s)
                           + count c [StartForegroundService; WakeLockAcquire;
                                      RequestAudioFocus; NewAudioRecord;
                                      HwStartRecording;
                                      LaunchLoop (length (jobs s))])%nat).
  { intros c. rewrite <- count_app. f_equal.
    rewrite E. destruct s; cbn. rewrite <- !app_assoc. reflexivity. }
  assert (A1 : audioRecord s1 = Some {| initialized := true |})
    by (rewrite E; reflexivity).
  assert (W1 : wakeLock s1 = Some true) by (rewrite E; reflexivity).
  destruct (stopRecording_counts env' s1 A1 W1 C) as (_ & c2 & _ & _ & c5).
  fold s2 in c2, c5.
  split; [rewrite T; cbn; lia|]. split; [rewrite T; cbn; lia|].
  split; [rewrite T; cbn; lia|]. split; [apply stopRecording_idle|].
  rewrite c2, c5, !T. cbn. lia.
Qed.

Lemma restart_abandons_handle_witness :
  let s :=
    run [Start Examples.granted;
         Focus Examples.granted AUDIOFOCUS_LOSS_TRANSIENT] initial in
  let s1 := fst (startRecording Examples.granted s) in
  let s2 := stopRecording Examples.granted s1 in
  count NewAudioRecord (trace s1) = S (count NewAudioRecord (trace s)) /\
  count HwStop (trace s1) = count HwStop (trace s) /\
  count HwRelease (trace s1) = count HwRelease (trace s) /\
  idle s2 /\
  (count HwRelease (trace s2) < count NewAudioRecord (trace s2))%nat.
Proof.
  apply (restart_abandons_handle
           [Start Examples.granted;
            Focus Examples.granted AUDIOFOCUS_LOSS_TRANSIENT]
           Examples.granted Examples.granted); reflexivity.
Defined.

End Restart.

(** ** The range of the amplitude *)

Ltac against_one e m E M :=
  repeat (cbn [CompOpp SFcompare SFabs];
          rewrite ?(Z.compare_antisym e (-23)),
                  ?(compare_cont_flip m 8388608), ?E, ?M).

Section AmplitudeRange.

Lemma binary_round_nonneg (prec emax : Z) (m : positive) (e : Z) :
  Fp.is_nonneg (binary_round prec emax false m e) = true.
Proof.
  unfold binary_round. destruct (shl_align m e _) as [mz ez].
  apply binary_round_aux_nonneg. lia.
Qed.

Lemma Z2D_nonneg_any (n : Z) : 0 <= n -> Fp.is_nonneg (Fp.Z2D n) = true.
Proof.
  intros H. destruct n as [|p|p]; try lia; [reflexivity|].
  apply binary_round_nonneg.
Qed.

Lemma add64_nonneg (x y : spec_float) :
  Fp.is_nonneg x = true -> Fp.is_nonneg y = true ->
  Fp.is_nonneg (Fp.add64 x y) = true.
Proof.
  destruct x as [[]|[]| |[] mx ex]; try discriminate;
    destruct y as [[]|[]| |[] my ey]; try discriminate;
    try reflexivity.
  intros _ _. unfold Fp.add64, SFadd. cbn [cond_Zopp].
  rewrite <- Pos2Z.inj_add. unfold binary_normalize.
  apply binary_round_nonneg.
Qed.

Lemma kotlin_sum_nonneg (samples : list Z) :
  Forall int16 samples ->
  forall acc : spec_float,
    Fp.is_nonneg acc = true ->
    Fp.is_nonneg
      (fold_left
         (fun sum sample => Fp.add64 sum (Fp.Z2D (wrap32 (sample * sample))))
         samples acc) = true.
Proof.
  induction 1 as [|s l H F IH]; intros acc A; cbn [fold_left]; [exact A|].
  apply IH. apply add64_nonneg; [exact A|].
  rewrite wrap32_square by exact H.
  apply Z2D_nonneg_any. pose proof (square_int16 s H). lia.
Qed.

Lemma swift_sum_nonneg (samples : list Z) :
  Forall int16 samples ->
  forall acc : spec_float,
    Fp.is_nonneg acc = true ->
    Fp.is_nonneg
      (fold_left
         (fun sum s =>
            let sample := Fp.Z2D s in Fp.add64 sum (Fp.mul64 sample sample))
         samples acc) = true.
Proof.
  induction 1 as [|s l H F IH]; intros acc A; cbn [fold_left]; [exact A|].
  apply IH. cbv zeta. apply add64_nonneg; [exact A|].
  rewrite mul64_sample by exact H.
  apply Z2D_nonneg_any. pose proof (square_int16 s H). lia.
Qed.

(** A number that is not above one is at most one. *)
Lemma clamp_unit_range (x : spec_float) :
  Fp.is_nonneg x = true ->
  Fp.is_nonneg (Fp.clamp x Fp.pzero Fp.one32) = true /\
  Fp.fle (Fp.clamp x Fp.pzero Fp.one32) Fp.one32 = true.
Proof.
  rewrite one32_eq.
  unfold Fp.clamp, Fp.flt, Fp.fgt, Fp.fle, Fp.pzero, SFltb, SFleb.
  destruct x as [[]|[]| |[] m e]; try discriminate; intros _;
    cbn [SFcompare]; try (split; reflexivity).
  destruct (e ?= -23) eqn:E;
    destruct (Pos.compare_cont Eq m 8388608) eqn:M;
    against_one e m E M; split; reflexivity.
Qed.

(** The quotient, root and narrowing of a sum with a clear sign bit. *)
Lemma amplitude_of_nonneg_sum (sum : spec_float) (n : Z) :
  Fp.is_nonneg sum = true -> 0 < n < 2 ^ 53 ->
  Fp.is_nonneg
    (Fp.toFloat
       (Fp.div64 (Fp.sqrt64 (Fp.div64 sum (Fp.Z2D n))) (Fp.Z2D 32767)))
  = true.
Proof.
  intros S N. apply toFloat_nonneg.
  change (Fp.Z2D 32767) with (Fp.exact64 false 32767).
  unfold Fp.exact64 at 1. apply div64_nonneg. apply sqrt64_nonneg.
  rewrite (Z2D_pos n) by lia.
  unfold Fp.exact64 at 1. now apply div64_nonneg.
Qed.

End AmplitudeRange.

(** X7. Whatever the length of the block, the amplitude computed from a
    non-empty block of 16 bit samples is a number between [0.0] and [1.0]:
    it is never NaN, never negative and never above one, in the Kotlin
    and in the Swift [calculateRMS]. *)
Theorem amplitude_in_unit_range :
  (forall (buffer : list Z) (readSize : Z),
      Forall int16 buffer ->
      0 < readSize <= Z.of_nat (length buffer) ->
      readSize < 2 ^ 31 ->
      exists amplitude,
        Android.calculateRMS buffer readSize = Some amplitude /\
        Fp.is_nonneg amplitude = true /\
        Fp.fle amplitude Fp.one32 = true) /\
  (forall (b : Ios.AVAudioPCMBuffer) (samples : list Z),
      Ios.int16ChannelData b = Some samples ->
      Forall int16 samples ->
      0 < Z.of_nat (Ios.frameLength b) < 2 ^ 32 ->
      Fp.is_nonneg (Ios.calculateRMS b) = true /\
      Fp.fle (Ios.calculateRMS b) Fp.one32 = true).
Proof.
  assert (F : forall n (l : list Z), Forall int16 l -> Forall int16 (firstn n l)).
  { intros n l H. apply Forall_forall. intros x X.
    rewrite Forall_forall in H. apply H.
    rewrite <- (firstn_skipn n l). apply in_or_app. now left. }
  split.
  - intros buffer readSize I R B.
    rewrite calculateRMS_prefix by lia. rewrite coerceIn_unit.
    eexists. split; [reflexivity|].
    apply clamp_unit_range. apply amplitude_of_nonneg_sum.
    + apply kotlin_sum_nonneg; [now apply F|reflexivity].
    + assert (2 ^ 31 < 2 ^ 53) by reflexivity. lia.
  - intros b samples D I L. unfold Ios.calculateRMS. rewrite D.
    assert (A : Fp.is_nonneg
                  (Fp.toFloat
                     (Fp.div64
                        (Fp.sqrt64
                           (Fp.div64
                              (fold_left
                                 (fun sum s =>
                                    let sample := Fp.Z2D s in
                                    Fp.add64 sum (Fp.mul64 sample sample))
                                 (firstn (Ios.frameLength b) samples)
                                 Fp.pzero)
                              (Fp.Z2D (Z.of_nat (Ios.frameLength b)))))
                        (Fp.Z2D 32767))) = true).
    { apply amplitude_of_nonneg_sum.
      - apply swift_sum_nonneg; [now apply F|reflexivity].
      - assert (2 ^ 32 < 2 ^ 53) by reflexivity. lia. }
    rewrite clamped_nonneg by exact A.
    now apply clamp_unit_range.
Qed.

Lemma amplitude_in_unit_range_witness :
  (exists amplitude,
      Android.calculateRMS [30000; -30000; 12] 2 = Some amplitude /\
      Fp.is_nonneg amplitude = true /\
      Fp.fle amplitude Fp.one32 = true) /\
  Fp.fle
    (Ios.calculateRMS
       {| Ios.format := Ios.targetFormat; Ios.frameLength := 2;
          Ios.channelData := Ios.Int16Samples [30000; -30000; 12] |})
    Fp.one32 = true.
Proof.
  destruct amplitude_in_unit_range as [A B].
  assert (I : Forall int16 [30000; -30000; 12])
    by (repeat constructor; unfold int16; lia).
  split.
  - apply A; [exact I|cbn; lia|lia].
  - apply (B _ [30000; -30000; 12]); [reflexivity|exact I|cbn; lia].
Defined.

(** ** The bytes of a block *)

Section BlockBytes.

Lemma putShort_value (s : Z) :
  int16 s ->
  putShort s = [s mod 256; (s / 256) mod 256].
Proof.
  intros _. unfold putShort.
  change 255 with (Z.ones 8). rewrite !Z.land_ones by lia.
  rewrite Z.shiftr_div_pow2 by lia. reflexivity.
Qed.

Lemma putShort_injective (s t : Z) :
  int16 s -> int16 t -> putShort s = putShort t -> s = t.
Proof.
  intros S T. rewrite !putShort_value by assumption.
  intros H. inversion H as [[H0 H1]]. unfold int16 in *.
  Z.div_mod_to_equations. lia.
Qed.

Lemma flat_map_putShort_injective (l1 : list Z) :
  forall l2 : list Z,
    Forall int16 l1 -> Forall int16 l2 ->
    flat_map putShort l1 = flat_map putShort l2 -> l1 = l2.
Proof.
  induction l1 as [|s l1 IH]; intros [|t l2] F1 F2 H.
  - reflexivity.
  - discriminate.
  - discriminate.
  - inversion F1 as [|? ? S F1']; subst. inversion F2 as [|? ? T F2']; subst.
    cbn [flat_map] in H. unfold putShort at 1 3 in H. cbn [app] in H.
    inversion H as [[H0 H1 H2]].
    f_equal.
    + apply putShort_injective; auto. unfold putShort. congruence.
    + now apply IH.
Qed.

Lemma Forall_firstn {A : Type} (P : A -> Prop) (n : nat) (l : list A) :
  Forall P l -> Forall P (firstn n l).
Proof.
  intros H. apply Forall_forall. intros x X.
  rewrite Forall_forall in H. apply H.
  rewrite <- (firstn_skipn n l). apply in_or_app. now left.
Qed.

Lemma for_until_out_of_range {A : Type} (buf : list Z) (body : A -> Z -> A) :
  forall (n from : nat) (acc : A),
    (0 < n)%nat -> (length buf < from + n)%nat ->
    Android.for_until buf body from n acc = None.
Proof.
  induction n as [|n IH]; intros from acc P H; [lia|].
  cbn [Android.for_until].
  destruct (nth_error buf from) as [x|] eqn:E; [|reflexivity].
  assert (from < length buf)%nat by (apply nth_error_Some; congruence).
  apply IH; lia.
Qed.

End BlockBytes.

(** X8. The bytes of a block lose nothing.  Each 16 bit sample becomes two
    bytes, low byte first, from which it is recovered as
    [lo + 256 * hi], less [65536] when [hi] is 128 or more; two arrays
    whose first [readSize] samples give the same bytes have the same
    first [readSize] samples, on Android and on iOS. *)
Theorem block_bytes_are_lossless :
  (forall s : Z,
      int16 s ->
      exists lo hi,
        putShort s = [lo; hi] /\ byte_ok lo /\ byte_ok hi /\
        s = lo + 256 * hi - (if hi <? 128 then 0 else 65536)) /\
  (forall (buffer1 buffer2 : list Z) (readSize : Z),
      Forall int16 buffer1 -> Forall int16 buffer2 ->
      0 <= readSize <= Z.of_nat (length buffer1) ->
      readSize <= Z.of_nat (length buffer2) ->
      readSize < 2 ^ 30 ->
      Android.shortArrayBytes buffer1 readSize
      = Android.shortArrayBytes buffer2 readSize ->
      firstn (Z.to_nat readSize) buffer1
      = firstn (Z.to_nat readSize) buffer2) /\
  (forall (b1 b2 : Ios.AVAudioPCMBuffer) (samples1 samples2 : list Z),
      Ios.int16ChannelData b1 = Some samples1 ->
      Ios.int16ChannelData b2 = Some samples2 ->
      Forall int16 samples1 -> Forall int16 samples2 ->
      Ios.audioBufferBytes b1 = Ios.audioBufferBytes b2 ->
      firstn (Ios.frameLength b1) samples1
      = firstn (Ios.frameLength b2) samples2).
Proof.
  split; [|split].
  - intros s S. rewrite putShort_value by exact S.
    exists (s mod 256), ((s / 256) mod 256).
    split; [reflexivity|]. unfold byte_ok, int16 in *.
    destruct ((s / 256) mod 256 <? 128) eqn:C;
      [apply Z.ltb_lt in C|apply Z.ltb_ge in C];
      repeat split; Z.div_mod_to_equations; lia.
  - intros b1 b2 n F1 F2 R1 R2 B H.
    rewrite !shortArrayBytes_prefix in H by lia.
    inversion H as [H'].
    apply flat_map_putShort_injective; auto using Forall_firstn.
  - intros b1 b2 l1 l2 D1 D2 F1 F2 H.
    unfold Ios.audioBufferBytes in H. rewrite D1, D2 in H.
    inversion H as [H'].
    apply flat_map_putShort_injective; auto using Forall_firstn.
Qed.

Lemma block_bytes_are_lossless_witness :
  (exists lo hi,
      putShort (-2) = [lo; hi] /\ byte_ok lo /\ byte_ok hi /\
      -2 = lo + 256 * hi - (if hi <? 128 then 0 else 65536)) /\
  firstn (Z.to_nat 2) [5; -7; 1] = firstn (Z.to_nat 2) [5; -7; 9].
Proof.
  destruct block_bytes_are_lossless as (A & B & _).
  split.
  - apply A. unfold int16. lia.
  - apply B; try (repeat constructor; unfold int16; lia);
      try (cbn; lia); reflexivity.
Defined.

(** X9. The two Kotlin helpers do not guard their size argument.  A
    [readSize] beyond the array ends both in the index exception; a
    negative [readSize] makes [shortArrayToBase64] fail on the negative
    capacity while [calculateRMS] divides the empty sum by it and returns
    negative zero. *)
Theorem helpers_with_bad_sizes (buffer : list Z) (readSize : Z) :
  (Z.of_nat (length buffer) < readSize < 2 ^ 30 ->
   Android.calculateRMS buffer readSize = None /\
   Android.shortArrayToBase64 buffer readSize = None) /\
  (- 2 ^ 30 <= readSize < 0 ->
   Android.shortArrayToBase64 buffer readSize = None /\
   Android.calculateRMS buffer readSize = Some (S754_zero true)).
Proof.
  split.
  - intros [L B]. unfold Android.calculateRMS, Android.shortArrayToBase64,
      Android.shortArrayBytes.
    rewrite !for_until_out_of_range by lia.
    split; [reflexivity|].
    destruct (wrap32 (readSize * 2) <? 0); reflexivity.
  - intros [L B]. split.
    + unfold Android.shortArrayToBase64, Android.shortArrayBytes.
      assert (W : wrap32 (readSize * 2) = readSize * 2).
      { unfold wrap32. change (2 ^ 30) with 1073741824 in L.
        rewrite Z.mod_small; lia. }
      rewrite W. destruct (readSize * 2 <? 0) eqn:N; [reflexivity|].
      apply Z.ltb_ge in N. lia.
    + unfold Android.calculateRMS.
      replace (Z.to_nat readSize) with O by lia. cbn [Android.for_until].
      replace readSize with (- - readSize) by lia.
      assert (2 ^ 30 < 2 ^ 53) by reflexivity.
      rewrite Z2D_neg by lia. reflexivity.
Qed.

Lemma helpers_with_bad_sizes_witness :
  (Android.calculateRMS [1; 2] 3 = None /\
   Android.shortArrayToBase64 [1; 2] 3 = None) /\
  (Android.shortArrayToBase64 [1; 2] (-1) = None /\
   Android.calculateRMS [1; 2] (-1) = Some (S754_zero true)).
Proof.
  destruct (helpers_with_bad_sizes [1; 2] 3) as [A _].
  destruct (helpers_with_bad_sizes [1; 2] (-1)) as [_ B].
  split; [apply A; cbn; lia|apply B; lia].
Defined.

(** ** One block through the iOS pipeline *)

Lemma applyGain_format (g : spec_float) (b : Ios.AVAudioPCMBuffer) :
  Ios.format (Ios.applyGain g b) = Ios.format b /\
  Ios.frameLength (Ios.applyGain g b) = Ios.frameLength b.
Proof.
  unfold Ios.applyGain. destruct (Ios.channelData b); auto.
Qed.

(** X10. [processAudioBuffer] hands exactly one event to the sink for
    every block, and none when the target format cannot be built; it
    calls the converter at most once.  A block that already has the
    target format is never converted and is reported from the buffer the
    gain stage left; a block whose conversion succeeds is reported from
    the converted buffer. *)
Theorem one_event_per_block
    (convert : Ios.AVAudioPCMBuffer -> Ios.Conversion)
    (targetFormatAvailable : bool) (inputGain : spec_float)
    (buffer : Ios.AVAudioPCMBuffer) :
  let b := Ios.applyGain inputGain buffer in
  let calls :=
    Ios.processAudioBuffer convert targetFormatAvailable inputGain buffer in
  length (filter Ios.is_event calls)
  = (if targetFormatAvailable then 1 else 0)%nat /\
  (length (filter Ios.is_convert calls) <= 1)%nat /\
  (targetFormatAvailable = true ->
   Ios.format_eqb (Ios.format buffer) Ios.targetFormat = true ->
   calls = [Ios.SendEvent (Ios.audioBufferToBase64 b) (Ios.calculateRMS b)]) /\
  (targetFormatAvailable = true ->
   Ios.format_eqb (Ios.format buffer) Ios.targetFormat = false ->
   forall converted,
     convert b = Ios.Converted converted ->
     calls = [Ios.ConvertCall;
              Ios.SendEvent (Ios.audioBufferToBase64 converted)
                (Ios.calculateRMS converted)]).
Proof.
  intros b calls. unfold calls, Ios.processAudioBuffer. fold b.
  destruct (applyGain_format inputGain buffer) as [F _]. fold b in F.
  rewrite F.
  destruct targetFormatAvailable; cbn [negb].
  - destruct (Ios.format_eqb (Ios.format buffer) Ios.targetFormat) eqn:E;
      cbn [negb].
    + repeat split; auto; discriminate.
    + destruct (convert b) as [| | |c] eqn:C; cbn;
        repeat split; auto; try discriminate;
        intros _ _ converted H; now inversion H.
  - cbn. repeat split; auto; discriminate.
Qed.

Lemma one_event_per_block_witness :
  Ios.processAudioBuffer Examples.failingConverter true Fp.one32
    Examples.emptyBlock
  = [Ios.SendEvent
       (Ios.audioBufferToBase64 (Ios.applyGain Fp.one32 Examples.emptyBlock))
       (Ios.calculateRMS (Ios.applyGain Fp.one32 Examples.emptyBlock))].
Proof.
  apply (one_event_per_block Examples.failingConverter true Fp.one32
           Examples.emptyBlock); reflexivity.
Defined.

(** ** The gain stage at gain one *)

Section UnitGain.

Lemma mul32_one (s : spec_float) :
  valid_binary Fp.prec32 Fp.emax32 s = true ->
  Fp.mul32 s Fp.one32 = s.
Proof.
  rewrite one32_eq.
  destruct s as [[]|[]| |sx m e]; try reflexivity.
  unfold valid_binary, bounded, canonical_mantissa.
  intros V. apply andb_true_iff in V. destruct V as [C B].
  apply Z.eqb_eq in C. apply Z.leb_le in B.
  unfold Fp.mul32, SFmul.
  assert (P : Zpos (m * 8388608) = Zpos m * 2 ^ 23)
    by (rewrite Pos2Z.inj_mul; reflexivity).
  assert (D : fexp Fp.prec32 Fp.emax32
                (Zdigits2 (Zpos (m * 8388608)) + (e + -23)) = e + -23 + 23).
  { rewrite P, Zdigits2_mul_pow2 by lia.
    change (Zdigits2 (Zpos m)) with (Zpos (digits2_pos m)).
    replace (Zpos (digits2_pos m) + 23 + (e + -23))
      with (Zpos (digits2_pos m) + e) by lia.
    rewrite C. lia. }
  rewrite (binary_round_aux_exact Fp.prec32 Fp.emax32 (xorb sx false)
             (Zpos (m * 8388608)) (Zpos m) (e + -23) 23 P);
    [|lia|lia|exact D|lia].
  rewrite xorb_false_r. f_equal. lia.
Qed.

(** Inside the unit interval the clamp keeps its argument. *)
Lemma clamp_inside_unit (s : spec_float) :
  Fp.fle (SFabs s) Fp.one32 = true ->
  Fp.clamp s Fp.mone32 Fp.one32 = s.
Proof.
  rewrite one32_eq, mone32_eq.
  unfold Fp.clamp, Fp.flt, Fp.fgt, Fp.fle, SFltb, SFleb.
  destruct s as [[]|[]| |[] m e]; cbn [SFcompare SFabs];
    try discriminate; try reflexivity;
    destruct (e ?= -23) eqn:E;
    destruct (Pos.compare_cont Eq m 8388608) eqn:M;
    against_one e m E M; try discriminate; reflexivity.
Qed.

Lemma gainSample_one (s : spec_float) :
  valid_binary Fp.prec32 Fp.emax32 s = true ->
  Fp.fle (SFabs s) Fp.one32 = true ->
  Ios.gainSample Fp.one32 s = s.
Proof.
  intros V L. unfold Ios.gainSample. rewrite mul32_one by exact V.
  rewrite gain_clamp_agrees.
  - now apply clamp_inside_unit.
  - destruct s; try reflexivity. discriminate.
Qed.

End UnitGain.

(** X11. At the default gain [1.0] the gain stage is transparent: a
    sample that is a [Float] of magnitude at most one comes out as it
    went in, and a float block whose valid frames are such samples is
    left exactly as it was.  At any gain, the stage keeps the format, the
    frame count and the storage size, leaves the frames beyond
    [frameLength] alone, and does not touch a buffer that has no float
    storage. *)
Theorem unit_gain_is_transparent :
  (forall s : spec_float,
      valid_binary Fp.prec32 Fp.emax32 s = true ->
      Fp.fle (SFabs s) Fp.one32 = true ->
      Ios.gainSample Fp.one32 s = s) /\
  (forall (b : Ios.AVAudioPCMBuffer) (samples : list spec_float),
      Ios.floatChannelData b = Some samples ->
      Forall (fun s => valid_binary Fp.prec32 Fp.emax32 s = true /\
                       Fp.fle (SFabs s) Fp.one32 = true)
        (firstn (Ios.frameLength b) samples) ->
      Ios.applyGain Fp.one32 b = b) /\
  (forall (g : spec_float) (b : Ios.AVAudioPCMBuffer),
      Ios.format (Ios.applyGain g b) = Ios.format b /\
      Ios.frameLength (Ios.applyGain g b) = Ios.frameLength b /\
      (Ios.floatChannelData b = None -> Ios.applyGain g b = b) /\
      (forall samples,
          Ios.floatChannelData b = Some samples ->
          exists samples',
            Ios.floatChannelData (Ios.applyGain g b) = Some samples' /\
            length samples' = length samples /\
            skipn (Ios.frameLength b) samples'
            = skipn (Ios.frameLength b) samples)).
Proof.
  split; [exact gainSample_one|]. split.
  - intros b samples D F. unfold Ios.floatChannelData in D.
    unfold Ios.applyGain. destruct b as [fmt n [l| |]]; cbn in *;
      try discriminate.
    inversion D; subst samples. f_equal. f_equal.
    rewrite <- (firstn_skipn n l) at 3. f_equal.
    rewrite <- (map_id (firstn n l)) at 2.
    apply map_ext_in. intros s S. rewrite Forall_forall in F.
    destruct (F s S) as [V L]. now apply gainSample_one.
  - intros g b. destruct (applyGain_format g b) as [A B].
    split; [exact A|]. split; [exact B|]. split.
    + unfold Ios.floatChannelData, Ios.applyGain.
      destruct (Ios.channelData b); [discriminate|reflexivity|reflexivity].
    + intros samples D. unfold Ios.floatChannelData in *.
      unfold Ios.applyGain. destruct (Ios.channelData b) as [l| |];
        try discriminate.
      inversion D; subst samples. cbn. eexists. split; [reflexivity|].
      set (n := Ios.frameLength b).
      assert (L : length (map (Ios.gainSample g) (firstn n l))
                  = length (firstn n l)) by apply length_map.
      split.
      * rewrite length_app, L, <- length_app, firstn_skipn. reflexivity.
      * destruct (Nat.le_gt_cases n (length l)) as [C|C].
        -- rewrite skipn_app, L, length_firstn, Nat.min_l, Nat.sub_diag by lia.
           rewrite skipn_all2 by (rewrite length_map, length_firstn; lia).
           reflexivity.
        -- rewrite !skipn_all2; try lia; [reflexivity|].
           rewrite length_app, L, <- length_app, firstn_skipn. lia.
Qed.

Lemma unit_gain_is_transparent_witness :
  Ios.gainSample Fp.one32 Fp.half32 = Fp.half32 /\
  Ios.applyGain Fp.one32 Examples.floatBlock = Examples.floatBlock.
Proof.
  destruct unit_gain_is_transparent as (A & B & _).
  split.
  - apply A; reflexivity.
  - apply (B _ [Fp.half32; Fp.half32]); [reflexivity|].
    repeat constructor; reflexivity.
Defined.

(** ** Sessions of the iOS module *)

Ltac ios_count :=
  unfold Ios.count in *; cbn in *;
  repeat rewrite ?filter_app, ?length_app in *; cbn in *; try lia.

Section IosSessions.

Import Ios.

Lemma ios_startRecording_kept (env : Env) (s : State) :
  IosSession.kept s -> IosSession.kept (fst (startRecording env s)).
Proof.
  destruct s as [rec g eng node t]. unfold IosSession.kept, IosSession.engineCount, startRecording,
    configureAudioSession, startAudioEngine.
  intros (A & B & C).
  destruct rec; [cbn in *; auto|].
  destruct env as [[] [] []]; cbn -[count] in *; auto;
    (split; [intros; discriminate|]);
    (split; [split; [intros; discriminate|reflexivity]|]);
    destruct eng; ios_count.
Qed.

Lemma ios_stopRecording_kept (s : State) :
  IosSession.kept s -> IosSession.kept (stopRecording s).
Proof.
  destruct s as [rec g eng node t]. unfold IosSession.kept, IosSession.engineCount, stopRecording.
  intros (A & B & C).
  destruct eng, node; cbn -[count] in *;
    (split; [intros; discriminate|]);
    (split; [split; [intros; discriminate|intros H; now elim H]|]);
    ios_count.
Qed.

Lemma ios_handleInterruption_kept (restarts : bool) (i : Interruption)
    (s : State) :
  IosSession.kept s -> IosSession.kept (handleInterruption restarts i s).
Proof.
  destruct s as [rec g eng node t].
  unfold IosSession.kept, IosSession.engineCount, handleInterruption.
  intros (A & B & C).
  destruct i as [|[]|], eng; cbn -[count] in *; auto;
    (split; [intros; discriminate|]);
    (split; [split; [intros; discriminate|intros; now apply B]|]);
    ios_count.
Qed.

Lemma ios_step_kept (a : IosSession.Action) (s : State) :
  IosSession.kept s -> IosSession.kept (IosSession.step a s).
Proof.
  destruct a; cbn [IosSession.step].
  - apply ios_startRecording_kept.
  - apply ios_stopRecording_kept.
  - apply ios_handleInterruption_kept.
  - destruct s; auto.
Qed.

Lemma ios_run_kept (actions : list IosSession.Action) (s : State) :
  IosSession.kept s -> IosSession.kept (IosSession.run actions s).
Proof.
  revert s. induction actions as [|a actions IH]; intros s K; [exact K|].
  apply IH, ios_step_kept, K.
Qed.

End IosSessions.

(** X12. In every state the iOS module reaches from its initial state by
    start and stop commands, interruption notices and gain changes: while
    [isRecording] holds there is an engine; the input node is kept exactly
    when there is an engine; and the engine is never stopped more often
    than one was created, the engine still kept counting as not yet
    stopped. *)
Theorem ios_recording_has_engine (actions : list IosSession.Action) :
  let s := IosSession.run actions Ios.initial in
  (Ios.isRecording s = true -> Ios.audioEngine s <> None) /\
  (Ios.inputNode s = true <-> Ios.audioEngine s <> None) /\
  (Ios.count Ios.EngineStop (Ios.trace s)
   + match Ios.audioEngine s with Some _ => 1 | None => 0 end
   <= Ios.count Ios.NewEngine (Ios.trace s))%nat.
Proof.
  apply (ios_run_kept actions Ios.initial).
  repeat split; cbn; try discriminate; auto; intros H; now elim H.
Qed.

(** X13. The iOS [stopRecording] always ends with no recording, no engine
    and no input node, and keeps the gain; run on a state that has an
    engine and its input node it stops the engine and removes the tap, in
    that order; run a second time, or on a module that has no engine, it
    changes nothing and makes no platform call. *)
Theorem ios_stop_is_idempotent (s : Ios.State) :
  let s1 := Ios.stopRecording s in
  Ios.isRecording s1 = false /\
  Ios.audioEngine s1 = None /\
  Ios.inputNode s1 = false /\
  Ios.inputGain s1 = Ios.inputGain s /\
  Ios.stopRecording s1 = s1 /\
  (Ios.audioEngine s <> None -> Ios.inputNode s = true ->
   Ios.trace s1 = Ios.trace s ++ [Ios.EngineStop; Ios.RemoveTap]) /\
  (Ios.audioEngine s = None -> Ios.inputNode s = false ->
   Ios.trace s1 = Ios.trace s).
Proof.
  destruct s as [rec g eng node t]. unfold Ios.stopRecording.
  destruct eng, node; cbn; repeat split; auto; try discriminate;
    try (intros H; now elim H); intros; now rewrite <- app_assoc.
Qed.

Lemma ios_stop_is_idempotent_witness :
  Ios.trace (Ios.stopRecording Examples.iosRecording)
  = Ios.trace Examples.iosRecording ++ [Ios.EngineStop; Ios.RemoveTap].
Proof.
  apply (ios_stop_is_idempotent Examples.iosRecording);
    [discriminate|reflexivity].
Defined.

(** X14. The iOS [startRecording] resolves exactly when the module is not
    recording, the audio session can be configured, the recording format
    exists and the engine starts; it then records with a running engine
    after making the calls [setActive], [addObserver], a new engine,
    [installTap] and [start], in that order.  A start that is rejected
    leaves [isRecording] as it was; rejected while recording or by the
    audio session it leaves the whole state as it was; rejected later it
    has registered one more observer and leaves a new engine that is not
    running.  The gain is never changed. *)
Theorem ios_startRecording_outcomes (env : Ios.Env) (s : Ios.State) :
  let s' := fst (Ios.startRecording env s) in
  let o := snd (Ios.startRecording env s) in
  (o = Ios.Resolved <->
   Ios.isRecording s = false /\ Ios.sessionThrows env = false /\
   Ios.formatAvailable env = true /\ Ios.engineStartThrows env = false) /\
  (o = Ios.Resolved ->
   Ios.isRecording s' = true /\ Ios.audioEngine s' = Some true /\
   Ios.inputNode s' = true /\
   Ios.trace s' = Ios.trace s ++ [Ios.SetActive; Ios.AddObserver;
                                  Ios.NewEngine; Ios.InstallTap;
                                  Ios.EngineStart]) /\
  (o <> Ios.Resolved -> Ios.isRecording s' = Ios.isRecording s) /\
  (Ios.isRecording s = true \/ Ios.sessionThrows env = true -> s' = s) /\
  (Ios.isRecording s = false -> Ios.sessionThrows env = false ->
   o <> Ios.Resolved ->
   Ios.audioEngine s' = Some false /\ Ios.inputNode s' = true /\
   Ios.count Ios.AddObserver (Ios.trace s')
   = S (Ios.count Ios.AddObserver (Ios.trace s))) /\
  Ios.inputGain s' = Ios.inputGain s.
Proof.
  destruct s as [rec g eng node t].
  unfold Ios.startRecording, Ios.configureAudioSession, Ios.startAudioEngine.
  destruct rec.
  - cbn. repeat split; auto; try discriminate; intros; intuition discriminate.
  - destruct env as [[] [] []]; cbn -[Ios.count];
      (split; [split; [intros H; try discriminate H; auto
                      |intros (_ & A & B & C); try discriminate; auto]|]);
      (split; [intros H; try discriminate H;
               repeat split; auto; now rewrite <- !app_assoc|]);
      (split; [intros H; try (now elim H); reflexivity|]);
      (split; [intros [H|H]; try discriminate H; auto|]);
      (split; [|reflexivity]);
      intros _ H R; try discriminate H; try (now elim R);
      repeat split; auto; ios_count.
Qed.

Lemma ios_startRecording_outcomes_witness :
  Ios.trace Examples.iosRecording
  = [Ios.SetActive; Ios.AddObserver; Ios.NewEngine; Ios.InstallTap;
     Ios.EngineStart].
Proof.
  destruct (ios_startRecording_outcomes Examples.iosGranted Ios.initial)
    as (A & B & _).
  apply B. apply A. repeat split.
Defined.

(** X15. An interruption of a recording session that ends without the
    resume option, or whose restart fails, leaves the module recording
    with an engine that is not running; a notice that cannot be read
    changes nothing.  From there every [startRecording] is rejected as
    already recording and changes nothing: only [stopRecording] ends the
    session. *)
Theorem interrupted_session_stays_paused
    (s : Ios.State) (running : bool) (i : Ios.Interruption) (env : Ios.Env) :
  Ios.isRecording s = true ->
  Ios.audioEngine s = Some running ->
  i = Ios.InterruptionEnded false \/ i = Ios.InterruptionEnded true \/
  i = Ios.InterruptionUnreadable ->
  let paused := Ios.handleInterruption false Ios.InterruptionBegan s in
  let after := Ios.handleInterruption false i paused in
  Ios.handleInterruption false Ios.InterruptionUnreadable s = s /\
  Ios.isRecording after = true /\
  Ios.audioEngine after = Some false /\
  Ios.count Ios.EngineStop (Ios.trace after)
  = Ios.count Ios.EngineStop (Ios.trace s) /\
  Ios.startRecording env after = (after, Ios.Rejected "E_ALREADY_RECORDING").
Proof.
  destruct s as [rec g eng node t]. cbn. intros R E I. subst rec. inversion E; subst eng.
  destruct I as [I|[I|I]]; subst i;
    cbn -[Ios.count]; repeat split; ios_count.
Qed.

Lemma interrupted_session_stays_paused_witness :
  Ios.audioEngine
    (Ios.handleInterruption false (Ios.InterruptionEnded false)
       (Ios.handleInterruption false Ios.InterruptionBegan
          Examples.iosRecording))
  = Some false.
Proof.
  apply (interrupted_session_stays_paused Examples.iosRecording true
           (Ios.InterruptionEnded false) Examples.iosGranted);
    [reflexivity|reflexivity|now left].
Defined.

(** ** The screen *)

Section Comparisons.

Lemma SFcompare_flip (x y : spec_float) :
  SFcompare y x = option_map CompOpp (SFcompare x y).
Proof.
  destruct x as [[]|[]| |[] mx ex], y as [[]|[]| |[] my ey];
    cbn [SFcompare option_map CompOpp]; try reflexivity;
    rewrite (Z.compare_antisym ex ey), (compare_cont_flip mx my);
    destruct (ex ?= ey); cbn [CompOpp]; try reflexivity;
    destruct (Pos.compare_cont Eq mx my); reflexivity.
Qed.

Lemma SFcompare_not_none (x y : spec_float) :
  Fp.is_nan x = false -> Fp.is_nan y = false -> SFcompare x y <> None.
Proof.
  destruct x as [[]|[]| |[] mx ex], y as [[]|[]| |[] my ey];
    cbn [Fp.is_nan]; intros A B; try discriminate A; try discriminate B;
    cbn [SFcompare]; discriminate.
Qed.

Lemma flt_fle (x y : spec_float) : Fp.flt x y = true -> Fp.fle x y = true.
Proof.
  unfold Fp.flt, Fp.fle, SFltb, SFleb.
  destruct (SFcompare x y) as [[]|]; auto.
Qed.

Lemma not_flt_fle (x y : spec_float) :
  Fp.is_nan x = false -> Fp.is_nan y = false ->
  Fp.flt y x = false -> Fp.fle x y = true.
Proof.
  intros A B. pose proof (SFcompare_not_none x y A B) as N.
  unfold Fp.flt, Fp.fle, SFltb, SFleb. rewrite (SFcompare_flip x y).
  destruct (SFcompare x y) as [[]|]; cbn [option_map CompOpp]; auto;
    try discriminate; now elim N.
Qed.

Lemma binary_round_not_nan (prec emax : Z) (sx : bool) (m : positive) (e : Z) :
  Fp.is_nan (binary_round prec emax sx m e) = false.
Proof.
  unfold binary_round. destruct (shl_align m e _) as [mz ez].
  pose proof (binary_round_aux_sign prec emax sx (Zpos mz) ez loc_Exact) as S.
  destruct (binary_round_aux prec emax sx (Zpos mz) ez loc_Exact);
    try reflexivity.
  exfalso. apply S. lia.
Qed.

Lemma add64_not_nan (x y : spec_float) :
  Fp.is_finite x = true -> Fp.is_finite y = true ->
  Fp.is_nan (Fp.add64 x y) = false.
Proof.
  destruct x as [sx| | |sx mx ex]; try discriminate;
    destruct y as [sy| | |sy my ey]; try discriminate; intros _ _.
  - destruct sx, sy; reflexivity.
  - reflexivity.
  - reflexivity.
  - unfold Fp.add64, SFadd, binary_normalize.
    destruct (_ + _); [reflexivity| |]; apply binary_round_not_nan.
Qed.

Lemma toFloat_not_nan (x : spec_float) :
  Fp.is_nan x = false -> Fp.is_nan (Fp.toFloat x) = false.
Proof.
  destruct x; try reflexivity; [discriminate|].
  intros _. apply binary_round_not_nan.
Qed.

End Comparisons.

Section Screen.

Import App.

Lemma gainInRange_finite (g : spec_float) :
  gainInRange g -> Fp.is_finite g = true.
Proof.
  intros [A B]. destruct g as [s|[]| |s m e]; try reflexivity;
    try discriminate A; discriminate B.
Qed.

(** [Math.max(0.1, Math.min(10.0, x))] of a number is in range. *)
Lemma clamped_gain_in_range (x : spec_float) :
  Fp.is_nan x = false ->
  gainInRange (Math_max lit_0_1 (Math_min lit_10 x)).
Proof.
  intros N. unfold Math_min. rewrite N.
  change (Fp.is_nan lit_10 || false) with false. cbv iota.
  change (is_negative_zero lit_10) with false. cbv iota.
  destruct (Fp.flt lit_10 x) eqn:A.
  - split; vm_compute; reflexivity.
  - assert (M : (if Fp.flt x lit_10 then x else x) = x)
      by (destruct (Fp.flt x lit_10); reflexivity).
    rewrite M. unfold Math_max. rewrite N.
    change (Fp.is_nan lit_0_1 || false) with false. cbv iota.
    change (is_negative_zero lit_0_1) with false. cbv iota.
    destruct (Fp.flt lit_0_1 x) eqn:C.
    + split; [now apply flt_fle|now apply not_flt_fle].
    + destruct (Fp.flt x lit_0_1); split; vm_compute; reflexivity.
Qed.

Lemma length_pushAmplitude {A : Type} (data : list A) (a : A) :
  data <> [] -> length (pushAmplitude data a) = length data.
Proof.
  destruct data as [|d ds]; [intros H; now elim H|intros _].
  unfold pushAmplitude. cbn [tl]. rewrite length_app. cbn. lia.
Qed.

Lemma fold_pushAmplitude {A : Type} (amps data : list A) :
  data <> [] ->
  fold_left pushAmplitude amps data = skipn (length amps) (data ++ amps).
Proof.
  revert data. induction amps as [|a amps IH]; intros data N.
  - cbn. now rewrite app_nil_r.
  - cbn [fold_left length]. rewrite IH.
    + destruct data as [|d ds]; [now elim N|].
      unfold pushAmplitude. cbn [tl]. rewrite <- app_assoc. reflexivity.
    + unfold pushAmplitude. destruct (tl data); discriminate.
Qed.

(** The calls of one block when the target format exists: one event,
    after at most one conversion. *)
Lemma processAudioBuffer_calls
    (convert : Ios.AVAudioPCMBuffer -> Ios.Conversion) (g : spec_float)
    (buffer : Ios.AVAudioPCMBuffer) :
  exists data amplitude,
    Ios.processAudioBuffer convert true g buffer
    = [Ios.SendEvent data amplitude] \/
    Ios.processAudioBuffer convert true g buffer
    = [Ios.ConvertCall; Ios.SendEvent data amplitude].
Proof.
  unfold Ios.processAudioBuffer. cbn [negb].
  destruct (negb _).
  - destruct (convert _); eexists; eexists;
      (left; reflexivity) || (right; reflexivity).
  - eexists; eexists; left; reflexivity.
Qed.

Lemma tapBlock_listener
    (convert : Ios.AVAudioPCMBuffer -> Ios.Conversion)
    (buffer : Ios.AVAudioPCMBuffer) (app : State) :
  Ios.audioEngine (native app) = Some true ->
  exists a, tapBlock convert buffer app = listener a app.
Proof.
  intros E. unfold tapBlock. rewrite E.
  destruct (processAudioBuffer_calls convert
              (Ios.inputGain (native app)) buffer) as (d & a & [H|H]);
    rewrite H; exists (toDouble a); reflexivity.
Qed.

Lemma tapBlock_idle
    (convert : Ios.AVAudioPCMBuffer -> Ios.Conversion)
    (buffer : Ios.AVAudioPCMBuffer) (app : State) :
  Ios.audioEngine (native app) <> Some true ->
  tapBlock convert buffer app = app.
Proof.
  intros E. unfold tapBlock.
  destruct (Ios.audioEngine (native app)) as [[]|]; auto. now elim E.
Qed.

Lemma ios_startRecording_flag (env : Ios.Env) (s : Ios.State) :
  Ios.isRecording s = false ->
  Ios.inputGain (fst (Ios.startRecording env s)) = Ios.inputGain s /\
  Ios.isRecording (fst (Ios.startRecording env s))
  = match snd (Ios.startRecording env s) with
    | Ios.Resolved => true
    | Ios.Rejected _ => false
    end.
Proof.
  destruct s as [rec g eng node t]. cbn. intros ->.
  unfold Ios.startRecording, Ios.configureAudioSession, Ios.startAudioEngine.
  destruct env as [[] [] []]; cbn; auto.
Qed.

Lemma ios_stopRecording_flag (s : Ios.State) :
  Ios.isRecording (Ios.stopRecording s) = false /\
  Ios.inputGain (Ios.stopRecording s) = Ios.inputGain s.
Proof. destruct s as [rec g [] []]; split; reflexivity. Qed.

Lemma ios_handleInterruption_flag (restarts : bool) (i : Ios.Interruption)
    (s : Ios.State) :
  Ios.isRecording (Ios.handleInterruption restarts i s) = Ios.isRecording s /\
  Ios.inputGain (Ios.handleInterruption restarts i s) = Ios.inputGain s.
Proof.
  destruct s as [rec g [] node], i as [|[]|]; split; reflexivity.
Qed.

Ltac consistent_parts :=
  split; [|split; [|split]];
  cbn [isRecording native visualizerData gain set_native listener adjustGain].

Lemma handleToggleRecording_consistent
    (permission : IosSession.RecordPermission) (env : Ios.Env) (app : State) :
  consistent app -> consistent (handleToggleRecording permission env app).
Proof.
  intros (S & L & G & N). unfold handleToggleRecording.
  destruct (isRecording app) eqn:R.
  - destruct (ios_stopRecording_flag (native app)) as [A B].
    consistent_parts; [now rewrite A|apply repeat_length|exact G|congruence].
  - destruct (String.eqb _ "DENIED"); [consistent_parts; auto|].
    destruct (String.eqb _ "REQUESTED"); [consistent_parts; auto|].
    destruct (ios_startRecording_flag env (native app)) as [A B];
      [now rewrite <- S|].
    destruct (Ios.startRecording env (native app)) as [n' [|code]];
      cbn [fst snd] in A, B; consistent_parts; auto; congruence.
Qed.

Lemma step_consistent
    (convert : Ios.AVAudioPCMBuffer -> Ios.Conversion) (a : Action)
    (app : State) :
  consistent app -> consistent (step convert a app).
Proof.
  intros C. destruct a as [p env|increase|buffer|restarts i]; cbn [step].
  - now apply handleToggleRecording_consistent.
  - destruct C as (S & L & G & N). consistent_parts; auto.
    apply clamped_gain_in_range, add64_not_nan;
      [now apply gainInRange_finite|destruct increase; reflexivity].
  - destruct (Ios.audioEngine (native app)) as [[]|] eqn:E.
    + destruct (tapBlock_listener convert buffer app E) as [a ->].
      destruct C as (S & L & G & N). consistent_parts; auto.
      rewrite length_pushAmplitude; auto.
      intros Z. rewrite Z in L. discriminate L.
    + rewrite tapBlock_idle; [exact C|rewrite E; discriminate].
    + rewrite tapBlock_idle; [exact C|rewrite E; discriminate].
  - destruct C as (S & L & G & N).
    destruct (ios_handleInterruption_flag restarts i (native app)) as [A B].
    consistent_parts; auto; congruence.
Qed.

Lemma run_consistent
    (convert : Ios.AVAudioPCMBuffer -> Ios.Conversion)
    (actions : list Action) (app : State) :
  consistent app -> consistent (run convert actions app).
Proof.
  revert app. induction actions as [|a actions IH]; intros app C; [exact C|].
  apply IH, step_consistent, C.
Qed.

Lemma initial_consistent : consistent initial.
Proof. repeat split; vm_compute; reflexivity. Qed.

End Screen.

(** X17. The amplitude history is a sliding window: pushing amplitudes
    into a non-empty history leaves the newest ones, as many as it held
    before; on the screen it always holds [MAX_SAMPLES] entries; a block
    that reaches the tap of a running engine pushes exactly one amplitude,
    and a block is ignored when the engine is not running. *)
Theorem history_is_sliding_window :
  (forall (A : Type) (data amps : list A),
      data <> [] ->
      fold_left App.pushAmplitude amps data
      = skipn (length amps) (data ++ amps)) /\
  (forall convert actions,
      length (App.visualizerData (App.run convert actions App.initial))
      = App.MAX_SAMPLES) /\
  (forall convert buffer app,
      Ios.audioEngine (App.native app) = Some true ->
      exists a,
        App.tapBlock convert buffer app = App.listener a app) /\
  (forall convert buffer app,
      Ios.audioEngine (App.native app) <> Some true ->
      App.tapBlock convert buffer app = app).
Proof.
  split; [intros A data amps; apply fold_pushAmplitude|].
  split; [|split; [exact tapBlock_listener|exact tapBlock_idle]].
  intros convert actions.
  apply (run_consistent convert actions App.initial initial_consistent).
Qed.

Lemma history_is_sliding_window_witness :
  fold_left App.pushAmplitude [4; 5; 6] [1; 2] = [5; 6].
Proof.
  destruct history_is_sliding_window as [H _].
  apply (H Z [1; 2] [4; 5; 6]). discriminate.
Defined.

(** X18. On the screen the gain never leaves the range from [0.1] to
    [10.0] (so it is never NaN), and the gain the module applies is always
    the screen's gain narrowed to a [Float]. *)
Theorem gain_stays_in_range
    (convert : Ios.AVAudioPCMBuffer -> Ios.Conversion)
    (actions : list App.Action) :
  let app := App.run convert actions App.initial in
  Fp.fle App.lit_0_1 (App.gain app) = true /\
  Fp.fle (App.gain app) App.lit_10 = true /\
  Fp.is_nan (App.gain app) = false /\
  Ios.inputGain (App.native app) = Fp.toFloat (App.gain app).
Proof.
  destruct (run_consistent convert actions App.initial initial_consistent)
    as (_ & _ & G & N).
  cbv zeta. split; [apply G|]. split; [apply G|]. split; [|exact N].
  pose proof (gainInRange_finite _ G) as F.
  destruct (App.gain _); try reflexivity; discriminate F.
Qed.

(** X19. The permission answer gates the start.  The iOS module answers
    GRANTED exactly for a granted permission or a request the user
    accepts, and never answers REQUESTED.  With any other answer a tap on
    the record button of a screen that is not recording shows one alert,
    leaves the module untouched and leaves the screen not recording. *)
Theorem permission_gates_start :
  (forall p, IosSession.requestPermissions p <> "REQUESTED"%string) /\
  (forall p,
      IosSession.requestPermissions p = "GRANTED"%string <->
      p = IosSession.granted \/ p = IosSession.undetermined true) /\
  (forall p env app,
      App.isRecording app = false ->
      IosSession.requestPermissions p <> "GRANTED"%string ->
      let app' := App.handleToggleRecording p env app in
      App.native app' = App.native app /\
      App.alerts app' = S (App.alerts app) /\
      App.isRecording app' = false).
Proof.
  split; [intros [| |[]|]; discriminate|].
  split.
  - intros [| |[]|]; cbn; split; auto; try discriminate;
      intros [H|H]; discriminate H.
  - intros p env app R G. unfold App.handleToggleRecording. rewrite R.
    destruct p as [| |[]|]; cbn in *; auto; now elim G.
Qed.

Lemma permission_gates_start_witness :
  App.alerts
    (App.handleToggleRecording IosSession.denied Examples.iosGranted
       App.initial) = 1%nat.
Proof.
  destruct permission_gates_start as (_ & _ & H).
  apply (H IosSession.denied Examples.iosGranted App.initial);
    [reflexivity|discriminate].
Defined.

(** ** The transcript *)

Section Transcripts.

Import Transcript.

Lemma append_assoc (a b c : string) :
  ((a ++ b) ++ c = a ++ (b ++ c))%string.
Proof.
  induction a as [|x a IH]; cbn; [reflexivity|now rewrite IH].
Qed.

Lemma append_nonempty (a b : string) :
  a <> ""%string -> (a ++ b)%string <> ""%string.
Proof. destruct a; [intros H; now elim H|discriminate]. Qed.

Lemma concat_cons_joined (a m : string) (rest : list string) :
  String.concat " " ((a ++ " " ++ m)%string :: rest)
  = (a ++ " " ++ String.concat " " (m :: rest))%string.
Proof.
  destruct rest as [|r rest]; [reflexivity|].
  cbn [String.concat]. now rewrite !append_assoc.
Qed.

Lemma fold_onmessage_nonempty (messages : list string) (prev : string) :
  prev <> ""%string ->
  fold_left onmessage messages prev = String.concat " " (prev :: messages).
Proof.
  revert prev. induction messages as [|m rest IH]; intros prev N;
    [reflexivity|].
  cbn [fold_left].
  assert (E : onmessage prev m = (prev ++ " " ++ m)%string).
  { unfold onmessage. apply String.eqb_neq in N. now rewrite N. }
  rewrite E, IH by now apply append_nonempty.
  apply concat_cons_joined.
Qed.

End Transcripts.

(** X20. The transcript shown after any sequence of messages is the
    messages joined by single spaces, the empty messages that arrive
    before the first non-empty one left out; a transcript that is not
    empty grows by a space and the message, even an empty one. *)
Theorem transcript_is_joined_messages (messages : list string) :
  fold_left Transcript.onmessage messages ""%string
  = String.concat " " (Transcript.dropEmpty messages) /\
  (forall prev : string,
      prev <> ""%string ->
      fold_left Transcript.onmessage messages prev
      = String.concat " " (prev :: messages)).
Proof.
  split; [|intros prev; apply fold_onmessage_nonempty].
  induction messages as [|m rest IH]; [reflexivity|].
  cbn [fold_left Transcript.dropEmpty]. unfold Transcript.is_empty.
  destruct (String.eqb m "") eqn:E.
  - apply String.eqb_eq in E. subst m. exact IH.
  - apply String.eqb_neq in E.
    change (Transcript.onmessage "" m) with m.
    now apply fold_onmessage_nonempty.
Qed.

Lemma transcript_is_joined_messages_witness :
  fold_left Transcript.onmessage [""; "a"; ""; "b"]%string "x"%string
  = "x  a  b"%string.
Proof.
  destruct (transcript_is_joined_messages [""; "a"; ""; "b"]%string)
    as [_ H].
  rewrite H; [reflexivity|discriminate].
Defined.

(** ** The record button, await by await *)

Section Handlers.

Import Presses.

Variable convert : Ios.AVAudioPCMBuffer -> Ios.Conversion.

Lemma replaceAt_last (earlier : list Handler) (h h' : Handler) :
  replaceAt (length earlier) h' (earlier ++ [h]) = earlier ++ [h'].
Proof. induction earlier as [|x tl IH]; cbn; [reflexivity|now rewrite IH]. Qed.

Lemma nth_error_last (earlier : list Handler) (h : Handler) :
  nth_error (earlier ++ [h]) (length earlier) = Some h.
Proof. rewrite nth_error_app2, Nat.sub_diag by lia. reflexivity. Qed.

(** Which handler an index names when at most the newest is under way. *)
Lemma nth_error_newest (earlier : list Handler) (h : Handler) (k : nat) :
  allFinished earlier = true ->
  (k = length earlier /\ nth_error (earlier ++ [h]) k = Some h) \/
  nth_error (earlier ++ [h]) k = Some Finished \/
  nth_error (earlier ++ [h]) k = None.
Proof.
  intros F. destruct (Nat.lt_trichotomy k (length earlier)) as [L|[L|L]].
  - right. left. rewrite nth_error_app1 by exact L.
    destruct (nth_error earlier k) as [x|] eqn:E.
    + unfold allFinished in F. rewrite forallb_forall in F.
      specialize (F x (nth_error_In _ _ E)). now destruct x.
    + apply nth_error_None in E. lia.
  - left. subst k. split; [reflexivity|apply nth_error_last].
  - right. right. apply nth_error_None. rewrite length_app. cbn. lia.
Qed.

Lemma allFinished_app (hs : list Handler) (h : Handler) :
  allFinished (hs ++ [h]) = allFinished hs && isFinished h.
Proof.
  unfold allFinished. rewrite forallb_app. cbn. now rewrite andb_true_r.
Qed.

Lemma other_step_flags (a : App.Action) (app : App.State) :
  match a with App.Toggle _ _ => False | _ => True end ->
  App.isRecording (App.step convert a app) = App.isRecording app /\
  Ios.isRecording (App.native (App.step convert a app))
  = Ios.isRecording (App.native app).
Proof.
  destruct a as [p env|increase|buffer|restarts i]; intros H;
    [now elim H| | |]; cbn [App.step].
  - split; reflexivity.
  - destruct (Ios.audioEngine (App.native app)) as [[]|] eqn:E.
    + destruct (tapBlock_listener convert buffer app E) as [x ->].
      split; reflexivity.
    + rewrite tapBlock_idle; [auto|rewrite E; discriminate].
    + rewrite tapBlock_idle; [auto|rewrite E; discriminate].
  - destruct (ios_handleInterruption_flag restarts i (App.native app))
      as [A _].
    split; [reflexivity|exact A].
Qed.

Lemma press_inStep (scr : Screen) :
  allFinished (handlers scr) = true -> inStep scr -> inStep (press scr).
Proof.
  intros F [[E S]|(earlier & h & E & D & A)]; right; unfold press;
    cbn [handlers app App.isRecording set_error App.native]; rewrite E.
  - exists [], (if App.isRecording (app scr) then StopRequested
                else PermissionRequested).
    repeat split. cbv zeta in S. rewrite <- S.
    destruct (App.isRecording (app scr)); reflexivity.
  - rewrite E, allFinished_app in F. apply andb_true_iff in F.
    destruct F as [_ Fh]. destruct h; try discriminate.
    cbn [agrees] in A. apply Bool.eqb_prop in A.
    eexists (earlier ++ [Finished]), _. split; [reflexivity|].
    split; [now rewrite allFinished_app, D|].
    rewrite <- A. destruct (App.isRecording (app scr)); reflexivity.
Qed.

Lemma answer_inStep (k : nat) (p : IosSession.RecordPermission)
    (env : Ios.Env) (scr : Screen) :
  inStep scr -> inStep (answer k p env scr).
Proof.
  intros I. pose proof I as [[E S]|(earlier & h & E & D & A)];
    unfold answer; rewrite E.
  - now destruct k.
  - destruct (nth_error_newest earlier h k D) as [[-> N]|[N|N]];
      rewrite N; [|exact I|exact I].
    destruct h as [| | |status| |outcome|]; try exact I.
    + right. rewrite replaceAt_last. exists earlier, StopAnswered.
      split; [reflexivity|]. split; [exact D|].
      cbn [app App.set_native App.isRecording App.native agrees].
      destruct (ios_stopRecording_flag (App.native (app scr))) as [R _].
      now rewrite R.
    + right. rewrite replaceAt_last. eexists earlier, _.
      split; [reflexivity|]. split; [exact D|exact A].
    + cbn [agrees] in A. apply andb_true_iff in A. destruct A as [_ A].
      apply negb_true_iff in A.
      destruct (ios_startRecording_flag env (App.native (app scr)) A)
        as [_ B].
      destruct (Ios.startRecording env (App.native (app scr)))
        as [n' [|code]]; cbn [fst snd] in B;
        right; rewrite replaceAt_last; eexists earlier, _;
        (split; [reflexivity|]); (split; [exact D|]);
        cbn [app App.set_native App.isRecording App.native agrees];
        now rewrite B.
Qed.

Lemma resume_inStep (k : nat) (scr : Screen) :
  inStep scr -> inStep (resume k scr).
Proof.
  intros I. pose proof I as [[E S]|(earlier & h & E & D & A)];
    unfold resume; rewrite E.
  - now destruct k.
  - destruct (nth_error_newest earlier h k D) as [[-> N]|[N|N]];
      rewrite N; [|exact I|exact I].
    destruct h as [| | |status| |[|code]|]; try exact I.
    + right. rewrite replaceAt_last. exists earlier, Finished.
      split; [reflexivity|]. split; [exact D|].
      cbn [agrees] in *. apply negb_true_iff in A. cbn. now rewrite A.
    + cbn [agrees] in A. apply andb_true_iff in A. destruct A as [A1 A2].
      apply negb_true_iff in A1. apply negb_true_iff in A2.
      destruct (String.eqb status "DENIED");
        [|destruct (String.eqb status "REQUESTED")];
        right; rewrite replaceAt_last; eexists earlier, _;
        (split; [reflexivity|]); (split; [exact D|]);
        cbn [app alert App.isRecording App.native agrees];
        now rewrite A1, A2.
    + right. rewrite replaceAt_last. exists earlier, Finished.
      split; [reflexivity|]. split; [exact D|].
      cbn [agrees] in *. cbn. now rewrite A.
    + right. rewrite replaceAt_last. exists earlier, Finished.
      split; [reflexivity|]. split; [exact D|].
      cbn [agrees] in *. apply negb_true_iff in A. cbn. now rewrite A.
Qed.

Lemma other_inStep (a : App.Action) (scr : Screen) :
  match a with App.Toggle _ _ => False | _ => True end ->
  inStep scr -> inStep (onApp (App.step convert a) scr).
Proof.
  intros H I. destruct (other_step_flags a (app scr) H) as [A B].
  unfold inStep, onApp in *. cbn [app handlers]. cbv zeta in *.
  now rewrite A, B.
Qed.

Lemma step_inStep (a : Action) (scr : Screen) :
  match a with Press => allFinished (handlers scr) | _ => true end = true ->
  inStep scr -> inStep (step convert a scr).
Proof.
  intros O I. destruct a as [|k p env|k|increase|buffer|restarts i];
    cbn [step].
  - now apply press_inStep.
  - now apply answer_inStep.
  - now apply resume_inStep.
  - now apply other_inStep.
  - now apply other_inStep.
  - now apply other_inStep.
Qed.

Lemma run_inStep (actions : list Action) :
  forall scr,
    orderly convert actions scr = true -> inStep scr ->
    inStep (run convert actions scr).
Proof.
  induction actions as [|a tl IH]; intros scr O I; [exact I|].
  cbn [orderly] in O. apply andb_true_iff in O. destruct O as [Oa Otl].
  apply (IH (step convert a scr) Otl). now apply step_inStep.
Qed.

Lemma inStep_finished (scr : Screen) :
  inStep scr -> allFinished (handlers scr) = true ->
  App.isRecording (app scr) = Ios.isRecording (App.native (app scr)).
Proof.
  intros [[E S]|(earlier & h & E & D & A)] F; [exact S|].
  rewrite E, allFinished_app in F. apply andb_true_iff in F.
  destruct F as [_ F]. destruct h; try discriminate.
  now apply Bool.eqb_prop.
Qed.

(** A press taken to its end before anything else happens does what the
    handler does when read as one step. *)
Lemma wholePress_run (p : IosSession.RecordPermission) (env : Ios.Env)
    (scr : Screen) :
  run convert (wholePress (length (handlers scr)) p env) scr
  = {| app := App.handleToggleRecording p env (app scr);
       handlers := handlers scr ++ [Finished] |}.
Proof.
  destruct scr as [a hs]. unfold wholePress, run. cbn [fold_left step].
  unfold press. cbn [app handlers].
  unfold App.handleToggleRecording.
  destruct (App.isRecording a) eqn:R.
  - unfold answer at 2. cbn [handlers app]. rewrite nth_error_last.
    rewrite replaceAt_last.
    unfold resume at 2. cbn [handlers app]. rewrite nth_error_last.
    rewrite replaceAt_last.
    unfold answer. cbn [handlers app]. rewrite nth_error_last.
    unfold resume. cbn [handlers app]. rewrite nth_error_last.
    destruct a. reflexivity.
  - unfold answer at 2. cbn [handlers app]. rewrite nth_error_last.
    rewrite replaceAt_last.
    unfold resume at 2. cbn [handlers app]. rewrite nth_error_last.
    destruct (String.eqb (IosSession.requestPermissions p) "DENIED").
    { rewrite replaceAt_last.
      unfold answer. cbn [handlers app]. rewrite nth_error_last.
      unfold resume. cbn [handlers app]. rewrite nth_error_last.
      destruct a; cbn in *; now subst. }
    destruct (String.eqb (IosSession.requestPermissions p) "REQUESTED").
    { rewrite replaceAt_last.
      unfold answer. cbn [handlers app]. rewrite nth_error_last.
      unfold resume. cbn [handlers app]. rewrite nth_error_last.
      destruct a; cbn in *; now subst. }
    rewrite replaceAt_last.
    unfold answer. cbn [handlers app]. rewrite nth_error_last.
    cbn [set_error App.native].
    destruct (Ios.startRecording env (App.native a)) as [n' [|code]];
      cbn [handlers app]; rewrite replaceAt_last;
      unfold resume; cbn [handlers app]; rewrite nth_error_last,
        replaceAt_last; destruct a; reflexivity.
Qed.

(** Two overlapping presses on a screen that is not recording: both
    handlers have read the flag as false, the first start resolves, the
    second is rejected and its [catch] block clears the flag. *)
Lemma twoPresses_run
    (a : App.State) (p1 p2 : IosSession.RecordPermission)
    (env1 env2 : Ios.Env) :
  App.isRecording a = false ->
  Ios.isRecording (App.native a) = false ->
  IosSession.requestPermissions p1 = "GRANTED"%string ->
  IosSession.requestPermissions p2 = "GRANTED"%string ->
  snd (Ios.startRecording env1 (App.native a)) = Ios.Resolved ->
  let scr :=
    run convert (twoPresses 0 p1 p2 env1 env2)
      {| app := a; handlers := [] |} in
  handlers scr = [Finished; Finished] /\
  App.isRecording (app scr) = false /\
  Ios.isRecording (App.native (app scr)) = true /\
  App.error (app scr) = Some "E_ALREADY_RECORDING"%string.
Proof.
  intros R N P1 P2 O scr.
  pose proof (ios_startRecording_flag env1 (App.native a) N) as [_ F].
  assert (E : scr
              = {| app :=
                     set_isRecording false
                       (set_error (Some "E_ALREADY_RECORDING"%string)
                          (set_isRecording true
                             (App.set_native
                                (fst (Ios.startRecording env1 (App.native a)))
                                (set_error None (set_error None a)))));
                   handlers := [Finished; Finished] |}).
  { unfold scr, twoPresses, run. cbn [fold_left step].
    unfold press. cbn [app handlers set_error App.isRecording List.app].
    rewrite R. cbn [app handlers List.app].
    unfold answer at 4. cbn [handlers nth_error replaceAt app]. rewrite P1.
    unfold answer at 3. cbn [handlers nth_error replaceAt app]. rewrite P2.
    unfold resume at 4. cbn [handlers nth_error replaceAt app].
    change (String.eqb "GRANTED" "DENIED") with false.
    change (String.eqb "GRANTED" "REQUESTED") with false. cbv iota.
    unfold resume at 3. cbn [handlers nth_error replaceAt app].
    change (String.eqb "GRANTED" "DENIED") with false.
    change (String.eqb "GRANTED" "REQUESTED") with false. cbv iota.
    unfold answer at 2. cbn [handlers nth_error replaceAt app App.native
      set_error].
    destruct (Ios.startRecording env1 (App.native a)) as [n1 o1].
    cbn [snd fst] in O, F |- *. subst o1.
    unfold answer. cbn [handlers nth_error replaceAt app App.native
      App.set_native].
    rewrite (ios_startRecording_rejects_when_recording env2 n1 F).
    unfold resume at 2. cbn [handlers nth_error replaceAt app].
    unfold resume. cbn [handlers nth_error replaceAt app].
    reflexivity. }
  rewrite E. cbn [app handlers set_isRecording set_error App.set_native
    App.isRecording App.native App.error].
  repeat split. cbn [fst snd] in *.
  destruct (Ios.startRecording env1 (App.native a)) as [n1 o1].
  cbn [snd fst] in *. now subst o1.
Qed.

End Handlers.

(** X16. The handler of the record button is asynchronous: it reads the
    recording flag when the button is pressed and goes on after each
    answer of the module, and other presses, gain changes, blocks and
    interruptions can fall in between.  As long as the button is never
    pressed while an earlier handler is still under way, the recording
    flag the screen shows is the module's [isRecording] whenever no
    handler is under way; a press taken to its end before anything else
    happens does exactly what the handler does when it is read as one
    step.  Two presses that overlap on a screen that is not recording,
    both with the permission granted and the first start resolving, end
    with the module recording, the screen showing that it is not, and the
    already-recording error on the screen. *)
Theorem screen_flag_follows_module
    (convert : Ios.AVAudioPCMBuffer -> Ios.Conversion) :
  (forall actions : list Presses.Action,
      Presses.orderly convert actions Presses.initial = true ->
      let scr := Presses.run convert actions Presses.initial in
      Presses.allFinished (Presses.handlers scr) = true ->
      App.isRecording (Presses.app scr)
      = Ios.isRecording (App.native (Presses.app scr))) /\
  (forall (p : IosSession.RecordPermission) (env : Ios.Env)
          (scr : Presses.Screen),
      Presses.run convert
        (Presses.wholePress (length (Presses.handlers scr)) p env) scr
      = {| Presses.app := App.handleToggleRecording p env (Presses.app scr);
           Presses.handlers := Presses.handlers scr ++ [Presses.Finished] |}) /\
  (forall (a : App.State) (p1 p2 : IosSession.RecordPermission)
          (env1 env2 : Ios.Env),
      App.isRecording a = false ->
      Ios.isRecording (App.native a) = false ->
      IosSession.requestPermissions p1 = "GRANTED"%string ->
      IosSession.requestPermissions p2 = "GRANTED"%string ->
      snd (Ios.startRecording env1 (App.native a)) = Ios.Resolved ->
      let scr :=
        Presses.run convert (Presses.twoPresses 0 p1 p2 env1 env2)
          {| Presses.app := a; Presses.handlers := [] |} in
      Presses.handlers scr = [Presses.Finished; Presses.Finished] /\
      App.isRecording (Presses.app scr) = false /\
      Ios.isRecording (App.native (Presses.app scr)) = true /\
      App.error (Presses.app scr) = Some "E_ALREADY_RECORDING"%string).
Proof.
  split; [|split; [apply wholePress_run|apply twoPresses_run]].
  intros actions O scr F. apply inStep_finished; [|exact F].
  apply run_inStep; [exact O|]. left. split; reflexivity.
Qed.

Lemma screen_flag_follows_module_witness :
  let pressed :=
    Presses.run Examples.failingConverter
      (Presses.wholePress 0 IosSession.granted Examples.iosGranted)
      Presses.initial in
  let twice :=
    Presses.run Examples.failingConverter
      (Presses.twoPresses 0 IosSession.granted IosSession.granted
         Examples.iosGranted Examples.iosGranted)
      Presses.initial in
  App.isRecording (Presses.app pressed)
  = Ios.isRecording (App.native (Presses.app pressed)) /\
  App.isRecording (Presses.app twice) = false /\
  Ios.isRecording (App.native (Presses.app twice)) = true.
Proof.
  destruct (screen_flag_follows_module Examples.failingConverter)
    as (A & _ & C).
  split.
  - apply (A (Presses.wholePress 0 IosSession.granted Examples.iosGranted));
      reflexivity.
  - destruct (C App.initial IosSession.granted IosSession.granted
                Examples.iosGranted Examples.iosGranted
                eq_refl eq_refl eq_refl eq_refl eq_refl)
      as (_ & R & M & _).
    split; [exact R|exact M].
Defined.
